(** * Hybrid evidence retrieval and claim scoring: a shallow embedding

    The development follows the services of the application:

    - [TextProcessor]          app/services/text_processor_simple.py
    - [ClassificationService]  app/services/classification_service.py
    - [RetrievalService]       app/services/retrieval_service.py
    - [AnalysisService]        app/services/analysis_service.py

    Conventions of the embedding.

    - A Python [str] is a list of characters.  A character is a code point
      of the range U+0000..U+00FF, and the character classes of the regular
      expressions ([\w], [\s], [\S]) and of [str.lower], [str.strip] are the
      ones Python 3 gives on that range.
    - A Python [float] is a rational number: scores are sums and products of
      small decimal constants, and every comparison the code makes is a
      comparison of the exact values.
    - A function that may raise returns [res]; a [try ... except Exception]
      block is a match on that result.
    - External collaborators (the HTML parser, the sentiment pipeline, the
      embedding model, the vector index, the relational store) are
      parameters: a class, a record of operations, or a section variable. *)

From Stdlib Require Import List Ascii String ZArith QArith Qminmax Lia Lqa Bool Arith.
From Stdlib Require Import Sorting.Sorted Sorting.Permutation DecimalString.
From stdpp Require Import gmap strings.
Import ListNotations.

Set Default Proof Using "Type".

(** ** Python values shared by the services *)

Definition str := list ascii.

Definition lit (s : string) : str := list_ascii_of_string s.

(** Exceptions that the modelled code can raise or catch. *)
Inductive exn :=
| KeyError (key : string)
| ValueError (msg : string)
| Exception (msg : string).

(** [str(e)]: a [KeyError] prints the [repr] of its key. *)
Definition str_of_exn (e : exn) : string :=
  match e with
  | KeyError k => ("'" ++ k ++ "'")%string
  | ValueError m => m
  | Exception m => m
  end.

Inductive res (A : Type) :=
| Ok (a : A)
| Raise (e : exn).
Arguments Ok {A} a.
Arguments Raise {A} e.

Definition bind {A B : Type} (m : res A) (k : A -> res B) : res B :=
  match m with
  | Ok a => k a
  | Raise e => Raise e
  end.

Notation "'let*' x ':=' m 'in' k" := (bind m (fun x => k))
  (at level 10, x name, m at level 100, k at level 200).

(** [try: m except Exception: h] *)
Definition try_except {A : Type} (m : res A) (h : exn -> A) : A :=
  match m with
  | Ok a => a
  | Raise e => h e
  end.

(** [max(a, b)] and [min(a, b)] of Python: the first argument is returned
    unless the second is strictly better. *)
Definition py_max (a b : Q) : Q :=
  match (a ?= b)%Q with Lt => b | _ => a end.

Definition py_min (a b : Q) : Q :=
  match (a ?= b)%Q with Gt => b | _ => a end.

(** [max(0, min(100, x))] *)
Definition clamp_0_100 (x : Q) : Q := py_max 0 (py_min 100 x).

Definition Qgeb (a b : Q) : bool := Qle_bool b a.
Definition Qltb (a b : Q) : bool := negb (Qle_bool b a).

(** [list.sort(key=..., reverse=True)]: a stable sort, equal keys keep their
    original order.  An element is inserted in front of the sorted rest and
    moves past the strictly larger keys only. *)
Section StableSort.
Context {A : Type} (key : A -> Q).

Fixpoint insert_desc (x : A) (l : list A) : list A :=
  match l with
  | [] => [x]
  | y :: r => if Qltb (key x) (key y) then y :: insert_desc x r else x :: y :: r
  end.

Fixpoint sort_desc (l : list A) : list A :=
  match l with
  | [] => []
  | x :: r => insert_desc x (sort_desc r)
  end.

(** Sorted from the largest key down. *)
Definition descending (l : list A) : Prop :=
  StronglySorted (fun a b => (key b <= key a)%Q) l.
End StableSort.

(** The HTML parser behind [BeautifulSoup(text, 'html.parser').get_text()]. *)
Class HtmlParser := { get_text : str -> str }.

(** ** app/services/text_processor_simple.py *)
Module TextProcessor.

Definition code (c : ascii) : nat := nat_of_ascii c.

Definition in_range (lo hi : nat) (c : ascii) : bool :=
  (lo <=? code c)%nat && (code c <=? hi)%nat.

Definition is_char (a c : ascii) : bool := Ascii.eqb a c.

(** [\s], and the characters [str.strip] removes. *)
Definition is_space (c : ascii) : bool :=
  in_range 9 13 c || in_range 28 32 c || (code c =? 133)%nat || (code c =? 160)%nat.

Definition is_ascii_upper (c : ascii) : bool := in_range 65 90 c.
Definition is_ascii_lower (c : ascii) : bool := in_range 97 122 c.
Definition is_digit (c : ascii) : bool := in_range 48 57 c.

(** [\w]: alphanumeric characters and the underscore. *)
Definition is_word (c : ascii) : bool :=
  is_ascii_upper c || is_ascii_lower c || is_digit c || (code c =? 95)%nat
  || (code c =? 170)%nat || (code c =? 178)%nat || (code c =? 179)%nat
  || (code c =? 181)%nat || (code c =? 185)%nat || (code c =? 186)%nat
  || in_range 188 190 c || in_range 192 214 c || in_range 216 246 c
  || in_range 248 255 c.

(** [str.lower] on one character. *)
Definition lower_char (c : ascii) : ascii :=
  if is_ascii_upper c || (in_range 192 222 c && negb (code c =? 215)%nat)
  then ascii_of_nat (code c + 32) else c.

Definition lower (s : str) : str := map lower_char s.

Fixpoint drop_while (p : ascii -> bool) (s : str) : str :=
  match s with
  | [] => []
  | c :: r => if p c then drop_while p r else s
  end.

Fixpoint take_while (p : ascii -> bool) (s : str) : str :=
  match s with
  | [] => []
  | c :: r => if p c then c :: take_while p r else []
  end.

(** [str.strip]: the leading and the trailing whitespace is dropped. *)
Definition lstrip (s : str) : str := drop_while is_space s.

Fixpoint rstrip (s : str) : str :=
  match s with
  | [] => []
  | c :: r =>
    match rstrip r with
    | [] => if is_space c then [] else [c]
    | r' => c :: r'
    end
  end.

Definition strip (s : str) : str := rstrip (lstrip s).

(** Truth value of a string: [not text] holds of the empty string only. *)
Definition is_empty (s : str) : bool :=
  match s with [] => true | _ => false end.

Fixpoint starts_with (p s : str) : bool :=
  match p, s with
  | [], _ => true
  | a :: p', b :: s' => Ascii.eqb a b && starts_with p' s'
  | _ :: _, [] => false
  end.

(** [needle in hay] *)
Fixpoint contains (needle hay : str) : bool :=
  starts_with needle hay
  || match hay with
     | [] => false
     | _ :: r => contains needle r
     end.

(** [re.sub(pattern, '', text)] for a pattern that matches no empty
    string: [m s] is the length of the match of the pattern at the head of
    [s], when there is one.  The scan is from the left, and continues after
    the end of a match. *)
Fixpoint remove_matches (m : str -> option nat) (skip : nat) (s : str) : str :=
  match s with
  | [] => []
  | c :: r =>
    match skip with
    | S k => remove_matches m k r
    | O =>
      match m s with
      | Some (S n) => remove_matches m n r
      | _ => c :: remove_matches m O r
      end
    end
  end.

(** The repeated group of the URL pattern,
    [(?:[a-zA-Z]|[0-9]|[$-_@.&+]|[!*\\(\\),]|(?:%[0-9a-fA-F][0-9a-fA-F]))+].
    The class [[$-_@.&+]] holds the range from [$] (36) to [_] (95), which
    covers every alternative but the lower-case letters and [!] (33). *)
Definition is_url_char (c : ascii) : bool :=
  is_ascii_lower c || is_ascii_upper c || is_digit c
  || in_range 36 95 c || is_char "@" c || is_char "." c || is_char "&" c
  || is_char "+" c
  || is_char "!" c || is_char "*" c || is_char "\" c || is_char "(" c
  || is_char ")" c || is_char "," c.

(** [http[s]?://] at the head of [s]: the length of the prefix matched and
    what follows it. *)
Definition match_scheme (s : str) : option (nat * str) :=
  if starts_with (lit "https://") s then Some (8, skipn 8 s)
  else if starts_with (lit "http://") s then Some (7, skipn 7 s)
  else None.

(** [http[s]?://(?:...)+] at the head of [s]. *)
Definition match_url (s : str) : option nat :=
  match match_scheme s with
  | Some (n, rest) =>
    match take_while is_url_char rest with
    | [] => None
    | body => Some (n + length body)
    end
  | None => None
  end.

(** An [@] that is followed by at least one more character. *)
Fixpoint at_sign_inside (s : str) : bool :=
  match s with
  | c :: (_ :: _) as r => is_char "@" c || at_sign_inside r
  | _ => false
  end.

(** [\S+@\S+] at the head of [s]: both [\S+] are greedy, so a match runs to
    the end of the run of non-space characters, and there is one when the
    run has an [@] strictly inside. *)
Definition match_email (s : str) : option nat :=
  match take_while (fun c => negb (is_space c)) s with
  | (_ :: r) as run => if at_sign_inside r then Some (length run) else None
  | [] => None
  end.

(** [re.sub(r'\s+', ' ', text)] *)
Fixpoint collapse_spaces (in_run : bool) (s : str) : str :=
  match s with
  | [] => []
  | c :: r =>
    if is_space c
    then if in_run then collapse_spaces true r
         else " "%char :: collapse_spaces true r
    else c :: collapse_spaces false r
  end.

Definition is_sentence_punct (c : ascii) : bool :=
  is_char "." c || is_char "!" c || is_char "?" c || is_char "," c
  || is_char ";" c || is_char ":" c.

(** [re.sub(r'[^\w\s\.\!\?\,\;\:]', ' ', text)] *)
Definition keep_clean (c : ascii) : bool :=
  is_word c || is_space c || is_sentence_punct c.

(** [re.sub(r'[^\w\s\.\!\?\,\;\:\-\']', ' ', text)] *)
Definition keep_embedding (c : ascii) : bool :=
  keep_clean c || is_char "-" c || is_char "'" c.

Definition blank_unless (keep : ascii -> bool) (s : str) : str :=
  map (fun c => if keep c then c else " "%char) s.

Definition is_terminator (c : ascii) : bool :=
  is_char "." c || is_char "!" c || is_char "?" c.

(** [re.split(pattern, text)] for a pattern [[...]+] over a character
    class: the pieces between the maximal runs of separators, the empty
    pieces at both ends included. *)
Fixpoint re_split (sep : ascii -> bool) (in_run : bool) (s : str) : list str :=
  match s with
  | [] => [[]]
  | c :: r =>
    if sep c
    then if in_run then re_split sep true r else [] :: re_split sep true r
    else match re_split sep false r with
         | p :: ps => (c :: p) :: ps
         | [] => [[c]]
         end
  end.

(** [re.findall(r'\w+', text)]: the maximal runs of word characters. *)
Fixpoint find_words (cur : str) (s : str) : list str :=
  match s with
  | [] => match cur with [] => [] | _ => [rev cur] end
  | c :: r =>
    if is_word c then find_words (c :: cur) r
    else match cur with
         | [] => find_words [] r
         | _ => rev cur :: find_words [] r
         end
  end.

Definition str_eqb (a b : str) : bool :=
  if List.list_eq_dec Ascii.ascii_dec a b then true else false.

Definition stop_words : list str :=
  map lit
    ["i"; "me"; "my"; "myself"; "we"; "our"; "ours"; "ourselves"; "you";
     "your"; "yours"; "yourself"; "yourselves"; "he"; "him"; "his"; "himself";
     "she"; "her"; "hers"; "herself"; "it"; "its"; "itself"; "they"; "them";
     "their"; "theirs"; "themselves"; "what"; "which"; "who"; "whom"; "this";
     "that"; "these"; "those"; "am"; "is"; "are"; "was"; "were"; "be"; "been";
     "being"; "have"; "has"; "had"; "having"; "do"; "does"; "did"; "doing";
     "a"; "an"; "the"; "and"; "but"; "if"; "or"; "because"; "as"; "until";
     "while"; "of"; "at"; "by"; "for"; "with"; "through"; "during"; "before";
     "after"; "above"; "below"; "up"; "down"; "in"; "out"; "on"; "off"; "over";
     "under"; "again"; "further"; "then"; "once"]%string.

Definition in_list (x : str) (l : list str) : bool := existsb (str_eqb x) l.

(** [Counter(tokens)]: the counts, in the order of first occurrence. *)
Fixpoint count_up (x : str) (cs : list (str * nat)) : list (str * nat) :=
  match cs with
  | [] => [(x, 1%nat)]
  | (y, n) :: r => if str_eqb x y then (y, S n) :: r else (y, n) :: count_up x r
  end.

Definition counter (tokens : list str) : list (str * nat) :=
  fold_left (fun cs t => count_up t cs) tokens [].

(** [Counter.most_common(n)]: by count, largest first, ties in the order
    of first occurrence. *)
Definition most_common (n : nat) (cs : list (str * nat)) : list (str * nat) :=
  firstn n (sort_desc (fun p => inject_Z (Z.of_nat (snd p))) cs).

Section WithParser.
Context `{HtmlParser}.

Definition clean_html (text : str) : str :=
  if is_empty text then []
  else
    let text := get_text text in
    strip (collapse_spaces false text).

Definition clean_text (text : str) : str :=
  if is_empty text then []
  else
    let text := clean_html text in
    let text := lower text in
    let text := remove_matches match_url 0 text in
    let text := remove_matches match_email 0 text in
    let text := blank_unless keep_clean text in
    let text := collapse_spaces false text in
    strip text.

Definition extract_sentences (text : str) : list str :=
  if is_empty text then []
  else
    let sentences := re_split is_terminator false text in
    map strip
      (filter (fun s => negb (is_empty (strip s))
                        && (10 <? length (strip s))%nat) sentences).

Definition tokenize (text : str) (remove_stopwords : bool) : list str :=
  if is_empty text then []
  else
    let tokens := find_words [] (lower text) in
    let tokens :=
      if remove_stopwords
      then filter (fun t => negb (in_list t stop_words)) tokens
      else tokens in
    filter (fun t => (2 <? length t)%nat) tokens.

Definition extract_keywords (text : str) (max_keywords : nat) : list str :=
  if is_empty text then []
  else
    let clean := clean_text text in
    let tokens := tokenize clean true in
    let token_freq := counter tokens in
    map fst (most_common max_keywords token_freq).

Definition join_spaces (l : list str) : str :=
  match l with
  | [] => []
  | x :: r => x ++ flat_map (fun y => " "%char :: y) r
  end.

Definition preprocess_for_embedding (text : str) : str :=
  if is_empty text then []
  else
    let text := clean_html text in
    let text := remove_matches match_url 0 text in
    let text := remove_matches match_email 0 text in
    let text := blank_unless keep_embedding text in
    let text := collapse_spaces false text in
    let text :=
      if (1000 <? length text)%nat
      then join_spaces (firstn 3 (extract_sentences text))
      else text in
    strip text.

(** [re.search(r'[A-Z]{3,}', text)] *)
Fixpoint has_caps_run (s : str) : bool :=
  match s with
  | a :: (b :: c :: _) as r =>
    (is_ascii_upper a && is_ascii_upper b && is_ascii_upper c) || has_caps_run r
  | _ => false
  end.

Record features := {
  original_text : str;
  f_clean_text : str;
  sentences : list str;
  keywords : list str;
  word_count : nat;
  sentence_count : nat;
  has_urls : bool;
  has_numbers : bool;
  has_caps : bool;
  preprocessed_for_embedding : str
}.

Fixpoint any_suffix (p : str -> bool) (s : str) : bool :=
  p s || match s with [] => false | _ :: r => any_suffix p r end.

Definition extract_claim_features (text : str) : features :=
  {| original_text := text;
     f_clean_text := clean_text text;
     sentences := extract_sentences text;
     keywords := extract_keywords text 10;
     word_count := length (tokenize text false);
     sentence_count := length (extract_sentences text);
     has_urls := any_suffix (fun s => match match_scheme s with
                                      | Some _ => true | None => false end) text;
     has_numbers := existsb is_digit text;
     has_caps := has_caps_run text;
     preprocessed_for_embedding := preprocess_for_embedding text |}.
End WithParser.

End TextProcessor.

(** ** app/services/classification_service.py *)
Module ClassificationService.
Import TextProcessor.
Local Open Scope Q_scope.

(** The four classification strings. *)
Inductive label := L_True | L_False | L_Misleading | L_Unverified.

Definition label_eqb (a b : label) : bool :=
  match a, b with
  | L_True, L_True | L_False, L_False
  | L_Misleading, L_Misleading | L_Unverified, L_Unverified => true
  | _, _ => false
  end.

(** A string assembled by an f-string: literal pieces and floats printed
    with [:.1f] or [:+.1f]. *)
Inductive piece :=
| Txt (s : string)
| Float1 (q : Q)
| SignedFloat1 (q : Q).

Definition text := list piece.

(** ["; ".join(parts)] *)
Fixpoint join_parts (parts : list text) : text :=
  match parts with
  | [] => []
  | [p] => p
  | p :: r => p ++ Txt "; " :: join_parts r
  end.

(** The values held by the result dictionaries. *)
Inductive pyval :=
| VLabel (l : label)
| VFloat (q : Q)
| VText (t : text).

(** [d[k]] *)
Definition getitem (d : gmap string pyval) (k : string) : res pyval :=
  match d !! k with
  | Some v => Ok v
  | None => Raise (KeyError k)
  end.

Definition as_float (v : pyval) : res Q :=
  match v with
  | VFloat q => Ok q
  | _ => Raise (ValueError "Unknown format code 'f'")
  end.

Definition as_label (v : pyval) : res label :=
  match v with
  | VLabel l => Ok l
  | _ => Raise (Exception "classification is not a label")
  end.

Definition as_text (v : pyval) : res text :=
  match v with
  | VText t => Ok t
  | _ => Raise (Exception "reasoning is not a string")
  end.

(** The dictionary returned to the caller. *)
Definition result_dict (c : label) (score confidence : Q) (reasoning : text)
  : gmap string pyval :=
  <["classification" := VLabel c]>
    (<["reliability_score" := VFloat score]>
      (<["confidence" := VFloat confidence]>
        (<["reasoning" := VText reasoning]> ∅))).

(** What the pipeline of the sentiment model gives for a text:
    [self.classifier(text)[0]], a dictionary with a label and a score. *)
Record sentiment := { s_label : string; s_score : Q }.

(** The service: [self.classifier] is [None] when the model could not be
    loaded. *)
Record service := { classifier : option (str -> res sentiment) }.

Definition scientific_words : list str :=
  map lit ["study"; "research"; "clinical trial"; "scientific"; "evidence";
           "data"; "according to"; "published"; "peer-reviewed"; "journal"]%string.
Definition authority_words : list str :=
  map lit ["cdc"; "who"; "fda"; "nasa"; "government"; "official"; "university";
           "medical center"; "hospital"; "institute"]%string.
Definition uncertainty_words : list str :=
  map lit ["maybe"; "possibly"; "might"; "could"; "allegedly"; "reportedly";
           "supposedly"; "rumor"; "unconfirmed"]%string.
Definition absolute_words : list str :=
  map lit ["always"; "never"; "all"; "every"; "none"; "completely"; "totally";
           "absolutely"; "definitely"; "guaranteed"]%string.
Definition sensational_words : list str :=
  map lit ["shocking"; "unbelievable"; "amazing"; "incredible"; "secret";
           "exposed"; "conspiracy"; "cover-up"; "scandal"; "breaking"]%string.
Definition emotional_words : list str :=
  map lit ["fear"; "panic"; "terrifying"; "horrifying"; "outrageous";
           "disgusting"; "shameful"]%string.
Definition factual_indicators : list str :=
  map lit ["percent"; "%"; "million"; "billion"; "study shows";
           "research indicates"; "data shows"]%string.
Definition source_indicators : list str :=
  map lit ["study"; "research"; "according to"; "expert"; "official";
           "government"; "university"; "journal"; "published"]%string.
Definition recent_years : list str := map lit ["2023"; "2024"; "2025"]%string.
Definition statistic_markers : list str :=
  map lit ["%"; "$"; "million"; "billion"; "thousand"]%string.

(** [any(w in s for w in words)] *)
Definition any_in (words : list str) (s : str) : bool :=
  existsb (fun w => contains w s) words.

(** One round of the loop of [_analyze_evidence_quality]. *)
Definition snippet_step (quality_score : Q) (snippet : str) : Q :=
  let quality_score :=
    if (100 <? length snippet)%nat then quality_score + 5 else quality_score in
  let quality_score :=
    if any_in source_indicators (lower snippet) then quality_score + 8
    else quality_score in
  let quality_score :=
    if any_in recent_years snippet then quality_score + 3 else quality_score in
  let quality_score :=
    if any_in statistic_markers snippet then quality_score + 4 else quality_score in
  quality_score.

Definition _analyze_evidence_quality (evidence_snippets : option (list str)) : Q :=
  match evidence_snippets with
  | None | Some [] => -20
  | Some snippets => py_min (fold_left snippet_step snippets 0) 25
  end.

(** [if evidence_snippets:] *)
Definition has_evidence (evidence_snippets : option (list str)) : bool :=
  match evidence_snippets with
  | None | Some [] => false
  | Some (_ :: _) => true
  end.

Section WithParser.
Context `{HtmlParser}.

(** One rule of the heuristic: when it fires, the score moves and a
    phrase is appended to the reasoning. *)
Definition fire (cond : bool) (delta : Q) (phrase : string)
           (st : Q * list text) : Q * list text :=
  if cond then (fst st + delta, snd st ++ [[Txt phrase]]) else st.

(** Lines 105-169: the score before clamping, and the reasoning parts. *)
Definition heuristic_score (claim : str) (evidence_snippets : option (list str))
  : Q * list text :=
  let st := (50, []) in
  let features := extract_claim_features claim in
  let st := fire (has_caps features) (-10) "Contains excessive capitalization" st in
  let st := fire ((length (sentences features) =? 1)%nat
                  && (word_count features <? 5)%nat)
                 (-15) "Very short claim with limited context" st in
  let st := fire (any_in scientific_words (lower claim))
                 15 "Contains scientific language" st in
  let st := fire (any_in authority_words (lower claim))
                 10 "References authoritative sources" st in
  let st := fire (any_in uncertainty_words (lower claim))
                 (-3) "Contains uncertainty language" st in
  let st := fire (any_in absolute_words (lower claim))
                 (-5) "Contains absolute statements" st in
  let st := fire (any_in sensational_words (lower claim))
                 (-15) "Contains sensational language" st in
  let st := fire (any_in emotional_words (lower claim))
                 (-8) "Contains emotional manipulation" st in
  let st := fire (any_in factual_indicators (lower claim))
                 8 "Contains specific factual claims" st in
  if has_evidence evidence_snippets
  then
    let evidence_score := _analyze_evidence_quality evidence_snippets in
    (fst st + evidence_score,
     snd st ++ [[Txt "Evidence quality analysis: +"; Float1 evidence_score]])
  else (fst st - 20, snd st ++ [[Txt "No supporting evidence found"]]).

(** Lines 181-185: the dictionary of the heuristic analysis. *)
Definition heuristic_dict (classification : label) (score : Q) (reasoning : text)
  : gmap string pyval :=
  <["classification" := VLabel classification]>
    (<["score" := VFloat score]>
      (<["reasoning" := VText reasoning]> ∅)).

(** Lines 171-179. *)
Definition classification_of (score : Q) : label :=
  if Qgeb score 70 then L_True
  else if Qgeb score 40 then L_Unverified
  else if Qgeb score 20 then L_Misleading
  else L_False.

Definition _analyze_claim_heuristics
           (claim : str) (evidence_snippets : option (list str))
  : gmap string pyval :=
  let '(score, reasoning_parts) := heuristic_score claim evidence_snippets in
  let classification := classification_of score in
  heuristic_dict classification (clamp_0_100 score)
    (match reasoning_parts with
     | [] => [Txt "Standard analysis applied"]
     | _ => join_parts reasoning_parts
     end).

(** Lines 224-229. *)
Definition sentiment_adjustment (sentiment_label : string) (sentiment_score : Q) : Q :=
  if String.eqb sentiment_label "LABEL_0" then -5 * sentiment_score
  else if String.eqb sentiment_label "LABEL_2" then 2 * sentiment_score
  else 0.

(** Lines 234-241. *)
Definition reclassify (final_score : Q) (classification : label) : label :=
  if Qgeb final_score 70 && negb (label_eqb classification L_True)
  then L_True
  else if Qltb final_score 20 && negb (label_eqb classification L_False)
  then L_False
  else if Qgeb final_score 20 && Qltb final_score 40
          && negb (label_eqb classification L_Misleading
                   || label_eqb classification L_False)
  then L_Misleading
  else if Qgeb final_score 40 && Qltb final_score 70
          && negb (label_eqb classification L_Unverified
                   || label_eqb classification L_True)
  then L_Unverified
  else classification.

Definition _combine_analysis_results
           (heuristic_result : gmap string pyval) (sentiment_result : sentiment)
  : res (gmap string pyval) :=
  let* base_score := bind (getitem heuristic_result "score") as_float in
  let* classification := bind (getitem heuristic_result "classification") as_label in
  let sentiment_label := s_label sentiment_result in
  let sentiment_score := s_score sentiment_result in
  let adjustment := sentiment_adjustment sentiment_label sentiment_score in
  let final_score := clamp_0_100 (base_score + adjustment) in
  let classification := reclassify final_score classification in
  let* reasoning := bind (getitem heuristic_result "reasoning") as_text in
  let reasoning :=
    if Qeq_bool adjustment 0 then reasoning
    else reasoning ++ [Txt "; Sentiment analysis adjustment: ";
                       SignedFloat1 adjustment] in
  Ok (result_dict classification final_score
                  (py_min (sentiment_score * 100) 95) reasoning).

(** The body of the [try] of [classify_claim], lines 59-89.  The log line
    before the [return] reads two keys of the final dictionary. *)
Definition classify_claim_body
           (self : service) (claim_text : str) (evidence_snippets : option (list str))
  : res (gmap string pyval) :=
  let processed_claim := preprocess_for_embedding claim_text in
  if is_empty (strip processed_claim)
  then Ok (result_dict L_Unverified 0 0 [Txt "Empty or invalid claim text"])
  else
    let classification_result :=
      _analyze_claim_heuristics processed_claim evidence_snippets in
    let final_result :=
      match classifier self with
      | Some model =>
        try_except
          (let* sentiment_result := model processed_claim in
           _combine_analysis_results classification_result sentiment_result)
          (fun _ => classification_result)
      | None => classification_result
      end in
    let* _ := getitem final_result "classification" in
    let* _ := bind (getitem final_result "reliability_score") as_float in
    Ok final_result.

Definition classify_claim
           (self : service) (claim_text : str) (evidence_snippets : option (list str))
  : gmap string pyval :=
  try_except (classify_claim_body self claim_text evidence_snippets)
    (fun e => result_dict L_Unverified 0 0
                [Txt "Classification error: "; Txt (str_of_exn e)]).
End WithParser.

End ClassificationService.

(** ** app/models/database.py *)
Module Database.

Record FactSource := {
  id : Z;
  title : str;
  content : str;
  source_name : str;
  source_url : str
}.

(** The session, as the retrieval uses it: [db.query(FactSource).all()]
    gives the rows of the table, or raises. *)
Record Session := { query_fact_sources : res (list FactSource) }.

End Database.

(** ** app/services/embedding_service.py *)
Module EmbeddingService.
Import TextProcessor.

Definition embedding := list Q.

(** [self.model] is [None] when the model could not be loaded; [encode]
    may raise. *)
Record service := { model : option (str -> res embedding) }.

Section WithParser.
Context `{HtmlParser}.

Definition generate_embedding (self : service) (text : str) : res embedding :=
  match model self with
  | None => Raise (Exception "Embedding model not loaded")
  | Some encode =>
    if is_empty text || is_empty (strip text)
    then Raise (ValueError "Text cannot be empty")
    else
      let processed_text := preprocess_for_embedding text in
      encode processed_text
  end.
End WithParser.

End EmbeddingService.

(** ** app/services/database_service.py *)
Module DatabaseService.
Import EmbeddingService.

(** A point the vector index returns: identifier, similarity, payload. *)
Record hit := {
  hit_id : Z;
  hit_score : Q;
  hit_payload : gmap string str
}.

(** [self.qdrant_client] is [None] when the index could not be reached;
    [search], with the collection and the threshold of the settings, may
    raise. *)
Record service := { qdrant_client : option (embedding -> nat -> res (list hit)) }.

Definition search_similar_embeddings
           (self : service) (query_embedding : embedding) (limit : nat)
  : res (list hit) :=
  match qdrant_client self with
  | None => Raise (Exception "Qdrant client not initialized")
  | Some search =>
    let* search_result := search query_embedding limit in
    Ok (map (fun h => {| hit_id := hit_id h; hit_score := hit_score h;
                         hit_payload := hit_payload h |}) search_result)
  end.

End DatabaseService.

(** ** app/services/retrieval_service.py *)
Module RetrievalService.
Import TextProcessor Database DatabaseService.
Local Open Scope Q_scope.

Inductive match_kind := Vector | Keyword | Hybrid.

(** An entry of the list [_keyword_search] returns. *)
Record keyword_match := {
  km_id : Z;
  km_score : Q;
  km_source : FactSource
}.

(** An entry of [unified_results]: the keys ["payload"] and ["source"] are
    present for the entries the vector channel and the keyword channel
    created. *)
Record unified := {
  u_id : Z;
  u_vector_score : Q;
  u_keyword_score : Q;
  u_payload : option (gmap string str);
  u_source : option FactSource;
  u_match_type : match_kind
}.

(** An entry of the list [_combine_and_rerank] returns. *)
Record evidence := {
  e_source_id : Z;
  hybrid_score : Q;
  vector_score : Q;
  keyword_score : Q;
  match_type : match_kind;
  e_title : str;
  e_content : str;
  e_source_name : str;
  e_source_url : str
}.

(** A [dict] keeps its keys in the order of their first insertion. *)
Definition odict := list (Z * unified).

Fixpoint od_mem (k : Z) (d : odict) : bool :=
  match d with
  | [] => false
  | (k', _) :: r => (k =? k')%Z || od_mem k r
  end.

(** [d[k] = v] *)
Fixpoint od_set (k : Z) (v : unified) (d : odict) : odict :=
  match d with
  | [] => [(k, v)]
  | (k', v') :: r => if (k =? k')%Z then (k', v) :: r else (k', v') :: od_set k v r
  end.

(** [d[k][...] = ...] on a key that is present. *)
Fixpoint od_update (k : Z) (f : unified -> unified) (d : odict) : odict :=
  match d with
  | [] => []
  | (k', v') :: r => if (k =? k')%Z then (k', f v') :: r else (k', v') :: od_update k f r
  end.

(** [d.get(k, default)] on a payload. *)
Definition payload_get (payload : gmap string str) (k : string) (default : str) : str :=
  match payload !! k with
  | Some v => v
  | None => default
  end.

Definition add_vector_result (unified_results : odict) (result : hit) : odict :=
  let source_id := hit_id result in
  od_set source_id
    {| u_id := source_id;
       u_vector_score := hit_score result;
       u_keyword_score := 0;
       u_payload := Some (hit_payload result);
       u_source := None;
       u_match_type := Vector |} unified_results.

Definition add_keyword_result (unified_results : odict) (result : keyword_match) : odict :=
  let source_id := km_id result in
  if od_mem source_id unified_results
  then
    od_update source_id
      (fun u => {| u_id := u_id u;
                   u_vector_score := u_vector_score u;
                   u_keyword_score := km_score result;
                   u_payload := u_payload u;
                   u_source := u_source u;
                   u_match_type := Hybrid |}) unified_results
  else
    od_set source_id
      {| u_id := source_id;
         u_vector_score := 0;
         u_keyword_score := km_score result;
         u_payload := None;
         u_source := Some (km_source result);
         u_match_type := Keyword |} unified_results.

Definition format_result (entry : Z * unified) : evidence :=
  let '(source_id, result) := entry in
  let hybrid_score :=
    (7 # 10) * u_vector_score result + (3 # 10) * u_keyword_score result in
  let '(title, content, source_name, source_url) :=
    match u_source result with
    | Some source =>
      (Database.title source, Database.content source,
       Database.source_name source, Database.source_url source)
    | None =>
      let payload := match u_payload result with Some p => p | None => ∅ end in
      (payload_get payload "title" (lit "Unknown"),
       payload_get payload "content" [],
       payload_get payload "source_name" (lit "Unknown"),
       payload_get payload "source_url" [])
    end in
  {| e_source_id := source_id;
     hybrid_score := hybrid_score;
     vector_score := u_vector_score result;
     keyword_score := u_keyword_score result;
     match_type := u_match_type result;
     e_title := title;
     e_content := content;
     e_source_name := source_name;
     e_source_url := source_url |}.

Definition _combine_and_rerank
           (claim : str) (vector_results : list hit)
           (keyword_results : list keyword_match) (max_results : nat)
  : list evidence :=
  let unified_results := fold_left add_vector_result vector_results [] in
  let unified_results := fold_left add_keyword_result keyword_results unified_results in
  let final_results := map format_result unified_results in
  let final_results := sort_desc hybrid_score final_results in
  firstn max_results final_results.

(** [sum(1 for keyword in keywords if keyword.lower() in text)] *)
Definition count_matches (keywords : list str) (text : str) : nat :=
  length (filter (fun keyword => contains (lower keyword) text) keywords).

(** [snippet_text[:n] + "..."] when the sentence is longer than [n]. *)
Definition truncate (max_snippet_length : nat) (snippet_text : str) : str :=
  if (max_snippet_length <? length snippet_text)%nat
  then firstn max_snippet_length snippet_text ++ lit "..."
  else snippet_text.

Section WithParser.
Context `{HtmlParser}.

Definition _keyword_search (claim : str) (db : Session) (limit : nat)
  : list keyword_match :=
  try_except
    (let keywords := extract_keywords claim 5 in
     match keywords with
     | [] => Ok []
     | _ =>
       let* fact_sources := query_fact_sources db in
       let keyword_matches :=
         flat_map
           (fun source =>
              let source_text :=
                lower (Database.title source ++ lit " " ++ Database.content source) in
              let keyword_score := count_matches keywords source_text in
              if (0 <? keyword_score)%nat
              then [{| km_id := Database.id source;
                       km_score := inject_Z (Z.of_nat keyword_score)
                                   / inject_Z (Z.of_nat (length keywords));
                       km_source := source |}]
              else [])
           fact_sources in
       let keyword_matches := sort_desc km_score keyword_matches in
       Ok (firstn limit keyword_matches)
     end)
    (fun _ => []).

Definition retrieve_evidence
           (embedding_service : EmbeddingService.service)
           (db_service : DatabaseService.service)
           (claim : str) (db : Session) (max_results : nat)
  : list evidence :=
  try_except
    (let* claim_embedding :=
       EmbeddingService.generate_embedding embedding_service claim in
     let* vector_results :=
       search_similar_embeddings db_service claim_embedding (max_results * 2) in
     let keyword_results := _keyword_search claim db (max_results * 2) in
     let combined_results :=
       _combine_and_rerank claim vector_results keyword_results max_results in
     Ok combined_results)
    (fun _ => []).

(** The sentences of a source that contain a keyword of the claim, each
    with its number of keywords. *)
Definition relevant_sentences (claim_keywords : list str) (content : str)
  : list (str * nat) :=
  flat_map
    (fun sentence =>
       let sentence_lower := lower sentence in
       let keyword_matches := count_matches claim_keywords sentence_lower in
       if (0 <? keyword_matches)%nat then [(sentence, keyword_matches)] else [])
    (extract_sentences content).

(** One round of the loop of [extract_evidence_snippets]. *)
Definition add_snippet (claim_keywords : list str) (max_snippet_length : nat)
           (evidence_snippets : list str) (source : evidence) : list str :=
  let content := e_content source in
  if is_empty content then evidence_snippets
  else
    let relevant := relevant_sentences claim_keywords content in
    let relevant := sort_desc (fun x => inject_Z (Z.of_nat (snd x))) relevant in
    match relevant with
    | (snippet_text, _) :: _ =>
      evidence_snippets ++ [truncate max_snippet_length snippet_text]
    | [] => evidence_snippets
    end.

Definition extract_evidence_snippets
           (claim : str) (retrieved_sources : list evidence)
           (max_snippet_length : nat) : list str :=
  let claim_keywords := extract_keywords claim 3 in
  fold_left (add_snippet claim_keywords max_snippet_length) retrieved_sources [].
End WithParser.

End RetrievalService.

(** ** app/services/analysis_service.py *)
Module AnalysisService.
Import TextProcessor ClassificationService RetrievalService.

(** An entry of ["evidence_sources"], lines 137-142. *)
Record source_summary := {
  ss_title : str;
  ss_source_name : str;
  ss_source_url : str;
  ss_relevance_score : Q
}.

(** The values held by the dictionaries of the analysis. *)
Inductive aval :=
| ANone
| AInt (z : Z)
| AStr (s : str)
| AStrs (l : list str)
| APy (v : pyval)
| ASources (l : list source_summary).

(** The [details] of a processing log entry. *)
Inductive details :=
| DResult (result : gmap string aval)
| DError (error_msg : text).

Definition of_option_str (o : option str) : aval :=
  match o with Some s => AStr s | None => ANone end.

Definition of_option_id (o : option Z) : aval :=
  match o with Some z => AInt z | None => ANone end.

(** The row [db_service.store_claim] returns. *)
Record claim_record := { cr_id : Z; cr_created_at : str }.

Section Collaborators.
Context `{HtmlParser}.

(** The relational store, the vector index and the clock. *)
Variable World : Type.

Variable embedding_service : EmbeddingService.service.
Variable classification_service : ClassificationService.service.

(** [time.time()], in milliseconds. *)
Variable tick : World -> World * Z.

(** [db_service.store_claim(db, claim_text, source_url)] *)
Variable store_claim : World -> str -> option str -> World * res claim_record.

(** [db_service.store_embedding(claim_id, embedding, metadata)] *)
Variable store_embedding :
  World -> Z -> EmbeddingService.embedding -> gmap string aval -> World * res unit.

(** The vector index and the table of sources, as the retrieval reads
    them. *)
Variable db_service : World -> DatabaseService.service.
Variable session : World -> Database.Session.

(** [db_service.update_claim_results(db, claim_id, classification,
    reliability_score, evidence)] *)
Variable update_claim_results :
  World -> Z -> pyval -> pyval -> list str -> World * res unit.

(** [self._log_processing(db, claim_id, operation, status, details,
    processing_time_ms)]: its body is one [try] that swallows every
    exception. *)
Variable _log_processing :
  World -> Z -> string -> string -> details -> Z -> World.

(** The dictionary of the handler of [analyze_claim], lines 164-175. *)
Definition failed_result (claim_id : option Z) (claim_text : str)
           (error_msg : text) (source_url : option str) (processing_time : Z)
  : gmap string aval :=
  <["claim_id" := of_option_id claim_id]>
    (<["claim" := AStr claim_text]>
      (<["classification" := APy (VLabel L_Unverified)]>
        (<["reliability" := APy (VFloat 0)]>
          (<["confidence" := APy (VFloat 0)]>
            (<["evidence" := AStrs []]>
              (<["reasoning" := APy (VText error_msg)]>
                (<["source_url" := of_option_str source_url]>
                  (<["processing_time_ms" := AInt processing_time]>
                    (<["evidence_sources" := ASources []]> ∅))))))))).

(** Lines 154-175: the handler of the outer [try].  [claim_id] is the
    variable of the function at the time of the exception. *)
Definition on_failure (start_time : Z) (claim_id : option Z)
           (claim_text : str) (source_url : option str) (e : exn) (w : World)
  : World * gmap string aval :=
  let '(w, now) := tick w in
  let processing_time := (now - start_time)%Z in
  let error_msg := [Txt "Analysis failed: "; Txt (str_of_exn e)] in
  let w :=
    match claim_id with
    | Some id =>
      if (id =? 0)%Z then w
      else _log_processing w id "analysis_failed" "error"
             (DError error_msg) processing_time
    | None => w
    end in
  (w, failed_result claim_id claim_text error_msg source_url processing_time).

Definition summary_of (source : evidence) : source_summary :=
  {| ss_title := e_title source;
     ss_source_name := e_source_name source;
     ss_source_url := e_source_url source;
     ss_relevance_score := hybrid_score source |}.

(** Lines 126-145. *)
Definition success_result (claim_id : Z) (claim_text : str)
           (classification reliability confidence reasoning : pyval)
           (evidence_snippets : list str) (source_url : option str)
           (processing_time : Z) (evidence_sources : list evidence)
  : gmap string aval :=
  <["claim_id" := AInt claim_id]>
    (<["claim" := AStr claim_text]>
      (<["classification" := APy classification]>
        (<["reliability" := APy reliability]>
          (<["confidence" := APy confidence]>
            (<["evidence" := AStrs evidence_snippets]>
              (<["reasoning" := APy reasoning]>
                (<["source_url" := of_option_str source_url]>
                  (<["processing_time_ms" := AInt processing_time]>
                    (<["evidence_sources" :=
                         ASources (map summary_of evidence_sources)]> ∅))))))))).

(** [analyze_claim].  The functions of steps 2, 5, 6 and 7 return in all
    cases, so the handlers around them have no counterpart here. *)
Definition analyze_claim (claim_text : str) (source_url : option str) (w : World)
  : World * gmap string aval :=
  let '(w, start_time) := tick w in
  if is_empty claim_text || is_empty (strip claim_text)
  then on_failure start_time None claim_text source_url
         (ValueError "Claim text cannot be empty") w
  else
    (* Step 1 *)
    match store_claim w claim_text source_url with
    | (w, Raise e) =>
      on_failure start_time None claim_text source_url
        (Exception ("Database error: " ++ str_of_exn e)) w
    | (w, Ok record) =>
      let claim_id := cr_id record in
      (* Step 2 *)
      let features := extract_claim_features claim_text in
      (* Step 3 *)
      match EmbeddingService.generate_embedding embedding_service claim_text with
      | Raise e =>
        on_failure start_time (Some claim_id) claim_text source_url
          (Exception ("Embedding generation error: " ++ str_of_exn e)) w
      | Ok claim_embedding =>
        (* Step 4: a failure is logged and the analysis goes on *)
        let embedding_metadata : gmap string aval :=
          <["claim_id" := AInt claim_id]>
            (<["text" := AStr claim_text]>
              (<["source_url" := of_option_str source_url]>
                (<["word_count" := AInt (Z.of_nat (word_count features))]>
                  (<["created_at" := AStr (cr_created_at record)]> ∅)))) in
        let '(w, _) := store_embedding w claim_id claim_embedding embedding_metadata in
        (* Step 5 *)
        let evidence_sources :=
          retrieve_evidence embedding_service (db_service w) claim_text (session w) 5 in
        (* Step 6 *)
        let evidence_snippets :=
          extract_evidence_snippets claim_text evidence_sources 200 in
        (* Step 7 *)
        let classification_result :=
          classify_claim classification_service claim_text (Some evidence_snippets) in
        (* Step 8: a failure is logged and the analysis goes on *)
        let '(w, _) :=
          match (let* c := getitem classification_result "classification" in
                 let* r := getitem classification_result "reliability_score" in
                 Ok (c, r)) with
          | Ok (c, r) => update_claim_results w claim_id c r evidence_snippets
          | Raise e => (w, Raise e)
          end in
        (* Step 9 *)
        let '(w, now) := tick w in
        let processing_time := (now - start_time)%Z in
        match (let* c := getitem classification_result "classification" in
               let* r := getitem classification_result "reliability_score" in
               let* k := getitem classification_result "confidence" in
               let* t := getitem classification_result "reasoning" in
               Ok (success_result claim_id claim_text c r k t evidence_snippets
                     source_url processing_time evidence_sources)) with
        | Raise e =>
          on_failure start_time (Some claim_id) claim_text source_url e w
        | Ok result =>
          let w := _log_processing w claim_id "analysis_complete" "success"
                     (DResult result) processing_time in
          (w, result)
        end
      end
    end.

(** The dictionary a batch gives for a claim it does not analyse, lines
    191-198 and 208-215. *)
Definition skipped_result (claim_text : str) (reasoning : text)
           (source_url : option str) : gmap string aval :=
  <["claim" := AStr claim_text]>
    (<["classification" := APy (VLabel L_Unverified)]>
      (<["reliability" := APy (VFloat 0)]>
        (<["evidence" := AStrs []]>
          (<["reasoning" := APy (VText reasoning)]>
            (<["source_url" := of_option_str source_url]> ∅))))).

(** One round of the loop of [analyze_claims_batch]: the world after the
    claim, and the result appended for it. *)
Definition batch_step (claim_data : gmap string str) (w : World)
  : World * gmap string aval :=
  let claim_text := match claim_data !! "text" with Some t => t | None => [] end in
  let source_url := claim_data !! "source_url" in
  if is_empty (strip claim_text)
  then (w, skipped_result claim_text [Txt "Empty claim text"] source_url)
  else analyze_claim claim_text source_url w.

Definition analyze_claims_batch (claims : list (gmap string str)) (w : World)
  : World * list (gmap string aval) :=
  fold_left
    (fun '(w, results) claim_data =>
       let '(w, result) := batch_step claim_data w in
       (w, results ++ [result]))
    claims (w, []).

(** *** Vocabulary of the specification of batches *)

(** The text of a claim of a batch. *)
Definition claim_text_of (claim_data : gmap string str) : str :=
  match claim_data !! "text" with Some t => t | None => [] end.

(** A degraded result: Unverified, reliability 0, no evidence. *)
Definition degraded (result : gmap string aval) : Prop :=
  result !! "classification" = Some (APy (VLabel L_Unverified))
  /\ result !! "reliability" = Some (APy (VFloat 0))
  /\ result !! "evidence" = Some (AStrs []).

(** The analysis of a claim fails: its text is blank, the claim cannot be
    stored, or the embedding cannot be computed. *)
Definition analysis_fails (claim_data : gmap string str) (w : World) : Prop :=
  is_empty (strip (claim_text_of claim_data)) = true
  \/ (exists e, snd (store_claim (fst (tick w)) (claim_text_of claim_data)
                                 (claim_data !! "source_url")) = Raise e)
  \/ (exists e, EmbeddingService.generate_embedding embedding_service
                  (claim_text_of claim_data) = Raise e).

(** What storing a claim answers, the row apart: the exception, if any. *)
Definition store_outcome (stored : res claim_record) : option exn :=
  match stored with
  | Ok _ => None
  | Raise e => Some e
  end.

(** A result without the two entries that name the row of the claim and
    the time its analysis took. *)
Definition verdict (result : gmap string aval) : gmap string aval :=
  delete "claim_id" (delete "processing_time_ms" result).

(** The result of one claim of a batch met in the state [w], and the state
    [w'] it leaves.  The result names the claim and its URL.  A blank claim
    gets the degraded result and leaves the state as it is.  A claim that
    cannot be stored, or cannot be embedded, gets the degraded result.  Any
    other claim gets the verdict of the classifier on the snippets of the
    evidence retrieved for it, in the state in which its embedding has been
    stored. *)
Definition claim_outcome (w : World) (claim_data : gmap string str)
           (result : gmap string aval) (w' : World) : Prop :=
  let claim_text := claim_text_of claim_data in
  let source_url := claim_data !! "source_url" in
  result !! "claim" = Some (AStr claim_text)
  /\ result !! "source_url" = Some (of_option_str source_url)
  /\ if is_empty (strip claim_text)
     then w' = w /\ degraded result
          /\ result !! "reasoning" = Some (APy (VText [Txt "Empty claim text"]))
     else
       match store_claim (fst (tick w)) claim_text source_url with
       | (_, Raise _) => degraded result /\ result !! "claim_id" = Some ANone
       | (w1, Ok record) =>
         result !! "claim_id" = Some (AInt (cr_id record))
         /\ match EmbeddingService.generate_embedding embedding_service claim_text with
            | Raise _ => degraded result
            | Ok claim_embedding =>
              exists metadata l score confidence reasoning,
                let w2 := fst (store_embedding w1 (cr_id record) claim_embedding
                                               metadata) in
                let evidence_sources :=
                  retrieve_evidence embedding_service (db_service w2) claim_text
                                    (session w2) 5 in
                let evidence_snippets :=
                  extract_evidence_snippets claim_text evidence_sources 200 in
                classify_claim classification_service claim_text
                               (Some evidence_snippets)
                = result_dict l score confidence reasoning
                /\ result !! "classification" = Some (APy (VLabel l))
                /\ result !! "reliability" = Some (APy (VFloat score))
                /\ result !! "confidence" = Some (APy (VFloat confidence))
                /\ result !! "reasoning" = Some (APy (VText reasoning))
                /\ result !! "evidence" = Some (AStrs evidence_snippets)
                /\ result !! "evidence_sources"
                   = Some (ASources (map summary_of evidence_sources))
            end
       end.

(** What the stores answer to a claim does not depend on the state the
    claims before it have left: storing a claim succeeds or fails alike, and
    the vector index and the table of sources are read alike. *)
Definition stateless_stores : Prop :=
  (forall w w' claim_text source_url,
      store_outcome (snd (store_claim w claim_text source_url))
      = store_outcome (snd (store_claim w' claim_text source_url)))
  /\ (forall w w', db_service w = db_service w')
  /\ (forall w w', session w = session w').

(** A claim of a batch that is analysed: its text is not blank. *)
Definition analysed (claim_data : gmap string str) : bool :=
  negb (is_empty (strip (claim_text_of claim_data))).
End Collaborators.

End AnalysisService.

(** ** More of app/services/retrieval_service.py *)
Module SourceReliability.
Import TextProcessor.
Local Open Scope Q_scope.

(** The ratings of the known sources, in the order of the dictionary. *)
Definition reliability_ratings : list (str * Q) :=
  [(lit "snopes", 95 # 100);
   (lit "politifact", 90 # 100);
   (lit "factcheck.org", 88 # 100);
   (lit "reuters", 85 # 100);
   (lit "ap news", 85 # 100);
   (lit "bbc", 82 # 100);
   (lit "cnn", 75 # 100);
   (lit "fox news", 70 # 100);
   (lit "unknown", 50 # 100)].

(** [reliability_ratings[key]] *)
Fixpoint rating_of (key : str) (ratings : list (str * Q)) : res Q :=
  match ratings with
  | [] => Raise (KeyError (string_of_list_ascii key))
  | (k, r) :: rest => if str_eqb key k then Ok r else rating_of key rest
  end.

(** The loop of lines 218-220: the rating of the first known source the
    name contains. *)
Fixpoint first_known (source_lower : str) (ratings : list (str * Q)) : option Q :=
  match ratings with
  | [] => None
  | (known_source, rating) :: rest =>
    if contains known_source source_lower then Some rating
    else first_known source_lower rest
  end.

Definition get_source_reliability (source_name : str) : res Q :=
  let source_lower := lower source_name in
  match first_known source_lower reliability_ratings with
  | Some rating => Ok rating
  | None => rating_of (lit "unknown") reliability_ratings
  end.

End SourceReliability.

(** ** More of app/services/classification_service.py *)
Module ContextAnalysis.
Import TextProcessor ClassificationService.
Local Open Scope Q_scope.

(** The classification strings. *)
Definition label_str (l : label) : str :=
  match l with
  | L_True => lit "True"
  | L_False => lit "False"
  | L_Misleading => lit "Misleading"
  | L_Unverified => lit "Unverified"
  end.

Definition class_eqb (a b : option str) : bool :=
  match a, b with
  | Some x, Some y => str_eqb x y
  | None, None => true
  | _, _ => false
  end.

(** [xs.count(x)] *)
Definition count_of (x : option str) (xs : list (option str)) : nat :=
  length (List.filter (class_eqb x) xs).

(** [max(candidates, key=xs.count)]: the first of the candidates with the
    largest count; an empty iterable raises. *)
Fixpoint max_by_count (best : option str) (candidates xs : list (option str))
  : option str :=
  match candidates with
  | [] => best
  | c :: rest =>
    if (count_of best xs <? count_of c xs)%nat
    then max_by_count c rest xs
    else max_by_count best rest xs
  end.

(** [f"{n}"] for a length. *)
Definition decimal (n : nat) : string := NilEmpty.string_of_uint (Nat.to_uint n).

Section WithParser.
Context `{HtmlParser}.

(** The order in which [set(xs)] is iterated, which the language leaves
    open. *)
Variable set_order : list (option str) -> list (option str).

(** [similar_claims] is a list of dictionaries, of which the key
    ["classification"] is read with [get]. *)
Definition analyze_claim_with_context
           (self : service) (claim : str) (similar_claims : list (gmap string str))
  : res (gmap string pyval) :=
  let base_analysis := classify_claim self claim None in
  match similar_claims with
  | [] => Ok base_analysis
  | _ =>
    let similar_classifications :=
      map (fun c : gmap string str => c !! "classification") similar_claims in
    match set_order similar_classifications with
    | [] => Raise (ValueError "max() arg is an empty sequence")
    | first :: rest =>
      let most_common_class := max_by_count first rest similar_classifications in
      let* classification := bind (getitem base_analysis "classification") as_label in
      if class_eqb most_common_class (Some (label_str classification))
      then
        let* confidence := bind (getitem base_analysis "confidence") as_float in
        let base_analysis :=
          <["confidence" := VFloat (py_min (confidence + 10) 95)]> base_analysis in
        let* reasoning := bind (getitem base_analysis "reasoning") as_text in
        Ok (<["reasoning" :=
                VText (reasoning
                       ++ [Txt "; Consistent with ";
                           Txt (decimal (length similar_claims));
                           Txt " similar claims"])]> base_analysis)
      else Ok base_analysis
    end
  end.
End WithParser.

End ContextAnalysis.

(** ** More of app/services/embedding_service.py *)
Module EmbeddingBatch.
Import TextProcessor EmbeddingService.

(** [self.model.encode] on a list of texts: one embedding for each text,
    or an exception. *)
Record service := { model : option (list str -> res (list embedding)) }.

(** [enumerate(l)] *)
Fixpoint enumerate_from {A : Type} (i : nat) (l : list A) : list (nat * A) :=
  match l with
  | [] => []
  | x :: r => (i, x) :: enumerate_from (S i) r
  end.

(** The loop of lines 85-86: [result[i] = embedding] over
    [zip(valid_indices, embeddings)]. *)
Definition map_back (result : list embedding) (pairs : list (nat * embedding))
  : list embedding :=
  fold_left (fun result p => <[fst p := snd p]> result) pairs result.

Section WithParser.
Context `{HtmlParser}.

Definition generate_embeddings_batch (self : service) (texts : list str)
  : res (list embedding) :=
  match model self with
  | None => Raise (Exception "Embedding model not loaded")
  | Some encode =>
    match texts with
    | [] => Ok []
    | _ =>
      let processed_texts := map preprocess_for_embedding texts in
      let valid_texts :=
        List.filter (fun p : nat * str => negb (is_empty (strip (snd p))))
               (enumerate_from 0 processed_texts) in
      match valid_texts with
      | [] => Ok (map (fun _ => []) texts)
      | _ =>
        let valid_indices := map fst valid_texts in
        let valid_processed := map snd valid_texts in
        let* embeddings := encode valid_processed in
        match embeddings with
        | [] => Raise (Exception "index 0 is out of bounds")
        | _ =>
          let result := map (fun _ => []) texts in
          Ok (map_back result (combine valid_indices embeddings))
        end
      end
    end
  end.
End WithParser.

End EmbeddingBatch.

(** ** app/main.py: the summary of a batch, lines 140-153 *)
Module BatchSummary.
Import ClassificationService AnalysisService.
Local Open Scope Q_scope.

Record summary := {
  total_analyzed : nat;
  average_reliability : Q;
  count_true : nat;
  count_false : nat;
  count_misleading : nat;
  count_unverified : nat
}.

(** [r[k]] on a result of the analysis. *)
Definition result_get (r : gmap string aval) (k : string) : res aval :=
  match r !! k with
  | Some v => Ok v
  | None => Raise (KeyError k)
  end.

(** [[f(r) for r in results]] *)
Fixpoint for_each {A B : Type} (f : A -> res B) (l : list A) : res (list B) :=
  match l with
  | [] => Ok []
  | x :: r =>
    let* y := f x in
    let* ys := for_each f r in
    Ok (y :: ys)
  end.

Definition as_number (v : aval) : res Q :=
  match v with
  | APy (VFloat q) => Ok q
  | AInt z => Ok (inject_Z z)
  | _ => Raise (Exception "unsupported operand type(s) for +")
  end.

(** [classifications.count(label)]: the entries equal to the string. *)
Definition count_label (l : label) (classifications : list aval) : nat :=
  length (List.filter (fun v => match v with
                           | APy (VLabel l') => label_eqb l l'
                           | _ => false
                           end) classifications).

Section Summary.
(** [round(x, 2)] *)
Variable round2 : Q -> Q.

Definition batch_summary (results : list (gmap string aval)) : res summary :=
  let* classifications := for_each (fun r => result_get r "classification") results in
  let* reliabilities :=
    for_each (fun r => bind (result_get r "reliability") as_number) results in
  let avg_reliability :=
    match results with
    | [] => 0
    | _ => fold_left Qplus reliabilities 0 / inject_Z (Z.of_nat (length results))
    end in
  Ok {| total_analyzed := length results;
        average_reliability := round2 avg_reliability;
        count_true := count_label L_True classifications;
        count_false := count_label L_False classifications;
        count_misleading := count_label L_Misleading classifications;
        count_unverified := count_label L_Unverified classifications |}.
End Summary.

End BatchSummary.

(** * Vocabulary of the specification *)
Module TextSpec.
Import TextProcessor.

(** The characters of a cleaned text: word characters, the punctuation the
    cleaning keeps, and the space. *)
Definition is_plain_char (c : ascii) : bool :=
  is_word c || is_sentence_punct c || is_char " " c.

(** Single spaces only, and no other whitespace; [after_space] tells that
    the character before the text is a space. *)
Fixpoint single_spaced (after_space : bool) (s : str) : bool :=
  match s with
  | [] => true
  | c :: r =>
    if is_space c
    then is_char " " c && negb after_space && single_spaced true r
    else single_spaced false r
  end.

Definition starts_with_space (s : str) : bool :=
  match s with
  | c :: _ => is_space c
  | [] => false
  end.

Fixpoint ends_with_space (s : str) : bool :=
  match s with
  | [] => false
  | [c] => is_space c
  | _ :: r => ends_with_space r
  end.

(** A clean text: plain characters, words set apart by single spaces, no
    space at either end. *)
Definition is_clean_text (s : str) : bool :=
  forallb is_plain_char s && single_spaced false s
  && negb (starts_with_space s) && negb (ends_with_space s).

(** The parser finds no markup in a clean text and returns it as it is. *)
Definition parser_keeps_clean_text `{HtmlParser} : Prop :=
  forall s, is_clean_text s = true -> get_text s = s.
End TextSpec.

Module Spec.
Import ClassificationService.
Local Open Scope Q_scope.

(** The bands of the label mapping: at least 70, [40,70), [20,40), below
    20. *)
Inductive in_band (s : Q) : label -> Prop :=
| band_true : 70 <= s -> in_band s L_True
| band_unverified : 40 <= s -> s < 70 -> in_band s L_Unverified
| band_misleading : 20 <= s -> s < 40 -> in_band s L_Misleading
| band_false : s < 20 -> in_band s L_False.

(** The auxiliary signal, as the code reads the labels of the model:
    [LABEL_0] is negative, [LABEL_2] is positive, any other is neutral. *)
Inductive signal := Negative | Neutral | Positive.

Definition signal_of (sentiment_label : string) : signal :=
  if String.eqb sentiment_label "LABEL_0" then Negative
  else if String.eqb sentiment_label "LABEL_2" then Positive
  else Neutral.

(** -5 x confidence, +2 x confidence, 0. *)
Definition adjustment_of (sg : signal) (confidence : Q) : Q :=
  match sg with
  | Negative => -5 * confidence
  | Positive => 2 * confidence
  | Neutral => 0
  end.

(** The confidence of the auxiliary signal is a probability. *)
Definition classifier_in_unit (self : service) : Prop :=
  forall model processed sent,
    classifier self = Some model -> model processed = Ok sent ->
    0 <= s_score sent <= 1.

(** The auxiliary signal is not there for a text: the model was not loaded,
    or its call raises. *)
Definition sentiment_unavailable (self : service) (processed : str) : Prop :=
  classifier self = None
  \/ exists model e, classifier self = Some model /\ model processed = Raise e.

(** None of the nine lexical rules of the heuristic fires on a text. *)
Definition no_lexical_trigger (claim : str) : bool :=
  negb (TextProcessor.has_caps_run claim)
  && negb ((length (TextProcessor.extract_sentences claim) =? 1)%nat
           && (length (TextProcessor.tokenize claim false) <? 5)%nat)
  && negb (any_in scientific_words (TextProcessor.lower claim))
  && negb (any_in authority_words (TextProcessor.lower claim))
  && negb (any_in uncertainty_words (TextProcessor.lower claim))
  && negb (any_in absolute_words (TextProcessor.lower claim))
  && negb (any_in sensational_words (TextProcessor.lower claim))
  && negb (any_in emotional_words (TextProcessor.lower claim))
  && negb (any_in factual_indicators (TextProcessor.lower claim)).
End Spec.

Module RetrievalSpec.
Import TextProcessor RetrievalService.

(** The embedding provider is not there for a claim: the model was not
    loaded, or its call raises. *)
Definition embedding_unavailable `{HtmlParser}
           (embedding_service : EmbeddingService.service) (claim : str) : Prop :=
  EmbeddingService.model embedding_service = None
  \/ exists encode e,
      EmbeddingService.model embedding_service = Some encode
      /\ encode (preprocess_for_embedding claim) = Raise e.

(** The table of fact sources has no row. *)
Definition empty_table (db : Database.Session) : Prop :=
  Database.query_fact_sources db = Ok [].

(** The vector index returns no point, whatever the query. *)
Definition index_silent (db_service : DatabaseService.service) : Prop :=
  forall search query limit,
    DatabaseService.qdrant_client db_service = Some search ->
    search query limit = Ok [].

(** The number of keywords of the claim a sentence contains. *)
Definition overlap (claim_keywords : list str) (sentence : str) : nat :=
  count_matches claim_keywords (lower sentence).

(** The filter of the loop over the sentences, lines 175-181, over the
    sentences of a source. *)
Definition relevant_of (claim_keywords : list str) (sentences : list str)
  : list (str * nat) :=
  flat_map
    (fun sentence =>
       if (0 <? overlap claim_keywords sentence)%nat
       then [(sentence, overlap claim_keywords sentence)] else [])
    sentences.

(** The sentence with the highest overlap, the earliest one among
    equals. *)
Definition best_sentence (claim_keywords : list str) (sentences : list str) (s : str)
  : Prop :=
  exists pre post,
    sentences = pre ++ s :: post
    /\ (0 < overlap claim_keywords s)%nat
    /\ Forall (fun t => (overlap claim_keywords t < overlap claim_keywords s)%nat) pre
    /\ Forall (fun t => (overlap claim_keywords t <= overlap claim_keywords s)%nat) post.

(** The first [max_len] characters, with the ellipsis when something was cut
    off. *)
Definition is_truncation (max_len : nat) (s snippet : str) : Prop :=
  ((length s <= max_len)%nat /\ snippet = s)
  \/ ((max_len < length s)%nat /\ snippet = firstn max_len s ++ lit "...").

(** The snippets of a list of candidates, in the order of the candidates:
    none for a candidate without a sentence that contains a keyword, the
    truncated best sentence for any other. *)
Inductive snippets_of (claim_keywords : list str) (max_len : nat)
  : list evidence -> list str -> Prop :=
| snippets_nil : snippets_of claim_keywords max_len [] []
| snippets_skip (c : evidence) (cs : list evidence) (out : list str) :
    Forall (fun t => overlap claim_keywords t = 0%nat) (extract_sentences (e_content c)) ->
    snippets_of claim_keywords max_len cs out ->
    snippets_of claim_keywords max_len (c :: cs) out
| snippets_take (c : evidence) (cs : list evidence) (out : list str) (s snippet : str) :
    best_sentence claim_keywords (extract_sentences (e_content c)) s ->
    is_truncation max_len s snippet ->
    snippets_of claim_keywords max_len cs out ->
    snippets_of claim_keywords max_len (c :: cs) (snippet :: out).
End RetrievalSpec.

(** * Vocabulary of the further properties *)
Module ExtraSpec.
Import TextProcessor ClassificationService.

(** The characters of a text prepared for the embedding model: word
    characters, the punctuation [.!?,;:], the hyphen, the apostrophe and the
    space. *)
Definition is_embedding_char (c : ascii) : bool :=
  is_word c || is_sentence_punct c || is_char "-" c || is_char "'" c
  || is_char " " c.

(** The iteration of [set(xs)] visits the members of [xs]. *)
Definition set_order_sound (set_order : list (option str) -> list (option str))
  : Prop :=
  forall xs x, In x (set_order xs) <-> In x xs.
End ExtraSpec.

Module ExtraRetrievalSpec.
Import TextProcessor RetrievalService.
Local Open Scope Q_scope.

(** What the match type of an entry tells, for the identifiers [V] of the
    vector channel and [K] of the keyword channel: a vector entry has no
    keyword score, a keyword entry has no vector score and is unknown to the
    vector channel, a hybrid entry was found by the keyword channel. *)
Definition provenance (V K : list Z) (e : evidence) : Prop :=
  match match_type e with
  | Vector => keyword_score e = 0 /\ In (e_source_id e) V
  | Keyword => vector_score e = 0 /\ In (e_source_id e) K
               /\ ~ In (e_source_id e) V
  | Hybrid => In (e_source_id e) K
  end.
End ExtraRetrievalSpec.

Module ExtraAnalysisSpec.
Import TextProcessor AnalysisService ClassificationService.
Local Open Scope Q_scope.

(** The keys of a result of [analyze_claim]. *)
Definition response_keys : gset string :=
  {[ "claim_id"; "claim"; "classification"; "reliability"; "confidence";
     "evidence"; "reasoning"; "source_url"; "processing_time_ms";
     "evidence_sources" ]}.

(** The keys of the result a batch gives for a claim it skips. *)
Definition skipped_keys : gset string :=
  {[ "claim"; "classification"; "reliability"; "evidence"; "reasoning";
     "source_url" ]}.

(** A result carries a verdict: one of the four labels and a reliability
    between 0 and 100. *)
Definition has_verdict (result : gmap string aval) : Prop :=
  exists l q,
    result !! "classification" = Some (APy (VLabel l))
    /\ result !! "reliability" = Some (APy (VFloat q))
    /\ 0 <= q <= 100.

(** What a result of [analyze_claim] holds. *)
Definition response (claim_text : str) (source_url : option str)
           (r : gmap string aval) : Prop :=
  dom r = response_keys
  /\ r !! "claim" = Some (AStr claim_text)
  /\ r !! "source_url" = Some (of_option_str source_url)
  /\ exists l q k ev ss,
      r !! "classification" = Some (APy (VLabel l))
      /\ r !! "reliability" = Some (APy (VFloat q))
      /\ r !! "confidence" = Some (APy (VFloat k))
      /\ r !! "evidence" = Some (AStrs ev)
      /\ r !! "evidence_sources" = Some (ASources ss)
      /\ 0 <= q <= 100 /\ k <= 95
      /\ (length ev <= length ss <= 5)%nat.
Section EmbeddingVocabulary.
Context `{HtmlParser}.

(** A text that is still not blank once it is prepared for the model. *)
Definition valid_text (text : str) : bool :=
  negb (is_empty (strip (preprocess_for_embedding text))).

(** The embeddings handed out to the texts in their order: a blank text
    gets the empty list and uses up no embedding, another text gets the next
    embedding, or the empty list when none is left. *)
Fixpoint align (texts : list str) (embeddings : list EmbeddingService.embedding)
  : list EmbeddingService.embedding :=
  match texts with
  | [] => []
  | text :: rest =>
    if valid_text text
    then match embeddings with
         | e :: es => e :: align rest es
         | [] => [] :: align rest []
         end
    else [] :: align rest embeddings
  end.
End EmbeddingVocabulary.
End ExtraAnalysisSpec.

(** * Fixtures *)
Module Fixtures.
Import TextProcessor ClassificationService Database DatabaseService RetrievalService.

(** The parser on the texts of the examples, which hold no markup: the text
    is returned as it is. *)
Definition plain_text_parser : HtmlParser := {| get_text := fun s => s |}.

(** A claim that fires none of the lexical rules. *)
Definition quiet_claim : str :=
  lit "the sky looked blue over the quiet town yesterday".

(** A claim in the scientific register, and one snippet that names a
    study. *)
Definition study_claim : str :=
  lit "a recent study was published about local weather patterns".
Definition study_evidence : list str := [lit "this study covers it"].

(** Sentiment models with a fixed answer. *)
Definition positive_service : ClassificationService.service :=
  {| classifier := Some (fun _ => Ok {| s_label := "LABEL_2"; s_score := 9 # 10 |}) |}.
Definition absent_service : ClassificationService.service :=
  {| classifier := None |}.

Definition vaccine_claim : str := lit "Vaccines are safe".

Definition vaccine_source : FactSource :=
  {| id := 2;
     title := lit "Vaccine safety";
     content := lit "Vaccines are safe and effective according to many studies. Nothing else.";
     source_name := lit "Reuters";
     source_url := lit "https://example.org/v" |}.

Definition vaccine_session : Session :=
  {| query_fact_sources := Ok [vaccine_source] |}.

Definition working_index : DatabaseService.service :=
  {| qdrant_client := Some (fun _ _ => Ok []) |}.

Definition absent_model : EmbeddingService.service :=
  {| EmbeddingService.model := None |}.

(** The two sources of the ranking example: A is found by the vector
    channel alone with 0.9, B by both channels with 0.5 and 1.0. *)
Definition hit_a : hit := {| hit_id := 1; hit_score := 9 # 10; hit_payload := ∅ |}.
Definition hit_b : hit := {| hit_id := 2; hit_score := 5 # 10; hit_payload := ∅ |}.
Definition keyword_b : keyword_match :=
  {| km_id := 2; km_score := 1; km_source := vaccine_source |}.

(** The fused list of the ranking example, and its two entries. *)
Definition ranked : list evidence :=
  _combine_and_rerank [] [hit_a; hit_b] [keyword_b] 5.
Definition ranked_first : evidence := nth 0 ranked (format_result (0%Z, {|
  u_id := 0; u_vector_score := 0; u_keyword_score := 0; u_payload := None;
  u_source := None; u_match_type := Vector |})).
Definition ranked_second : evidence := nth 1 ranked ranked_first.

(** A text with markup-free noise: a URL, an address, brackets. *)
Definition messy_text : str :=
  lit "Visit  HTTP://x.com or http://y.org/a?b=1 NOW -- mail me@z.io (please)!".

(** A source whose content shares no keyword with [vaccine_claim]. *)
Definition weather_source : evidence :=
  {| e_source_id := 7;
     hybrid_score := 7 # 10;
     vector_score := 1;
     keyword_score := 0;
     match_type := Vector;
     e_title := lit "Forecast";
     e_content := lit "The weather is nice today in Paris. It will rain tomorrow.";
     e_source_name := lit "BBC";
     e_source_url := [] |}.

(** A table of fact sources without rows. *)
Definition empty_session : Session := {| query_fact_sources := Ok [] |}.

(** A model that embeds every text as the same vector. *)
Definition constant_model : EmbeddingService.service :=
  {| EmbeddingService.model := Some (fun _ => Ok [1%Q]) |}.

(** An index that holds one point, the embedding of an earlier claim. *)
Definition stored_claim_hit : hit :=
  {| hit_id := 17; hit_score := 1; hit_payload := ∅ |}.
Definition one_point_index : DatabaseService.service :=
  {| qdrant_client := Some (fun _ _ => Ok [stored_claim_hit]) |}.
End Fixtures.

(** ** Fixtures of the batches *)
Module BatchFixtures.
Import TextProcessor ClassificationService RetrievalService AnalysisService.
Import Fixtures.
Local Open Scope Q_scope.

(** A store that is in a failed state once it has rejected a claim: the
    state is the flag of the failure. *)
Definition rejected_claim : str := lit "a claim the store rejects".
Definition sticky_store (failed : bool) (claim_text : str) (source_url : option str)
  : bool * res claim_record :=
  if failed || str_eqb claim_text rejected_claim
  then (true, Raise (Exception "the session is in a failed state"))
  else (false, Ok {| cr_id := 1; cr_created_at := lit "2024-01-01T00:00:00" |}).

(** A store that accepts every claim, without a state. *)
Definition open_store (w : unit) (claim_text : str) (source_url : option str)
  : unit * res claim_record :=
  (w, Ok {| cr_id := 1; cr_created_at := lit "2024-01-01T00:00:00" |}).

(** The batch over a world [W] with the store [store]: the clock stands
    still, the index is empty, the table holds the source on vaccines, and
    the other writes succeed. *)
Definition batch_over (W : Type) (store : W -> str -> option str -> W * res claim_record)
  : list (gmap string str) -> W -> W * list (gmap string aval) :=
  analyze_claims_batch (H := plain_text_parser) W constant_model positive_service
    (fun w => (w, 0%Z)) store (fun w _ _ _ => (w, Ok tt))
    (fun _ => working_index) (fun _ => vaccine_session)
    (fun w _ _ _ _ => (w, Ok tt)) (fun w _ _ _ _ _ => w).

Definition claim_of (claim_text : str) : gmap string str := {[ "text" := claim_text ]}.

(** The label and the reliability of a result. *)
Definition label_and_score (result : gmap string aval) : option (label * Q) :=
  match result !! "classification", result !! "reliability" with
  | Some (APy (VLabel l)), Some (APy (VFloat q)) => Some (l, Qred q)
  | _, _ => None
  end.
End BatchFixtures.

(** ** More fixtures *)
Module MoreFixtures.
Import TextProcessor ClassificationService RetrievalService Fixtures.
Local Open Scope Q_scope.

Definition option_str_dec (a b : option str) : {a = b} + {a <> b}.
Proof. decide equality. apply List.list_eq_dec, ascii_dec. Defined.

(** An iteration order of [set(xs)]: each member once, in the order of the
    last occurrences. *)
Definition set_members (xs : list (option str)) : list (option str) :=
  List.nodup option_str_dec xs.

(** Two earlier claims, both Unverified. *)
Definition earlier_claims : list (gmap string str) :=
  [ {[ "classification" := lit "Unverified" ]};
    {[ "classification" := lit "Unverified" ]} ].

(** Two entries of the fused dictionary: the second has the higher scores
    in both channels. *)
Definition weak_entry : Z * unified :=
  (1%Z, {| u_id := 1; u_vector_score := 2 # 10; u_keyword_score := 0;
           u_payload := None; u_source := None; u_match_type := Vector |}).
Definition strong_entry : Z * unified :=
  (2%Z, {| u_id := 2; u_vector_score := 6 # 10; u_keyword_score := 1 # 2;
           u_payload := None; u_source := None; u_match_type := Hybrid |}).

(** A model that embeds a text as its length. *)
Definition length_model : EmbeddingBatch.service :=
  {| EmbeddingBatch.model :=
       Some (fun texts =>
               Ok (map (fun t : str => [inject_Z (Z.of_nat (length t))]) texts)) |}.

Definition three_texts : list str :=
  [lit "hello world"; lit "   "; lit "second"].
End MoreFixtures.

(** * Properties *)

(** ** Numbers *)
Section Numbers.
Local Open Scope Q_scope.

Lemma Qgeb_true (a b : Q) : Qgeb a b = true <-> b <= a.
Proof. unfold Qgeb. apply Qle_bool_iff. Qed.

Lemma Qgeb_false (a b : Q) : Qgeb a b = false <-> a < b.
Proof.
  unfold Qgeb. split; intros Hf.
  - apply Qnot_le_lt. intros Hle. apply Qle_bool_iff in Hle. congruence.
  - destruct (Qle_bool b a) eqn:E; [| reflexivity].
    apply Qle_bool_iff in E. exfalso. apply (Qlt_not_le _ _ Hf E).
Qed.

Lemma Qltb_true (a b : Q) : Qltb a b = true <-> a < b.
Proof.
  unfold Qltb. rewrite negb_true_iff. apply (Qgeb_false a b).
Qed.

Lemma Qltb_false (a b : Q) : Qltb a b = false <-> b <= a.
Proof.
  unfold Qltb. rewrite negb_false_iff. apply (Qgeb_true a b).
Qed.

Lemma py_max_cases (a b : Q) :
  (py_max a b = a /\ b <= a) \/ (py_max a b = b /\ a < b).
Proof.
  unfold py_max. destruct (Qcompare_spec a b) as [E | L | G].
  - left. split; [reflexivity | rewrite E; apply Qle_refl].
  - right. split; [reflexivity | exact L].
  - left. split; [reflexivity | apply Qlt_le_weak, G].
Qed.

Lemma py_min_cases (a b : Q) :
  (py_min a b = a /\ a <= b) \/ (py_min a b = b /\ b < a).
Proof.
  unfold py_min. destruct (Qcompare_spec a b) as [E | L | G].
  - left. split; [reflexivity | rewrite E; apply Qle_refl].
  - left. split; [reflexivity | apply Qlt_le_weak, L].
  - right. split; [reflexivity | exact G].
Qed.

(** The clamp is the identity inside the interval and sticks to the
    nearer end outside of it. *)
Lemma clamp_cases (x : Q) :
  (x < 0 /\ clamp_0_100 x = 0)
  \/ (0 <= x <= 100 /\ clamp_0_100 x == x)
  \/ (100 < x /\ clamp_0_100 x = 100).
Proof.
  unfold clamp_0_100.
  destruct (py_min_cases 100 x) as [[-> Hx] | [-> Hx]].
  - destruct (py_max_cases 0 100) as [[_ Hbad] | [-> _]].
    + exfalso. revert Hbad. apply Qlt_not_le. reflexivity.
    + destruct (Qle_lt_or_eq _ _ Hx) as [Hlt | Heq].
      * right. right. split; [exact Hlt | reflexivity].
      * right. left. split; [| exact Heq].
        split; [rewrite <- Heq; discriminate | rewrite <- Heq; apply Qle_refl].
  - destruct (py_max_cases 0 x) as [[-> Hx0] | [-> Hx0]].
    + destruct (Qle_lt_or_eq _ _ Hx0) as [Hlt | Heq].
      * left. split; [exact Hlt | reflexivity].
      * right. left. split; [| symmetry; exact Heq].
        split; [rewrite Heq; apply Qle_refl | apply Qlt_le_weak, Hx].
    + right. left. split; [| reflexivity].
      split; [apply Qlt_le_weak, Hx0 | apply Qlt_le_weak, Hx].
Qed.

Lemma clamp_bounds (x : Q) : 0 <= clamp_0_100 x <= 100.
Proof.
  destruct (clamp_cases x) as [[_ ->] | [[[H0 H1] ->] | [_ ->]]].
  - split; discriminate.
  - split; assumption.
  - split; discriminate.
Qed.

Lemma clamp_le (x b : Q) : 0 <= b -> x <= b -> clamp_0_100 x <= b.
Proof.
  intros Hb Hx.
  destruct (clamp_cases x) as [[_ ->] | [[_ ->] | [Hbig ->]]].
  - exact Hb.
  - exact Hx.
  - apply Qlt_le_weak. apply Qlt_le_trans with x; assumption.
Qed.
End Numbers.

(** ** The stable sort *)
Lemma In_firstn {A : Type} (n : nat) (l : list A) (x : A) :
  In x (firstn n l) -> In x l.
Proof.
  revert l. induction n as [| n IH]; intros [| y r] Hx; cbn in Hx; try contradiction.
  destruct Hx as [-> | Hx]; [left; reflexivity | right; apply IH, Hx].
Qed.

Section SortFacts.
Local Open Scope Q_scope.
Context {A : Type} (key : A -> Q).

Lemma insert_desc_perm (x : A) (l : list A) :
  Permutation (x :: l) (insert_desc key x l).
Proof.
  induction l as [| y r IH]; cbn [insert_desc].
  - apply Permutation_refl.
  - destruct (Qltb (key x) (key y)).
    + apply Permutation_trans with (y :: x :: r).
      * apply perm_swap.
      * apply perm_skip, IH.
    + apply Permutation_refl.
Qed.

Lemma sort_desc_perm (l : list A) : Permutation l (sort_desc key l).
Proof.
  induction l as [| x r IH]; cbn [sort_desc].
  - apply perm_nil.
  - apply Permutation_trans with (x :: sort_desc key r).
    + apply perm_skip, IH.
    + apply insert_desc_perm.
Qed.

Lemma sort_desc_nil (l : list A) : sort_desc key l = [] -> l = [].
Proof.
  intros Hs. apply Permutation_nil. apply Permutation_sym.
  rewrite <- Hs. apply sort_desc_perm.
Qed.

Lemma sort_desc_In (l : list A) (x : A) : In x (sort_desc key l) <-> In x l.
Proof.
  split; apply Permutation_in;
    [apply Permutation_sym |]; apply sort_desc_perm.
Qed.

Lemma insert_desc_descending (x : A) (l : list A) :
  descending key l -> descending key (insert_desc key x l).
Proof.
  unfold descending. induction l as [| y r IH]; intros Hl; cbn [insert_desc].
  - constructor; constructor.
  - inversion Hl as [| ? ? Hr Hy]; subst.
    destruct (Qltb (key x) (key y)) eqn:E.
    + constructor; [apply IH, Hr |].
      apply Qltb_true in E.
      apply (Permutation_Forall (insert_desc_perm x r)).
      constructor; [apply Qlt_le_weak, E | exact Hy].
    + apply Qltb_false in E.
      constructor; [exact Hl |].
      constructor; [exact E |].
      apply (List.Forall_impl (P := fun b => key b <= key y)); [| exact Hy].
      intros b Hb. apply Qle_trans with (key y); assumption.
Qed.

Lemma sort_desc_descending (l : list A) : descending key (sort_desc key l).
Proof.
  induction l as [| x r IH]; cbn [sort_desc].
  - constructor.
  - apply insert_desc_descending, IH.
Qed.

Lemma descending_firstn (n : nat) (l : list A) :
  descending key l -> descending key (firstn n l).
Proof.
  unfold descending. revert l. induction n as [| n IH]; intros l Hl.
  - constructor.
  - destruct l as [| x r]; [constructor |].
    inversion Hl as [| ? ? Hr Hx]; subst. cbn [firstn].
    constructor; [apply IH, Hr |].
    apply List.Forall_forall. intros y Hy.
    apply (proj1 (List.Forall_forall _ _) Hx). apply (In_firstn n r y Hy).
Qed.

(** In a descending key list an earlier element has the larger key. *)
Lemma descending_nth (l : list A) (i j : nat) (a b : A) :
  descending key l -> (i < j)%nat ->
  nth_error l i = Some a -> nth_error l j = Some b -> key b <= key a.
Proof.
  unfold descending. intros Hl. revert i j.
  induction Hl as [| x r Hr IH Hx]; intros i j Hij Hi Hj.
  - destruct i; discriminate Hi.
  - destruct j as [| j]; [lia |].
    destruct i as [| i].
    + cbn in Hi. injection Hi as <-. cbn in Hj.
      apply nth_error_In in Hj.
      apply (proj1 (List.Forall_forall _ _) Hx _ Hj).
    + cbn in Hi, Hj. apply (IH i j); [lia | assumption | assumption].
Qed.

(** The head of the sorted list is the first of the elements with the
    largest key. *)
Lemma sort_desc_head (l : list A) (x : A) (t : list A) :
  sort_desc key l = x :: t ->
  exists pre post,
    l = pre ++ x :: post
    /\ Forall (fun y => key y < key x) pre
    /\ Forall (fun y => key y <= key x) post.
Proof.
  revert x t. induction l as [| a r IH]; intros x t Hs; cbn [sort_desc] in Hs.
  - discriminate Hs.
  - destruct (sort_desc key r) as [| y u] eqn:Er.
    + apply sort_desc_nil in Er. subst r. cbn in Hs. injection Hs as <- <-.
      exists [], []. repeat split; constructor.
    + cbn [insert_desc] in Hs.
      destruct (IH y u eq_refl) as [pre [post [Hr [Hpre Hpost]]]].
      destruct (Qltb (key a) (key y)) eqn:E.
      * injection Hs as <- <-. apply Qltb_true in E.
        exists (a :: pre), post. subst r. split; [reflexivity |].
        split; [constructor; assumption | exact Hpost].
      * injection Hs as <- <-. apply Qltb_false in E.
        exists [], r. split; [reflexivity |]. split; [constructor |].
        subst r. apply List.Forall_app. split.
        -- apply (List.Forall_impl (P := fun z => key z < key y)); [| exact Hpre].
           intros z Hz. apply Qlt_le_weak. apply Qlt_le_trans with (key y); assumption.
        -- constructor; [exact E |].
           apply (List.Forall_impl (P := fun z => key z <= key y)); [| exact Hpost].
           intros z Hz. apply Qle_trans with (key y); assumption.
Qed.
End SortFacts.

(** ** The text feature extractor *)
Module TextFacts.
Import TextProcessor TextSpec.

Ltac each_char c := destruct c as [[] [] [] [] [] [] [] []]; vm_compute.

Lemma lower_char_idempotent (c : ascii) : lower_char (lower_char c) = lower_char c.
Proof. each_char c; reflexivity. Qed.

Lemma space_is_plain (c : ascii) : is_char " " c = true -> is_space c = true.
Proof. each_char c; intros Hc; first [reflexivity | discriminate Hc]. Qed.

Lemma plain_is_kept (c : ascii) : is_plain_char c = true -> keep_clean c = true.
Proof.
  unfold is_plain_char, keep_clean. intros Hc.
  apply orb_prop in Hc. destruct Hc as [Hc | Hc].
  - apply orb_prop in Hc. destruct Hc as [-> | ->]; [reflexivity |].
    rewrite !orb_true_r. reflexivity.
  - rewrite (space_is_plain c Hc). rewrite orb_true_r. reflexivity.
Qed.

Lemma kept_is_plain (c : ascii) :
  keep_clean c = true -> is_space c = false -> is_plain_char c = true.
Proof.
  unfold is_plain_char, keep_clean. intros Hc Hs. rewrite Hs, orb_false_r in Hc.
  rewrite Hc. reflexivity.
Qed.

Lemma drop_while_Forall (P : ascii -> Prop) (p : ascii -> bool) (s : str) :
  Forall P s -> Forall P (drop_while p s).
Proof.
  induction 1 as [| c r Hc Hr IH]; cbn [drop_while]; [constructor |].
  destruct (p c); [exact IH | constructor; assumption].
Qed.

Lemma rstrip_Forall (P : ascii -> Prop) (s : str) : Forall P s -> Forall P (rstrip s).
Proof.
  induction 1 as [| c r Hc Hr IH]; cbn [rstrip]; [constructor |].
  destruct (rstrip r) as [| d r'].
  - destruct (is_space c); [constructor | constructor; [exact Hc | constructor]].
  - constructor; assumption.
Qed.

Lemma strip_Forall (P : ascii -> Prop) (s : str) : Forall P s -> Forall P (strip s).
Proof. intros Hs. apply rstrip_Forall, drop_while_Forall, Hs. Qed.

Lemma remove_matches_Forall (P : ascii -> Prop) (m : str -> option nat)
      (skip : nat) (s : str) :
  Forall P s -> Forall P (remove_matches m skip s).
Proof.
  intros Hs. revert skip.
  induction Hs as [| c r Hc Hr IH]; intros skip; cbn [remove_matches]; [constructor |].
  destruct skip as [| k]; [| apply IH].
  destruct (m (c :: r)) as [[| n] |]; [constructor; [exact Hc | apply IH] | apply IH
                                       | constructor; [exact Hc | apply IH]].
Qed.

Lemma collapse_spaces_Forall (P : ascii -> Prop) (in_run : bool) (s : str) :
  P " "%char -> Forall P s -> Forall P (collapse_spaces in_run s).
Proof.
  intros Hsp Hs. revert in_run.
  induction Hs as [| c r Hc Hr IH]; intros in_run; cbn [collapse_spaces]; [constructor |].
  destruct (is_space c).
  - destruct in_run; [apply IH | constructor; [exact Hsp | apply IH]].
  - constructor; [exact Hc | apply IH].
Qed.

(** After the collapse every character of a text that was blanked is a
    plain one. *)
Lemma collapse_spaces_plain (in_run : bool) (s : str) :
  Forall (fun c => keep_clean c = true) s ->
  Forall (fun c => is_plain_char c = true) (collapse_spaces in_run s).
Proof.
  intros Hs. revert in_run.
  induction Hs as [| c r Hc Hr IH]; intros in_run; cbn [collapse_spaces]; [constructor |].
  destruct (is_space c) eqn:Es.
  - destruct in_run; [apply IH | constructor; [reflexivity | apply IH]].
  - constructor; [apply kept_is_plain; assumption | apply IH].
Qed.

Lemma collapse_spaces_single (in_run : bool) (s : str) :
  single_spaced in_run (collapse_spaces in_run s) = true.
Proof.
  revert in_run. induction s as [| c r IH]; intros in_run; cbn [collapse_spaces];
    [reflexivity |].
  destruct (is_space c) eqn:Es.
  - destruct in_run; [apply IH |].
    cbn [single_spaced]. change (is_space " ") with true. cbn. apply IH.
  - cbn [single_spaced]. rewrite Es. apply IH.
Qed.

Lemma single_spaced_collapse (in_run : bool) (s : str) :
  single_spaced in_run s = true -> collapse_spaces in_run s = s.
Proof.
  revert in_run. induction s as [| c r IH]; intros in_run Hs; [reflexivity |].
  cbn [single_spaced] in Hs. cbn [collapse_spaces].
  destruct (is_space c) eqn:Es.
  - apply andb_prop in Hs. destruct Hs as [Hs Hr].
    apply andb_prop in Hs. destruct Hs as [Hc Hn].
    apply negb_true_iff in Hn. subst in_run.
    apply Ascii.eqb_eq in Hc. subst c. f_equal. apply IH, Hr.
  - f_equal. apply IH, Hs.
Qed.

Lemma single_spaced_weaken (s : str) :
  single_spaced true s = true -> single_spaced false s = true.
Proof.
  destruct s as [| c r]; [reflexivity |]. cbn [single_spaced].
  destruct (is_space c); [| exact (fun Hs => Hs)].
  rewrite andb_false_r. discriminate.
Qed.

Lemma single_spaced_any (b : bool) (s : str) :
  single_spaced b s = true -> single_spaced false s = true.
Proof. destruct b; [apply single_spaced_weaken | exact (fun Hs => Hs)]. Qed.

Lemma drop_while_single (b : bool) (s : str) :
  single_spaced b s = true -> single_spaced false (drop_while is_space s) = true.
Proof.
  revert b. induction s as [| c r IH]; intros b Hs; [reflexivity |].
  cbn [drop_while]. destruct (is_space c) eqn:Es.
  - cbn [single_spaced] in Hs. rewrite Es in Hs.
    apply andb_prop in Hs. destruct Hs as [_ Hr]. apply (IH true), Hr.
  - apply (single_spaced_any b), Hs.
Qed.

Lemma rstrip_single (b : bool) (s : str) :
  single_spaced b s = true -> single_spaced b (rstrip s) = true.
Proof.
  revert b. induction s as [| c r IH]; intros b Hs; [reflexivity |].
  cbn [single_spaced] in Hs. cbn [rstrip].
  destruct (is_space c) eqn:Es.
  - apply andb_prop in Hs. destruct Hs as [Hc Hr].
    specialize (IH true Hr). destruct (rstrip r) as [| d r']; [reflexivity |].
    cbn [single_spaced]. rewrite Es, Hc. exact IH.
  - specialize (IH false Hs). destruct (rstrip r) as [| d r'].
    + cbn [single_spaced]. rewrite Es. reflexivity.
    + cbn [single_spaced]. rewrite Es. exact IH.
Qed.

Lemma drop_while_starts (s : str) : starts_with_space (drop_while is_space s) = false.
Proof.
  induction s as [| c r IH]; [reflexivity |]. cbn [drop_while].
  destruct (is_space c) eqn:Es; [exact IH | exact Es].
Qed.

Lemma rstrip_starts (s : str) :
  starts_with_space s = false -> starts_with_space (rstrip s) = false.
Proof.
  destruct s as [| c r]; [reflexivity |]. cbn [starts_with_space rstrip].
  intros Hc. rewrite Hc. destruct (rstrip r); exact Hc.
Qed.

Lemma rstrip_ends (s : str) : ends_with_space (rstrip s) = false.
Proof.
  induction s as [| c r IH]; [reflexivity |]. cbn [rstrip].
  destruct (rstrip r) as [| d r'].
  - destruct (is_space c) eqn:Es; [reflexivity | exact Es].
  - exact IH.
Qed.

Lemma lstrip_fixed (s : str) : starts_with_space s = false -> lstrip s = s.
Proof.
  destruct s as [| c r]; [reflexivity |]. cbn [starts_with_space]. intros Hc.
  unfold lstrip. cbn [drop_while]. rewrite Hc. reflexivity.
Qed.

Lemma rstrip_fixed (s : str) : ends_with_space s = false -> rstrip s = s.
Proof.
  induction s as [| c r IH]; [reflexivity |].
  destruct r as [| d r'].
  - cbn. intros ->. reflexivity.
  - intros He. change (ends_with_space (d :: r') = false) in He.
    specialize (IH He).
    change (rstrip (c :: d :: r'))
      with (match rstrip (d :: r') with
            | [] => if is_space c then [] else [c]
            | a :: l => c :: a :: l
            end).
    rewrite IH. reflexivity.
Qed.

Lemma strip_fixed (s : str) :
  starts_with_space s = false -> ends_with_space s = false -> strip s = s.
Proof.
  intros Hs He. unfold strip. rewrite (lstrip_fixed s Hs). apply rstrip_fixed, He.
Qed.

Lemma lower_fixed (s : str) : Forall (fun c => lower_char c = c) s -> lower s = s.
Proof.
  induction 1 as [| c r Hc Hr IH]; [reflexivity |].
  unfold lower in *. cbn [map]. rewrite Hc, IH. reflexivity.
Qed.

Lemma blank_unless_fixed (keep : ascii -> bool) (s : str) :
  Forall (fun c => keep c = true) s -> blank_unless keep s = s.
Proof.
  induction 1 as [| c r Hc Hr IH]; [reflexivity |].
  unfold blank_unless in *. cbn [map]. rewrite Hc, IH. reflexivity.
Qed.

Lemma starts_with_app (p s : str) : starts_with p s = true -> exists r, s = p ++ r.
Proof.
  revert s. induction p as [| a p IH]; intros s Hs.
  - exists s. reflexivity.
  - destruct s as [| b s]; [discriminate Hs |]. cbn [starts_with] in Hs.
    apply andb_prop in Hs. destruct Hs as [Hab Hs].
    apply Ascii.eqb_eq in Hab. subst b.
    destruct (IH s Hs) as [r ->]. exists r. reflexivity.
Qed.

Lemma forallb_forall_plain (s : str) :
  Forall (fun c => is_plain_char c = true) s -> forallb is_plain_char s = true.
Proof.
  induction 1 as [| c r Hc Hr IH]; [reflexivity |].
  cbn [forallb]. rewrite Hc, IH. reflexivity.
Qed.

(** No URL starts in a text of plain characters: the scheme needs a
    slash. *)
Lemma match_url_plain (s : str) :
  Forall (fun c => is_plain_char c = true) s -> match_url s = None.
Proof.
  intros Hs. unfold match_url, match_scheme.
  destruct (starts_with (lit "https://") s) eqn:E1.
  { exfalso. destruct (starts_with_app _ _ E1) as [r ->].
    apply List.Forall_app in Hs. destruct Hs as [Hs _].
    apply forallb_forall_plain in Hs. discriminate Hs. }
  destruct (starts_with (lit "http://") s) eqn:E2; [| reflexivity].
  exfalso. destruct (starts_with_app _ _ E2) as [r ->].
  apply List.Forall_app in Hs. destruct Hs as [Hs _].
  apply forallb_forall_plain in Hs. discriminate Hs.
Qed.

Lemma take_while_Forall (P : ascii -> Prop) (p : ascii -> bool) (s : str) :
  Forall P s -> Forall P (take_while p s).
Proof.
  induction 1 as [| c r Hc Hr IH]; cbn [take_while]; [constructor |].
  destruct (p c); constructor; assumption.
Qed.

Lemma at_sign_inside_plain (s : str) :
  Forall (fun c => is_plain_char c = true) s -> at_sign_inside s = false.
Proof.
  induction 1 as [| c r Hc Hr IH]; [reflexivity |].
  destruct r as [| d r']; [reflexivity |].
  change (at_sign_inside (c :: d :: r'))
    with (is_char "@" c || at_sign_inside (d :: r')).
  rewrite IH, orb_false_r.
  destruct (is_char "@" c) eqn:E; [| reflexivity].
  apply Ascii.eqb_eq in E. subst c. discriminate Hc.
Qed.

(** No e-mail address starts in a text of plain characters: the pattern
    needs an at sign. *)
Lemma match_email_plain (s : str) :
  Forall (fun c => is_plain_char c = true) s -> match_email s = None.
Proof.
  intros Hs. unfold match_email.
  pose proof (take_while_Forall _ (fun c => negb (is_space c)) s Hs) as Hrun.
  destruct (take_while (fun c => negb (is_space c)) s) as [| c r]; [reflexivity |].
  inversion Hrun as [| ? ? _ Hr]; subst.
  rewrite (at_sign_inside_plain r Hr). reflexivity.
Qed.

Lemma remove_matches_fixed (P : ascii -> Prop) (m : str -> option nat) :
  (forall t, Forall P t -> m t = None) ->
  forall s, Forall P s -> remove_matches m 0 s = s.
Proof.
  intros Hm s Hs. induction Hs as [| c r Hc Hr IH]; [reflexivity |].
  cbn [remove_matches]. rewrite (Hm (c :: r)); [| constructor; assumption].
  rewrite IH. reflexivity.
Qed.

Section Clean.
Context `{HtmlParser}.

(** What the cleaning returns: plain characters, in lower case, single
    spaces, none at the ends. *)
Lemma clean_text_shape (text : str) :
  Forall (fun c => is_plain_char c = true) (clean_text text)
  /\ Forall (fun c => lower_char c = c) (clean_text text)
  /\ single_spaced false (clean_text text) = true
  /\ starts_with_space (clean_text text) = false
  /\ ends_with_space (clean_text text) = false.
Proof.
  unfold clean_text.
  destruct (is_empty text); [repeat split; constructor |].
  set (u := remove_matches match_email 0
              (remove_matches match_url 0 (lower (clean_html text)))).
  assert (Hu : Forall (fun c => lower_char c = c) u).
  { unfold u. do 2 apply remove_matches_Forall.
    unfold lower. apply List.Forall_forall. intros c Hc.
    apply in_map_iff in Hc. destruct Hc as [d [<- _]].
    apply lower_char_idempotent. }
  assert (Hz1 : Forall (fun c => keep_clean c = true) (blank_unless keep_clean u)).
  { unfold blank_unless. apply List.Forall_forall. intros c Hc.
    apply in_map_iff in Hc. destruct Hc as [d [<- _]].
    destruct (keep_clean d) eqn:E; [exact E | reflexivity]. }
  assert (Hz2 : Forall (fun c => lower_char c = c) (blank_unless keep_clean u)).
  { unfold blank_unless. apply List.Forall_forall. intros c Hc.
    apply in_map_iff in Hc. destruct Hc as [d [<- Hd]].
    destruct (keep_clean d); [| reflexivity].
    apply (proj1 (List.Forall_forall _ _) Hu d Hd). }
  split; [apply strip_Forall, collapse_spaces_plain, Hz1 |].
  split; [apply strip_Forall, collapse_spaces_Forall; [reflexivity | exact Hz2] |].
  unfold strip, lstrip.
  split; [apply rstrip_single, (drop_while_single false), collapse_spaces_single |].
  split; [apply rstrip_starts, drop_while_starts | apply rstrip_ends].
Qed.

(** C9.  Cleaning is idempotent: cleaning a cleaned text changes nothing,
    the HTML parser leaving a clean text, which has no markup, as it is. *)
Theorem clean_text_idempotent (Hparser : parser_keeps_clean_text) (x : str) :
  clean_text (clean_text x) = clean_text x.
Proof.
  destruct (clean_text_shape x) as [Hplain [Hlower [Hsingle [Hstart Hend]]]].
  set (y := clean_text x) in *.
  unfold clean_text at 1. destruct (is_empty y) eqn:Ey.
  { destruct y; [reflexivity | discriminate Ey]. }
  assert (Hhtml : clean_html y = y).
  { unfold clean_html. rewrite Ey.
    rewrite (Hparser y).
    2:{ unfold is_clean_text.
        rewrite (forallb_forall_plain y Hplain), Hsingle, Hstart, Hend. reflexivity. }
    rewrite (single_spaced_collapse false y Hsingle).
    apply strip_fixed; assumption. }
  rewrite Hhtml, (lower_fixed y Hlower).
  rewrite (remove_matches_fixed _ match_url match_url_plain y Hplain).
  rewrite (remove_matches_fixed _ match_email match_email_plain y Hplain).
  rewrite (blank_unless_fixed keep_clean y).
  - rewrite (single_spaced_collapse false y Hsingle).
    apply strip_fixed; assumption.
  - apply (List.Forall_impl (P := fun c => is_plain_char c = true));
      [exact plain_is_kept | exact Hplain].
Qed.
End Clean.
End TextFacts.

(** ** The heuristic classifier *)
Module ClassificationFacts.
Import TextProcessor ClassificationService Spec.
Local Open Scope Q_scope.

Lemma classification_of_in_band (s : Q) : in_band s (classification_of s).
Proof.
  unfold classification_of.
  destruct (Qgeb s 70) eqn:E70.
  { apply band_true. apply Qgeb_true, E70. }
  apply Qgeb_false in E70.
  destruct (Qgeb s 40) eqn:E40.
  { apply band_unverified; [apply Qgeb_true, E40 | exact E70]. }
  apply Qgeb_false in E40.
  destruct (Qgeb s 20) eqn:E20.
  { apply band_misleading; [apply Qgeb_true, E20 | exact E40]. }
  apply Qgeb_false in E20.
  apply band_false, E20.
Qed.

(** The bands are disjoint: a score lies in one band only. *)
Lemma in_band_unique (s : Q) (a b : label) : in_band s a -> in_band s b -> a = b.
Proof.
  intros Ha Hb. destruct Ha; destruct Hb; try reflexivity; exfalso; lra.
Qed.

Lemma in_band_iff (s : Q) (l : label) : in_band s l <-> classification_of s = l.
Proof.
  split.
  - intros Hl. apply (in_band_unique s); [apply classification_of_in_band | exact Hl].
  - intros <-. apply classification_of_in_band.
Qed.

(** Clamping to [0,100] does not move a score to another band. *)
Lemma in_band_clamp (s : Q) (l : label) : in_band s l -> in_band (clamp_0_100 s) l.
Proof.
  intros Hl.
  destruct (clamp_cases s) as [[Hneg ->] | [[_ Heq] | [Hbig ->]]].
  - destruct Hl; try (exfalso; lra). apply band_false. reflexivity.
  - destruct Hl; [apply band_true | apply band_unverified
                  | apply band_misleading | apply band_false]; rewrite Heq; assumption.
  - destruct Hl; try (exfalso; lra). apply band_true. discriminate.
Qed.

Section WithParser.
Context `{HtmlParser}.

Lemma heuristics_unfold (claim : str) (evidence_snippets : option (list str)) :
  exists reasoning,
    _analyze_claim_heuristics claim evidence_snippets
    = heuristic_dict
        (classification_of (fst (heuristic_score claim evidence_snippets)))
        (clamp_0_100 (fst (heuristic_score claim evidence_snippets)))
        reasoning.
Proof.
  unfold _analyze_claim_heuristics.
  destruct (heuristic_score claim evidence_snippets) as [score parts]. simpl.
  eexists. reflexivity.
Qed.

(** C6.  The label of the heuristic analysis is the band of the final
    score: True from 70 up, Unverified in [40,70), Misleading in [20,40),
    False below 20.  The score is stored clamped to [0,100], which has the
    same band, and no other label fits the score. *)
Theorem heuristic_label_is_band (claim : str) (evidence_snippets : option (list str)) :
  exists l,
    _analyze_claim_heuristics claim evidence_snippets !! "classification"
    = Some (VLabel l)
    /\ _analyze_claim_heuristics claim evidence_snippets !! "score"
       = Some (VFloat (clamp_0_100 (fst (heuristic_score claim evidence_snippets))))
    /\ in_band (fst (heuristic_score claim evidence_snippets)) l
    /\ in_band (clamp_0_100 (fst (heuristic_score claim evidence_snippets))) l
    /\ (forall l', in_band (fst (heuristic_score claim evidence_snippets)) l' <-> l' = l).
Proof.
  destruct (heuristics_unfold claim evidence_snippets) as [reasoning ->].
  set (s := fst (heuristic_score claim evidence_snippets)).
  exists (classification_of s).
  assert (Hb : in_band s (classification_of s)) by apply classification_of_in_band.
  repeat split.
  - exact Hb.
  - apply in_band_clamp, Hb.
  - intros Hl'. apply (in_band_unique s); assumption.
  - intros ->. exact Hb.
Qed.
End WithParser.

Lemma getitem_heuristic_score (l : label) (b : Q) (t : text) :
  getitem (heuristic_dict l b t) "score" = Ok (VFloat b).
Proof. reflexivity. Qed.

Lemma getitem_heuristic_classification (l : label) (b : Q) (t : text) :
  getitem (heuristic_dict l b t) "classification" = Ok (VLabel l).
Proof. reflexivity. Qed.

Lemma getitem_heuristic_reasoning (l : label) (b : Q) (t : text) :
  getitem (heuristic_dict l b t) "reasoning" = Ok (VText t).
Proof. reflexivity. Qed.

Lemma getitem_heuristic_reliability (l : label) (b : Q) (t : text) :
  getitem (heuristic_dict l b t) "reliability_score" = Raise (KeyError "reliability_score").
Proof. reflexivity. Qed.

Lemma combine_unfold (l0 : label) (base : Q) (reasoning : text) (sent : sentiment) :
  exists reasoning',
    _combine_analysis_results (heuristic_dict l0 base reasoning) sent
    = Ok (result_dict
            (reclassify
               (clamp_0_100 (base + sentiment_adjustment (s_label sent) (s_score sent))) l0)
            (clamp_0_100 (base + sentiment_adjustment (s_label sent) (s_score sent)))
            (py_min (s_score sent * 100) 95) reasoning').
Proof.
  unfold _combine_analysis_results.
  rewrite getitem_heuristic_score, getitem_heuristic_classification,
    getitem_heuristic_reasoning.
  cbn [bind as_float as_label as_text].
  eexists. reflexivity.
Qed.

Lemma sentiment_adjustment_spec (sentiment_label : string) (sentiment_score : Q) :
  sentiment_adjustment sentiment_label sentiment_score
  = adjustment_of (signal_of sentiment_label) sentiment_score.
Proof.
  unfold sentiment_adjustment, signal_of.
  destruct (String.eqb sentiment_label "LABEL_0"); [reflexivity |].
  destruct (String.eqb sentiment_label "LABEL_2"); reflexivity.
Qed.

(** The label after the fusion: the band of the adjusted score, but a True
    is kept in the band of Unverified and a False in the band of
    Misleading. *)
Lemma reclassify_spec (final_score : Q) (l0 lb : label) :
  in_band final_score lb ->
  reclassify final_score l0
  = match l0, lb with
    | L_True, L_Unverified => L_True
    | L_False, L_Misleading => L_False
    | _, _ => lb
    end.
Proof.
  intros Hb. unfold reclassify.
  assert (B70 : Qgeb final_score 70 = true /\ Qltb final_score 70 = false
                \/ Qgeb final_score 70 = false /\ Qltb final_score 70 = true).
  { destruct (Qgeb final_score 70) eqn:E; [left | right]; split; try reflexivity;
      [apply Qltb_false, Qgeb_true, E | apply Qltb_true, Qgeb_false, E]. }
  assert (B40 : Qgeb final_score 40 = true /\ Qltb final_score 40 = false
                \/ Qgeb final_score 40 = false /\ Qltb final_score 40 = true).
  { destruct (Qgeb final_score 40) eqn:E; [left | right]; split; try reflexivity;
      [apply Qltb_false, Qgeb_true, E | apply Qltb_true, Qgeb_false, E]. }
  assert (B20 : Qgeb final_score 20 = true /\ Qltb final_score 20 = false
                \/ Qgeb final_score 20 = false /\ Qltb final_score 20 = true).
  { destruct (Qgeb final_score 20) eqn:E; [left | right]; split; try reflexivity;
      [apply Qltb_false, Qgeb_true, E | apply Qltb_true, Qgeb_false, E]. }
  destruct B70 as [[G70 L70] | [G70 L70]];
    destruct B40 as [[G40 L40] | [G40 L40]];
    destruct B20 as [[G20 L20] | [G20 L20]];
    pose proof G70 as G70'; pose proof G40 as G40'; pose proof G20 as G20';
    first [apply Qgeb_true in G70' | apply Qgeb_false in G70'];
    first [apply Qgeb_true in G40' | apply Qgeb_false in G40'];
    first [apply Qgeb_true in G20' | apply Qgeb_false in G20'];
    rewrite G70, L70, G40, L40, G20, L20;
    destruct Hb; try (exfalso; lra); destruct l0; reflexivity.
Qed.

(** C1, as the code has it.  The adjustment is -5 x confidence for a
    negative signal, +2 x confidence for a positive one and 0 for a neutral
    one; the fused score is the clamped sum.  The label differs from the
    heuristic label exactly when the band of the fused score differs from it
    and the pair is neither (True, band of Unverified) nor (False, band of
    Misleading); a label that changes becomes the band of the fused score. *)
Theorem fusion_label_rule (l0 : label) (base : Q) (reasoning : text) (sent : sentiment) :
  let adjustment := adjustment_of (signal_of (s_label sent)) (s_score sent) in
  let final_score := clamp_0_100 (base + adjustment) in
  exists l1 reasoning',
    _combine_analysis_results (heuristic_dict l0 base reasoning) sent
    = Ok (result_dict l1 final_score (py_min (s_score sent * 100) 95) reasoning')
    /\ forall lb, in_band final_score lb ->
         (l1 <> l0 <->
          (lb <> l0 /\ ~ (l0 = L_True /\ lb = L_Unverified)
           /\ ~ (l0 = L_False /\ lb = L_Misleading)))
         /\ (l1 <> l0 -> l1 = lb).
Proof.
  intros adjustment final_score.
  destruct (combine_unfold l0 base reasoning sent) as [reasoning' Hc].
  rewrite sentiment_adjustment_spec in Hc. fold adjustment final_score in Hc.
  exists (reclassify final_score l0), reasoning'.
  split; [exact Hc |].
  intros lb Hb. rewrite (reclassify_spec final_score l0 lb Hb).
  destruct l0; destruct lb; intuition congruence.
Qed.

Section Classify.
Context `{HtmlParser}.

(** The three ways through [classify_claim]: an empty claim, a claim without
    a sentiment signal, a claim with one. *)
Lemma classify_claim_cases
      (self : service) (claim_text : str) (evidence_snippets : option (list str)) :
  let processed := preprocess_for_embedding claim_text in
  let score := fst (heuristic_score processed evidence_snippets) in
  (is_empty (strip processed) = true
   /\ classify_claim_body self claim_text evidence_snippets
      = Ok (result_dict L_Unverified 0 0 [Txt "Empty or invalid claim text"]))
  \/ (is_empty (strip processed) = false
      /\ sentiment_unavailable self processed
      /\ classify_claim_body self claim_text evidence_snippets
         = Raise (KeyError "reliability_score"))
  \/ (is_empty (strip processed) = false
      /\ exists model sent reasoning,
          classifier self = Some model
          /\ model processed = Ok sent
          /\ classify_claim_body self claim_text evidence_snippets
             = Ok (result_dict
                     (reclassify
                        (clamp_0_100
                           (clamp_0_100 score
                            + sentiment_adjustment (s_label sent) (s_score sent)))
                        (classification_of score))
                     (clamp_0_100
                        (clamp_0_100 score
                         + sentiment_adjustment (s_label sent) (s_score sent)))
                     (py_min (s_score sent * 100) 95) reasoning)).
Proof.
  intros processed score. unfold classify_claim_body. fold processed.
  destruct (is_empty (strip processed)) eqn:Eempty.
  { left. split; reflexivity. }
  right.
  destruct (heuristics_unfold processed evidence_snippets) as [reasoning ->].
  fold score.
  destruct (classifier self) as [model |] eqn:Ecl.
  - destruct (model processed) as [sent | e] eqn:Em.
    + right. split; [reflexivity |].
      destruct (combine_unfold (classification_of score) (clamp_0_100 score)
                               reasoning sent) as [reasoning' Hc].
      exists model, sent, reasoning'. split; [reflexivity |]. split; [exact Em |].
      cbn [bind]. rewrite Hc. reflexivity.
    + left. split; [reflexivity |]. split.
      * right. exists model, e. split; [exact Ecl | exact Em].
      * cbn [bind try_except].
        rewrite getitem_heuristic_classification, getitem_heuristic_reliability.
        reflexivity.
  - left. split; [reflexivity |]. split.
    + left. exact Ecl.
    + rewrite getitem_heuristic_classification, getitem_heuristic_reliability.
      reflexivity.
Qed.

Lemma classify_claim_shape
      (self : service) (claim_text : str) (evidence_snippets : option (list str)) :
  exists l score confidence reasoning,
    classify_claim self claim_text evidence_snippets
    = result_dict l score confidence reasoning.
Proof.
  unfold classify_claim.
  destruct (classify_claim_cases self claim_text evidence_snippets)
    as [[_ Hb] | [[_ [_ Hb]] | [_ [model [sent [reasoning [_ [_ Hb]]]]]]]];
    rewrite Hb; cbn [try_except]; eexists _, _, _, _; reflexivity.
Qed.

(** C3.  [classify_claim] returns a result for every claim and every list
    of snippets.  When its body fails, the result is Unverified with score 0
    and confidence 0, and the reasoning carries the text of the exception.
    The score is in [0,100] in every case, and so is the confidence, the
    confidence of the signal being a probability. *)
Theorem classify_total_and_bounded
        (self : service) (claim_text : str) (evidence_snippets : option (list str))
        (Hsignal : classifier_in_unit self) :
  exists l score confidence reasoning,
    classify_claim self claim_text evidence_snippets
    = result_dict l score confidence reasoning
    /\ 0 <= score <= 100
    /\ 0 <= confidence <= 100
    /\ forall e,
         classify_claim_body self claim_text evidence_snippets = Raise e ->
         l = L_Unverified /\ score = 0 /\ confidence = 0
         /\ reasoning = [Txt "Classification error: "; Txt (str_of_exn e)].
Proof.
  unfold classify_claim.
  destruct (classify_claim_cases self claim_text evidence_snippets)
    as [[_ Hb] | [[_ [_ Hb]] | [_ [model [sent [reasoning [Hcl [Hm Hb]]]]]]]];
    rewrite Hb; cbn [try_except].
  - eexists _, _, _, _. split; [reflexivity |].
    split; [split; discriminate |]. split; [split; discriminate |].
    intros e He. discriminate He.
  - eexists _, _, _, _. split; [reflexivity |].
    split; [split; discriminate |]. split; [split; discriminate |].
    intros e He. injection He as <-. repeat split; reflexivity.
  - eexists _, _, _, _. split; [reflexivity |].
    destruct (Hsignal model _ sent Hcl Hm) as [Hs0 Hs1].
    split; [apply clamp_bounds |]. split; [| intros e He; discriminate He].
    destruct (py_min_cases (s_score sent * 100) 95) as [[-> Hle] | [-> _]].
    + split; lra.
    + split; discriminate.
Qed.

(** C4.  Without the sentiment signal the result is Unverified with score 0
    and confidence 0, whatever the heuristic analysis found: the dictionary
    of the heuristic analysis has the key "score" and neither
    "reliability_score" nor "confidence", so the read of "reliability_score"
    raises a [KeyError], which the handler turns into the default result. *)
Theorem degraded_without_sentiment
        (self : service) (claim_text : str) (evidence_snippets : option (list str))
        (Hnone : sentiment_unavailable self (preprocess_for_embedding claim_text)) :
  let heuristic_result :=
    _analyze_claim_heuristics (preprocess_for_embedding claim_text) evidence_snippets in
  (exists score, heuristic_result !! "score" = Some (VFloat score))
  /\ heuristic_result !! "reliability_score" = None
  /\ heuristic_result !! "confidence" = None
  /\ (is_empty (strip (preprocess_for_embedding claim_text)) = false ->
      classify_claim_body self claim_text evidence_snippets
      = Raise (KeyError "reliability_score")
      /\ classify_claim self claim_text evidence_snippets
         = result_dict L_Unverified 0 0
             [Txt "Classification error: "; Txt "'reliability_score'"])
  /\ exists reasoning,
      classify_claim self claim_text evidence_snippets
      = result_dict L_Unverified 0 0 reasoning.
Proof.
  intros heuristic_result. subst heuristic_result.
  destruct (heuristics_unfold (preprocess_for_embedding claim_text) evidence_snippets)
    as [reasoning ->].
  split; [eexists; reflexivity |].
  split; [reflexivity |]. split; [reflexivity |].
  unfold classify_claim.
  destruct (classify_claim_cases self claim_text evidence_snippets)
    as [[He Hb] | [[He [_ Hb]] | [He [model [sent [r [Hcl [Hm Hb]]]]]]]].
  - split; [intros Hne; congruence |].
    rewrite Hb. eexists. reflexivity.
  - split.
    + intros _. split; [exact Hb |]. rewrite Hb. reflexivity.
    + rewrite Hb. eexists. reflexivity.
  - exfalso. destruct Hnone as [Hn | [model' [e [Hcl' Hm']]]]; [congruence |].
    rewrite Hcl in Hcl'. injection Hcl' as <-. congruence.
Qed.

Lemma heuristic_score_no_trigger (processed : str) (evidence_snippets : option (list str)) :
  no_lexical_trigger processed = true ->
  has_evidence evidence_snippets = false ->
  fst (heuristic_score processed evidence_snippets) = 50 - 20.
Proof.
  unfold no_lexical_trigger. intros Ht Hev.
  repeat (apply andb_prop in Ht; destruct Ht as [Ht ?]).
  repeat match goal with
         | Hx : negb _ = true |- _ => apply negb_true_iff in Hx
         end.
  unfold heuristic_score, extract_claim_features.
  cbn [has_caps sentences word_count].
  repeat match goal with
         | Hx : _ = false |- _ => rewrite Hx; clear Hx
         end.
  reflexivity.
Qed.

(** C8, as the code has it.  For a claim that fires none of the lexical
    rules and has no snippet of evidence, the heuristic score is 50 - 20 = 30
    and [classify_claim] returns a result whose score is at most 32: at most
    30 unless the signal is positive, and 30 + 2 x confidence at most when it
    is. *)
Theorem no_evidence_score_bound
        (self : service) (claim_text : str) (evidence_snippets : option (list str))
        (Hsignal : classifier_in_unit self)
        (Hevidence : has_evidence evidence_snippets = false)
        (Hquiet : no_lexical_trigger (preprocess_for_embedding claim_text) = true) :
  fst (heuristic_score (preprocess_for_embedding claim_text) evidence_snippets) == 30
  /\ exists l score confidence reasoning,
      classify_claim self claim_text evidence_snippets
      = result_dict l score confidence reasoning
      /\ 0 <= score <= 32
      /\ (sentiment_unavailable self (preprocess_for_embedding claim_text) ->
          score <= 30)
      /\ forall model sent,
           classifier self = Some model ->
           model (preprocess_for_embedding claim_text) = Ok sent ->
           (signal_of (s_label sent) <> Positive -> score <= 30)
           /\ score <= 30 + 2 * s_score sent.
Proof.
  pose proof (heuristic_score_no_trigger _ evidence_snippets Hquiet Hevidence) as Hs.
  split; [rewrite Hs; reflexivity |].
  unfold classify_claim.
  destruct (classify_claim_cases self claim_text evidence_snippets)
    as [[_ Hb] | [[_ [Hun Hb]] | [_ [model [sent [r [Hcl [Hm Hb]]]]]]]];
    rewrite Hb; cbn [try_except].
  - eexists _, _, _, _. split; [reflexivity |].
    split; [split; discriminate |]. split; [intros _; discriminate |].
    intros model sent Hcl Hm.
    destruct (Hsignal model _ sent Hcl Hm) as [Hs0 Hs1]. split; [discriminate | lra].
  - eexists _, _, _, _. split; [reflexivity |].
    split; [split; discriminate |]. split; [intros _; discriminate |].
    intros model sent Hcl Hm.
    destruct (Hsignal model _ sent Hcl Hm) as [Hs0 Hs1]. split; [discriminate | lra].
  - eexists _, _, _, _. split; [reflexivity |].
    rewrite Hs. rewrite sentiment_adjustment_spec.
    destruct (Hsignal model _ sent Hcl Hm) as [Hs0 Hs1].
    assert (Hbase : clamp_0_100 (50 - 20) == 30) by reflexivity.
    split; [| split].
    + split; [apply clamp_bounds |].
      apply clamp_le; [discriminate |]. rewrite Hbase.
      destruct (signal_of (s_label sent)); cbn [adjustment_of]; lra.
    + intros [Hnone | [model' [e [Hcl' Hm']]]]; exfalso; [congruence |].
      rewrite Hcl in Hcl'. injection Hcl' as <-. congruence.
    + intros model' sent' Hcl' Hm'.
      rewrite Hcl in Hcl'. injection Hcl' as <-.
      rewrite Hm in Hm'. injection Hm' as <-.
      split.
      * intros Hnp. apply clamp_le; [discriminate |]. rewrite Hbase.
        destruct (signal_of (s_label sent)); cbn [adjustment_of];
          [lra | lra | congruence].
      * apply clamp_le; [lra |]. rewrite Hbase.
        destruct (signal_of (s_label sent)); cbn [adjustment_of]; lra.
Qed.
End Classify.
End ClassificationFacts.

(** ** The evidence retriever and the snippet extractor *)
Module RetrievalFacts.
Import TextProcessor Database DatabaseService RetrievalService RetrievalSpec.
Local Open Scope Q_scope.

Lemma format_result_hybrid (entry : Z * unified) :
  hybrid_score (format_result entry)
  = (7 # 10) * vector_score (format_result entry)
    + (3 # 10) * keyword_score (format_result entry).
Proof.
  destruct entry as [source_id result]. unfold format_result.
  destruct (u_source result); reflexivity.
Qed.

Lemma rerank_In (claim : str) (vector_results : list hit)
      (keyword_results : list keyword_match) (max_results : nat) (e : evidence) :
  In e (_combine_and_rerank claim vector_results keyword_results max_results) ->
  exists entry, e = format_result entry.
Proof.
  unfold _combine_and_rerank. intros He.
  apply In_firstn in He. apply sort_desc_In in He.
  apply in_map_iff in He. destruct He as [entry [<- _]].
  exists entry. reflexivity.
Qed.

Lemma rerank_descending (claim : str) (vector_results : list hit)
      (keyword_results : list keyword_match) (max_results : nat) :
  descending hybrid_score
    (_combine_and_rerank claim vector_results keyword_results max_results).
Proof.
  unfold _combine_and_rerank. apply descending_firstn, sort_desc_descending.
Qed.

(** C5, as the code has it.  With the weights 0.7 and 0.3 a source with
    vector score 0.9 and keyword score 0.0 has the hybrid score 0.63, a
    source with vector score 0.5 and keyword score 1.0 has 0.65, and the
    second stands before the first in the fused output. *)
Theorem fused_ranking_fixture
        (claim : str) (vector_results : list hit)
        (keyword_results : list keyword_match) (max_results : nat)
        (i j : nat) (a b : evidence)
        (Ha : nth_error (_combine_and_rerank claim vector_results keyword_results
                                             max_results) i = Some a)
        (Hb : nth_error (_combine_and_rerank claim vector_results keyword_results
                                             max_results) j = Some b)
        (Hav : vector_score a == 9 # 10) (Hak : keyword_score a == 0)
        (Hbv : vector_score b == 5 # 10) (Hbk : keyword_score b == 1) :
  hybrid_score a == 63 # 100 /\ hybrid_score b == 65 # 100 /\ (j < i)%nat.
Proof.
  destruct (rerank_In _ _ _ _ a (nth_error_In _ _ Ha)) as [ea Hea].
  destruct (rerank_In _ _ _ _ b (nth_error_In _ _ Hb)) as [eb Heb].
  assert (Hsa : hybrid_score a == 63 # 100).
  { rewrite Hea, format_result_hybrid, <- Hea. rewrite Hav, Hak. reflexivity. }
  assert (Hsb : hybrid_score b == 65 # 100).
  { rewrite Heb, format_result_hybrid, <- Heb. rewrite Hbv, Hbk. reflexivity. }
  split; [exact Hsa |]. split; [exact Hsb |].
  destruct (Nat.lt_trichotomy i j) as [Hlt | [Heq | Hgt]]; [| | exact Hgt]; exfalso.
  - pose proof (descending_nth hybrid_score _ i j a b
                  (rerank_descending _ _ _ _) Hlt Ha Hb) as Hle.
    rewrite Hsa, Hsb in Hle. revert Hle. apply Qlt_not_le. reflexivity.
  - subst j. rewrite Ha in Hb. injection Hb as <-.
    rewrite Hav in Hbv. discriminate Hbv.
Qed.

Section Retrieve.
Context `{HtmlParser}.

Lemma keyword_search_no_sources (claim : str) (db : Session) (limit : nat) :
  query_fact_sources db = Ok [] -> _keyword_search claim db limit = [].
Proof.
  intros Hq. unfold _keyword_search.
  destruct (extract_keywords claim 5) as [| k ks]; [reflexivity |].
  rewrite Hq. cbn [bind flat_map sort_desc try_except].
  destruct limit; reflexivity.
Qed.

Lemma generate_embedding_unavailable
      (embedding_service : EmbeddingService.service) (claim : str) :
  embedding_unavailable embedding_service claim ->
  exists e, EmbeddingService.generate_embedding embedding_service claim = Raise e.
Proof.
  unfold EmbeddingService.generate_embedding.
  intros [-> | [encode [e [-> He]]]].
  - eexists. reflexivity.
  - destruct (is_empty claim || is_empty (strip claim)).
    + eexists. reflexivity.
    + exists e. exact He.
Qed.

Lemma od_set_nonempty (k : Z) (v : unified) (d : odict) : od_set k v d <> [].
Proof.
  destruct d as [| [k' v'] r]; cbn [od_set]; [discriminate |].
  destruct (k =? k')%Z; discriminate.
Qed.

Lemma add_vector_nonempty (hits : list hit) (d : odict) :
  hits <> [] \/ d <> [] -> fold_left add_vector_result hits d <> [].
Proof.
  revert d. induction hits as [| h r IH]; intros d Hne; cbn [fold_left].
  - destruct Hne as [Hne | Hne]; [contradiction | exact Hne].
  - apply IH. right. apply od_set_nonempty.
Qed.

Lemma rerank_nonempty (claim : str) (hits : list hit) (max_results : nat) :
  hits <> [] -> (0 < max_results)%nat ->
  _combine_and_rerank claim hits [] max_results <> [].
Proof.
  intros Hhits Hmax. unfold _combine_and_rerank. cbn [fold_left].
  pose proof (add_vector_nonempty hits [] (or_introl Hhits)) as Hd.
  set (d := fold_left add_vector_result hits []) in *.
  pose proof (Permutation_length (sort_desc_perm hybrid_score (map format_result d)))
    as Hlen.
  rewrite List.length_map in Hlen.
  destruct (sort_desc hybrid_score (map format_result d)) as [| e es].
  - destruct d; [contradiction | discriminate Hlen].
  - destruct max_results; [lia | discriminate].
Qed.

(** C2, as the code has it.  When the embedding provider is not there or
    raises, [retrieve_evidence] returns the empty list: the results of the
    keyword channel are not returned.  With an empty table of fact sources
    it returns the ranking of the points of the vector index alone: the
    empty list when the index returns no point, and a list that is not empty
    when the index returns one.  It raises in no case: the result is a
    list. *)
Theorem retrieve_evidence_degraded
        (embedding_service : EmbeddingService.service)
        (db_service : DatabaseService.service)
        (claim : str) (db : Session) (max_results : nat) :
  (embedding_unavailable embedding_service claim ->
   retrieve_evidence embedding_service db_service claim db max_results = [])
  /\ (empty_table db ->
      (index_silent db_service ->
       retrieve_evidence embedding_service db_service claim db max_results = [])
      /\ forall claim_embedding hits,
          EmbeddingService.generate_embedding embedding_service claim
          = Ok claim_embedding ->
          search_similar_embeddings db_service claim_embedding (max_results * 2)
          = Ok hits ->
          retrieve_evidence embedding_service db_service claim db max_results
          = _combine_and_rerank claim hits [] max_results
          /\ (hits <> [] -> (0 < max_results)%nat ->
              retrieve_evidence embedding_service db_service claim db max_results
              <> [])).
Proof.
  split.
  - intros Hemb. unfold retrieve_evidence.
    destruct (generate_embedding_unavailable _ _ Hemb) as [e ->]. reflexivity.
  - intros Hsources.
    assert (Hhits : forall claim_embedding hits,
               EmbeddingService.generate_embedding embedding_service claim
               = Ok claim_embedding ->
               search_similar_embeddings db_service claim_embedding (max_results * 2)
               = Ok hits ->
               retrieve_evidence embedding_service db_service claim db max_results
               = _combine_and_rerank claim hits [] max_results).
    { intros claim_embedding hits Hgen Hsearch. unfold retrieve_evidence.
      rewrite Hgen. cbn [bind]. rewrite Hsearch. cbn [bind try_except].
      rewrite (keyword_search_no_sources _ _ _ Hsources). reflexivity. }
    split.
    + intros Hindex. clear Hhits. unfold retrieve_evidence.
      destruct (EmbeddingService.generate_embedding embedding_service claim)
        as [claim_embedding | e]; [| reflexivity].
      cbn [bind]. unfold search_similar_embeddings.
      destruct (qdrant_client db_service) as [search |] eqn:Eq; [| reflexivity].
      rewrite (Hindex search claim_embedding (max_results * 2)%nat Eq).
      cbn [bind map].
      rewrite (keyword_search_no_sources _ _ _ Hsources).
      unfold _combine_and_rerank. cbn [fold_left map sort_desc try_except].
      destruct max_results; reflexivity.
    + intros claim_embedding hits Hgen Hsearch.
      rewrite (Hhits claim_embedding hits Hgen Hsearch).
      split; [reflexivity | apply rerank_nonempty].
Qed.

Lemma relevant_of_nil (claim_keywords : list str) (sentences : list str) :
  relevant_of claim_keywords sentences = [] ->
  Forall (fun t => overlap claim_keywords t = 0%nat) sentences.
Proof.
  induction sentences as [| t r IH]; intros Hr; [constructor |].
  cbn [relevant_of flat_map] in Hr.
  destruct (0 <? overlap claim_keywords t)%nat eqn:E; [discriminate Hr |].
  apply Nat.ltb_ge in E. constructor; [lia | apply IH, Hr].
Qed.

Lemma relevant_of_split (claim_keywords : list str) (sentences : list str)
      (pre' post' : list (str * nat)) (s : str) (n : nat) :
  relevant_of claim_keywords sentences = pre' ++ (s, n) :: post' ->
  exists pre post,
    sentences = pre ++ s :: post
    /\ relevant_of claim_keywords pre = pre'
    /\ relevant_of claim_keywords post = post'
    /\ n = overlap claim_keywords s /\ (0 < n)%nat.
Proof.
  revert pre'. induction sentences as [| t r IH]; intros pre' Hr.
  - destruct pre'; discriminate Hr.
  - cbn [relevant_of flat_map] in Hr.
    destruct (0 <? overlap claim_keywords t)%nat eqn:E.
    + destruct pre' as [| p pre'].
      * cbn in Hr. injection Hr as <- <- Hpost. apply Nat.ltb_lt in E.
        exists [], r. repeat split; [exact Hpost | exact E].
      * cbn in Hr. injection Hr as <- Hr.
        destruct (IH pre' Hr) as [pre [post [-> [Hp [Hq [Hn H0]]]]]].
        exists (t :: pre), post. split; [reflexivity |].
        split; [| repeat split; assumption].
        cbn [relevant_of flat_map]. rewrite E. cbn. f_equal. exact Hp.
    + cbn in Hr. destruct (IH pre' Hr) as [pre [post [-> [Hp [Hq [Hn H0]]]]]].
      exists (t :: pre), post. split; [reflexivity |].
      split; [| repeat split; assumption].
      cbn [relevant_of flat_map]. rewrite E. exact Hp.
Qed.

Lemma relevant_of_bound (claim_keywords : list str) (sentences : list str)
      (bound : nat) (strict : bool) :
  (0 < bound)%nat ->
  Forall (fun x : str * nat =>
            if strict then (snd x < bound)%nat else (snd x <= bound)%nat)
         (relevant_of claim_keywords sentences) ->
  Forall (fun t => if strict then (overlap claim_keywords t < bound)%nat
                   else (overlap claim_keywords t <= bound)%nat) sentences.
Proof.
  intros Hb. induction sentences as [| t r IH]; intros Hall; [constructor |].
  cbn [relevant_of flat_map] in Hall.
  destruct (0 <? overlap claim_keywords t)%nat eqn:E.
  - cbn in Hall. inversion Hall as [| ? ? Ht Hr]; subst.
    constructor; [exact Ht | apply IH, Hr].
  - apply Nat.ltb_ge in E. constructor; [| apply IH, Hall].
    destruct strict; lia.
Qed.

Lemma Qlt_of_nat (a b : nat) :
  (inject_Z (Z.of_nat a) < inject_Z (Z.of_nat b))%Q <-> (a < b)%nat.
Proof. rewrite <- Zlt_Qlt. lia. Qed.

Lemma Qle_of_nat (a b : nat) :
  (inject_Z (Z.of_nat a) <= inject_Z (Z.of_nat b))%Q <-> (a <= b)%nat.
Proof. rewrite <- Zle_Qle. lia. Qed.

Lemma truncate_is_truncation (max_len : nat) (s : str) :
  is_truncation max_len s (truncate max_len s).
Proof.
  unfold truncate, is_truncation.
  destruct (max_len <? length s)%nat eqn:E.
  - right. apply Nat.ltb_lt in E. split; [exact E | reflexivity].
  - left. apply Nat.ltb_ge in E. split; [exact E | reflexivity].
Qed.

(** What one candidate adds to the list of snippets. *)
Lemma add_snippet_cases (claim_keywords : list str) (max_len : nat)
      (acc : list str) (c : evidence) :
  (add_snippet claim_keywords max_len acc c = acc
   /\ Forall (fun t => overlap claim_keywords t = 0%nat) (extract_sentences (e_content c)))
  \/ (exists s snippet,
        add_snippet claim_keywords max_len acc c = acc ++ [snippet]
        /\ best_sentence claim_keywords (extract_sentences (e_content c)) s
        /\ is_truncation max_len s snippet).
Proof.
  unfold add_snippet.
  destruct (is_empty (e_content c)) eqn:Ec.
  { left. split; [reflexivity |].
    destruct (e_content c); [constructor | discriminate Ec]. }
  change (relevant_sentences claim_keywords (e_content c))
    with (relevant_of claim_keywords (extract_sentences (e_content c))).
  set (sentences := extract_sentences (e_content c)).
  destruct (sort_desc _ (relevant_of claim_keywords sentences))
    as [| [snippet_text n] rest] eqn:Es.
  - left. split; [reflexivity |].
    apply relevant_of_nil. apply (sort_desc_nil _ _ Es).
  - right. exists snippet_text, (truncate max_len snippet_text).
    split; [reflexivity |]. split; [| apply truncate_is_truncation].
    destruct (sort_desc_head _ _ _ _ Es) as [pre' [post' [Hrel [Hpre Hpost]]]].
    destruct (relevant_of_split _ _ _ _ _ _ Hrel)
      as [pre [post [Hsent [Hp [Hq [Hn H0]]]]]].
    exists pre, post. subst n pre' post'. cbn [snd] in Hpre, Hpost.
    split; [exact Hsent |]. split; [exact H0 |]. split.
    + apply (relevant_of_bound claim_keywords pre _ true H0).
      apply (List.Forall_impl (P := fun y : str * nat =>
               (inject_Z (Z.of_nat (snd y))
                < inject_Z (Z.of_nat (overlap claim_keywords snippet_text)))%Q));
        [| exact Hpre].
      intros y Hy. apply Qlt_of_nat, Hy.
    + apply (relevant_of_bound claim_keywords post _ false H0).
      apply (List.Forall_impl (P := fun y : str * nat =>
               (inject_Z (Z.of_nat (snd y))
                <= inject_Z (Z.of_nat (overlap claim_keywords snippet_text)))%Q));
        [| exact Hpost].
      intros y Hy. apply Qle_of_nat, Hy.
Qed.

Lemma add_snippet_app (claim_keywords : list str) (max_len : nat)
      (acc : list str) (c : evidence) :
  add_snippet claim_keywords max_len acc c
  = acc ++ add_snippet claim_keywords max_len [] c.
Proof.
  unfold add_snippet.
  destruct (is_empty (e_content c)); [symmetry; apply app_nil_r |].
  destruct (sort_desc _ _) as [| [snippet_text n] rest];
    [symmetry; apply app_nil_r | reflexivity].
Qed.

Lemma snippets_loop (claim_keywords : list str) (max_len : nat)
      (cs : list evidence) (acc : list str) :
  fold_left (add_snippet claim_keywords max_len) cs acc
  = acc ++ fold_left (add_snippet claim_keywords max_len) cs [].
Proof.
  revert acc. induction cs as [| c cs IH]; intros acc; cbn [fold_left].
  - symmetry. apply app_nil_r.
  - rewrite (IH (add_snippet claim_keywords max_len acc c)).
    rewrite (IH (add_snippet claim_keywords max_len [] c)).
    rewrite (add_snippet_app claim_keywords max_len acc c).
    symmetry. apply app_assoc.
Qed.

(** C7, as the code has it.  The snippets come in the order of the
    candidates, at most one for each candidate: none for a candidate whose
    content has no sentence with a keyword of the claim (an empty content, no
    sentence of more than ten characters, or no sentence that matches), and
    for any other candidate the sentence with the highest number of the top
    three keywords of the claim, the earliest among equals, cut to [max_len]
    characters with "..." appended when it was longer. *)
Theorem extract_snippets_spec
        (claim : str) (retrieved_sources : list evidence) (max_snippet_length : nat) :
  snippets_of (extract_keywords claim 3) max_snippet_length retrieved_sources
    (extract_evidence_snippets claim retrieved_sources max_snippet_length)
  /\ (length (extract_evidence_snippets claim retrieved_sources max_snippet_length)
      <= length retrieved_sources)%nat.
Proof.
  unfold extract_evidence_snippets.
  set (kws := extract_keywords claim 3).
  induction retrieved_sources as [| c cs [IHs IHl]]; cbn [fold_left].
  - split; [constructor | apply Nat.le_refl].
  - rewrite snippets_loop.
    destruct (add_snippet_cases kws max_snippet_length [] c)
      as [[-> Hnone] | [s [snippet [-> [Hbest Htrunc]]]]].
    + cbn [app]. split; [apply snippets_skip; assumption |].
      cbn [length]. lia.
    + cbn [app]. split; [apply (snippets_take _ _ _ _ _ s); assumption |].
      cbn [length]. lia.
Qed.
End Retrieve.
End RetrievalFacts.

(** ** The analysis orchestrator *)
Module AnalysisFacts.
Import TextProcessor ClassificationService RetrievalService AnalysisService.
Import ClassificationFacts.

Section Batch.
Context `{HtmlParser}.
Variable World : Type.
Variable embedding_service : EmbeddingService.service.
Variable classification_service : ClassificationService.service.
Variable tick : World -> World * Z.
Variable store_claim : World -> str -> option str -> World * res claim_record.
Variable store_embedding :
  World -> Z -> EmbeddingService.embedding -> gmap string aval -> World * res unit.
Variable db_service : World -> DatabaseService.service.
Variable session : World -> Database.Session.
Variable update_claim_results :
  World -> Z -> pyval -> pyval -> list str -> World * res unit.
Variable _log_processing : World -> Z -> string -> string -> details -> Z -> World.

Abbreviation analyze :=
  (analyze_claim World embedding_service classification_service tick store_claim
                 store_embedding db_service session update_claim_results
                 _log_processing).
Abbreviation step :=
  (batch_step World embedding_service classification_service tick store_claim
              store_embedding db_service session update_claim_results
              _log_processing).
Abbreviation batch :=
  (analyze_claims_batch World embedding_service classification_service tick
                        store_claim store_embedding db_service session
                        update_claim_results _log_processing).
Abbreviation fails := (analysis_fails World embedding_service tick store_claim).
Abbreviation outcome :=
  (claim_outcome World embedding_service classification_service tick store_claim
                 store_embedding db_service session).
Abbreviation stateless := (stateless_stores World store_claim db_service session).
Abbreviation failure := (on_failure World tick _log_processing).

Lemma on_failure_result (start_time : Z) (claim_id : option Z) (claim_text : str)
      (source_url : option str) (e : exn) (w : World) :
  snd (failure start_time claim_id claim_text source_url e w) !! "claim"
  = Some (AStr claim_text)
  /\ degraded (snd (failure start_time claim_id claim_text source_url e w)).
Proof.
  unfold on_failure. destruct (tick w) as [w1 now]. cbn [snd].
  split; [reflexivity |]. repeat split; reflexivity.
Qed.

(** The result of [analyze_claim] is for the claim it was given. *)
Lemma analyze_claim_claim (claim_text : str) (source_url : option str) (w : World) :
  snd (analyze claim_text source_url w) !! "claim" = Some (AStr claim_text).
Proof.
  unfold analyze_claim.
  destruct (tick w) as [w0 start_time].
  destruct (is_empty claim_text || is_empty (strip claim_text));
    [apply on_failure_result |].
  destruct (store_claim w0 claim_text source_url) as [w1 [record | e]];
    [| apply on_failure_result].
  destruct (EmbeddingService.generate_embedding embedding_service claim_text)
    as [claim_embedding | e]; [| apply on_failure_result].
  destruct (store_embedding w1 _ _ _) as [w2 stored].
  destruct (classify_claim_shape classification_service claim_text
              (Some (extract_evidence_snippets claim_text
                       (retrieve_evidence embedding_service (db_service w2)
                          claim_text (session w2) 5) 200)))
    as [l [score [confidence [reasoning ->]]]].
  change (getitem (result_dict l score confidence reasoning) "classification")
    with (Ok (VLabel l)).
  change (getitem (result_dict l score confidence reasoning) "reliability_score")
    with (Ok (VFloat score)).
  change (getitem (result_dict l score confidence reasoning) "confidence")
    with (Ok (VFloat confidence)).
  change (getitem (result_dict l score confidence reasoning) "reasoning")
    with (Ok (VText reasoning)).
  cbn [bind].
  destruct (update_claim_results w2 _ _ _ _) as [w3 updated].
  destruct (tick w3) as [w4 now]. cbn [snd]. reflexivity.
Qed.

(** A claim that cannot be stored or embedded gets the degraded result. *)
Lemma analyze_claim_degraded (claim_text : str) (source_url : option str) (w : World) :
  (exists e, snd (store_claim (fst (tick w)) claim_text source_url) = Raise e)
  \/ (exists e, EmbeddingService.generate_embedding embedding_service claim_text
                = Raise e) ->
  degraded (snd (analyze claim_text source_url w)).
Proof.
  intros Hfail. unfold analyze_claim.
  destruct (tick w) as [w0 start_time]. cbn [fst] in Hfail.
  destruct (is_empty claim_text || is_empty (strip claim_text));
    [apply on_failure_result |].
  destruct (store_claim w0 claim_text source_url) as [w1 [record | e]];
    [| apply on_failure_result].
  destruct (EmbeddingService.generate_embedding embedding_service claim_text)
    as [claim_embedding | e]; [| apply on_failure_result].
  exfalso. destruct Hfail as [[e He] | [e He]]; discriminate He.
Qed.

Lemma batch_step_facts (claim_data : gmap string str) (w : World) :
  snd (step claim_data w) !! "claim" = Some (AStr (claim_text_of claim_data))
  /\ (fails claim_data w -> degraded (snd (step claim_data w)))
  /\ (is_empty (strip (claim_text_of claim_data)) = true ->
      fst (step claim_data w) = w).
Proof.
  unfold batch_step, analysis_fails, claim_text_of.
  set (claim_text := match claim_data !! "text" with Some t => t | None => [] end).
  destruct (is_empty (strip claim_text)) eqn:Eblank.
  - cbn [fst snd]. split; [reflexivity |].
    split; [intros _; repeat split; reflexivity | reflexivity].
  - split; [apply analyze_claim_claim |]. split.
    + intros [Hblank | Hfail].
      { change (is_empty (strip claim_text) = true) in Hblank. congruence. }
      apply analyze_claim_degraded, Hfail.
    + intros Hblank. change (is_empty (strip claim_text) = true) in Hblank.
      congruence.
Qed.

Lemma batch_loop (claims : list (gmap string str)) (w : World)
      (acc : list (gmap string aval)) :
  fold_left
    (fun '(w, results) claim_data =>
       let '(w, result) := step claim_data w in (w, results ++ [result]))
    claims (w, acc)
  = (fst (batch claims w), acc ++ snd (batch claims w)).
Proof.
  unfold analyze_claims_batch.
  revert w acc. induction claims as [| c cs IH]; intros w acc; cbn [fold_left].
  - cbn [fst snd]. rewrite app_nil_r. reflexivity.
  - destruct (step c w) as [w1 r]. rewrite (IH w1 (acc ++ [r])).
    rewrite (IH w1 ([] ++ [r])). cbn [fst snd app].
    rewrite <- app_assoc. reflexivity.
Qed.

Lemma batch_cons (c : gmap string str) (cs : list (gmap string str)) (w : World) :
  batch (c :: cs) w
  = (fst (batch cs (fst (step c w))), snd (step c w) :: snd (batch cs (fst (step c w)))).
Proof.
  unfold analyze_claims_batch at 1. cbn [fold_left].
  destruct (step c w) as [w1 r]. cbn [fst snd app].
  rewrite batch_loop. reflexivity.
Qed.

Lemma batch_app (before after : list (gmap string str)) (w : World) :
  snd (batch (before ++ after) w)
  = snd (batch before w) ++ snd (batch after (fst (batch before w))).
Proof.
  revert w. induction before as [| c cs IH]; intros w; [reflexivity |].
  cbn [app]. rewrite !batch_cons. cbn [fst snd app]. rewrite IH. reflexivity.
Qed.

Lemma on_failure_fields (start_time : Z) (claim_id : option Z) (claim_text : str)
      (source_url : option str) (e : exn) (w : World) :
  snd (failure start_time claim_id claim_text source_url e w) !! "claim"
  = Some (AStr claim_text)
  /\ snd (failure start_time claim_id claim_text source_url e w) !! "source_url"
     = Some (of_option_str source_url)
  /\ snd (failure start_time claim_id claim_text source_url e w) !! "claim_id"
     = Some (of_option_id claim_id)
  /\ degraded (snd (failure start_time claim_id claim_text source_url e w)).
Proof.
  unfold on_failure. destruct (tick w) as [w1 now]. cbn [snd].
  split; [reflexivity |]. split; [reflexivity |]. split; [reflexivity |].
  repeat split; reflexivity.
Qed.

Lemma on_failure_verdict (start_time : Z) (claim_id : option Z) (claim_text : str)
      (source_url : option str) (e : exn) (w : World) :
  verdict (snd (failure start_time claim_id claim_text source_url e w))
  = verdict (failed_result None claim_text
               [Txt "Analysis failed: "; Txt (str_of_exn e)] source_url 0).
Proof.
  unfold on_failure. destruct (tick w) as [w1 now]. cbn [snd].
  unfold verdict, failed_result. reflexivity.
Qed.

(** The result of [analyze_claim] on a claim whose text is not blank. *)
Lemma analyze_claim_outcome (claim_data : gmap string str) (w : World) :
  is_empty (strip (claim_text_of claim_data)) = false ->
  outcome w claim_data
    (snd (analyze (claim_text_of claim_data) (claim_data !! "source_url") w))
    (fst (analyze (claim_text_of claim_data) (claim_data !! "source_url") w)).
Proof.
  intros Hblank. unfold claim_outcome. rewrite Hblank.
  set (claim_text := claim_text_of claim_data) in *.
  set (source_url := claim_data !! "source_url").
  assert (Hempty : is_empty claim_text = false).
  { destruct claim_text; [discriminate Hblank | reflexivity]. }
  unfold analyze_claim.
  destruct (tick w) as [w0 start_time]. cbn [fst].
  rewrite Hempty, Hblank. cbn [orb].
  destruct (store_claim w0 claim_text source_url) as [w1 [record | e]].
  2:{ destruct (on_failure_fields start_time None claim_text source_url
                  (Exception ("Database error: " ++ str_of_exn e)) w1)
        as [Hc [Hu [Hid Hd]]].
      repeat split; assumption || apply Hd. }
  destruct (EmbeddingService.generate_embedding embedding_service claim_text)
    as [claim_embedding | e].
  2:{ destruct (on_failure_fields start_time (Some (cr_id record)) claim_text source_url
                  (Exception ("Embedding generation error: " ++ str_of_exn e)) w1)
        as [Hc [Hu [Hid Hd]]].
      split; [exact Hc |]. split; [exact Hu |]. split; [exact Hid | exact Hd]. }
  set (metadata := <["claim_id" := AInt (cr_id record)]> _).
  destruct (store_embedding w1 (cr_id record) claim_embedding metadata)
    as [w2 stored] eqn:Estore.
  set (sources := retrieve_evidence embedding_service (db_service w2)
                    claim_text (session w2) 5).
  set (snippets := extract_evidence_snippets claim_text sources 200).
  destruct (classify_claim_shape classification_service claim_text (Some snippets))
    as [l [score [confidence [reasoning Hverdict]]]].
  rewrite Hverdict.
  change (getitem (result_dict l score confidence reasoning) "classification")
    with (Ok (VLabel l)).
  change (getitem (result_dict l score confidence reasoning) "reliability_score")
    with (Ok (VFloat score)).
  change (getitem (result_dict l score confidence reasoning) "confidence")
    with (Ok (VFloat confidence)).
  change (getitem (result_dict l score confidence reasoning) "reasoning")
    with (Ok (VText reasoning)).
  cbn [bind].
  destruct (update_claim_results w2 _ _ _ _) as [w3 updated].
  destruct (tick w3) as [w4 now]. cbn [snd].
  split; [reflexivity |]. split; [reflexivity |]. split; [reflexivity |].
  exists metadata, l, score, confidence, reasoning.
  rewrite Estore. cbn [fst]. fold sources. fold snippets.
  split; [exact Hverdict |]. repeat split; reflexivity.
Qed.

(** One round of the loop, in the words of the specification. *)
Lemma batch_step_outcome (claim_data : gmap string str) (w : World) :
  outcome w claim_data (snd (step claim_data w)) (fst (step claim_data w)).
Proof.
  destruct (is_empty (strip (claim_text_of claim_data))) eqn:Hblank.
  - unfold claim_outcome, batch_step.
    change (match claim_data !! "text" with Some t => t | None => [] end)
      with (claim_text_of claim_data).
    rewrite Hblank. cbn [fst snd].
    split; [reflexivity |]. split; [reflexivity |]. split; [reflexivity |].
    split; [repeat split; reflexivity | reflexivity].
  - pose proof (analyze_claim_outcome claim_data w Hblank) as Hout.
    unfold batch_step.
    change (match claim_data !! "text" with Some t => t | None => [] end)
      with (claim_text_of claim_data).
    rewrite Hblank. exact Hout.
Qed.

(** With stores that answer alike in every state, the verdict on a claim
    does not depend on the state. *)
Lemma analyze_claim_verdict (Hstores : stateless) (claim_text : str)
      (source_url : option str) (w w' : World) :
  verdict (snd (analyze claim_text source_url w))
  = verdict (snd (analyze claim_text source_url w')).
Proof.
  destruct Hstores as [Hstore [Hindex Hsession]].
  unfold analyze_claim.
  destruct (tick w) as [w0 start_time], (tick w') as [w0' start_time'].
  destruct (is_empty claim_text || is_empty (strip claim_text));
    [rewrite !on_failure_verdict; reflexivity |].
  specialize (Hstore w0 w0' claim_text source_url).
  destruct (store_claim w0 claim_text source_url) as [w1 [record | e]],
           (store_claim w0' claim_text source_url) as [w1' [record' | e']];
    cbn [snd store_outcome] in Hstore; try discriminate Hstore.
  2:{ injection Hstore as <-. rewrite !on_failure_verdict. reflexivity. }
  destruct (EmbeddingService.generate_embedding embedding_service claim_text)
    as [claim_embedding | e]; [| rewrite !on_failure_verdict; reflexivity].
  destruct (store_embedding w1 _ _ _) as [w2 stored].
  destruct (store_embedding w1' _ _ _) as [w2' stored'].
  rewrite (Hindex w2' w2), (Hsession w2' w2).
  set (sources := retrieve_evidence embedding_service (db_service w2)
                    claim_text (session w2) 5).
  set (snippets := extract_evidence_snippets claim_text sources 200).
  destruct (classify_claim_shape classification_service claim_text (Some snippets))
    as [l [score [confidence [reasoning ->]]]].
  change (getitem (result_dict l score confidence reasoning) "classification")
    with (Ok (VLabel l)).
  change (getitem (result_dict l score confidence reasoning) "reliability_score")
    with (Ok (VFloat score)).
  change (getitem (result_dict l score confidence reasoning) "confidence")
    with (Ok (VFloat confidence)).
  change (getitem (result_dict l score confidence reasoning) "reasoning")
    with (Ok (VText reasoning)).
  cbn [bind].
  destruct (update_claim_results w2 _ _ _ _) as [w3 updated].
  destruct (update_claim_results w2' _ _ _ _) as [w3' updated'].
  destruct (tick w3) as [w4 now], (tick w3') as [w4' now']. cbn [snd].
  unfold verdict, success_result. reflexivity.
Qed.

Lemma batch_step_verdict_stateless (Hstores : stateless)
      (claim_data : gmap string str) (w w' : World) :
  verdict (snd (step claim_data w)) = verdict (snd (step claim_data w')).
Proof.
  unfold batch_step.
  change (match claim_data !! "text" with Some t => t | None => [] end)
    with (claim_text_of claim_data).
  destruct (is_empty (strip (claim_text_of claim_data))); [reflexivity |].
  apply analyze_claim_verdict, Hstores.
Qed.

Lemma batch_app_world (before after : list (gmap string str)) (w : World) :
  fst (batch (before ++ after) w) = fst (batch after (fst (batch before w))).
Proof.
  revert w. induction before as [| c cs IH]; intros w; [reflexivity |].
  cbn [app]. rewrite !batch_cons. cbn [fst]. apply IH.
Qed.

Lemma batch_length (claims : list (gmap string str)) (w : World) :
  length (snd (batch claims w)) = length claims.
Proof.
  revert w. induction claims as [| c cs IH]; intros w; [reflexivity |].
  rewrite batch_cons. cbn [snd length]. rewrite IH. reflexivity.
Qed.

Lemma batch_without_blanks (claims : list (gmap string str)) (w : World) :
  snd (batch (List.filter analysed claims) w)
  = map snd (List.filter (fun p => analysed (fst p))
                         (combine claims (snd (batch claims w))))
  /\ fst (batch (List.filter analysed claims) w) = fst (batch claims w).
Proof.
  revert w. induction claims as [| c cs IH]; intros w; [split; reflexivity |].
  rewrite (batch_cons c cs w).
  cbn [List.filter snd fst combine].
  destruct (batch_step_facts c w) as [_ [_ Hskip]].
  destruct (analysed c) eqn:Ha.
  - rewrite batch_cons. cbn [fst snd map].
    destruct (IH (fst (step c w))) as [IHr IHw].
    split; [f_equal; exact IHr | exact IHw].
  - unfold analysed in Ha. apply negb_false_iff in Ha.
    rewrite (Hskip Ha). apply IH.
Qed.

End Batch.
End AnalysisFacts.

(** ** More on the text feature extractor *)
Module TextExtras.
Import TextProcessor TextSpec TextFacts ExtraSpec.

(** The filter of a list by a boolean test. *)
Lemma filter_bool {A : Type} (f : A -> bool) (l : list A) :
  filter (fun x => Is_true (f x)) l = List.filter f l.
Proof.
  induction l as [| x r IH]; [reflexivity |].
  rewrite filter_cons. cbn [List.filter]. rewrite IH.
  destruct (f x) eqn:E.
  - destruct (decide (Is_true true)) as [_ | Hn]; [reflexivity |].
    exfalso. apply Hn. exact I.
  - destruct (decide (Is_true false)) as [Hf | _]; [destruct Hf | reflexivity].
Qed.

Lemma filter_Forall {A : Type} (P : A -> Prop) (f : A -> bool) (l : list A) :
  Forall P l -> Forall (fun x => f x = true /\ P x) (List.filter f l).
Proof.
  induction 1 as [| x r Hx Hr IH]; cbn [List.filter]; [constructor |].
  destruct (f x) eqn:E; [constructor; [split; assumption | exact IH] | exact IH].
Qed.

Lemma re_split_Forall (P : ascii -> Prop) (sep : ascii -> bool) (in_run : bool) (s : str) :
  Forall P s ->
  Forall (Forall (fun c => sep c = false /\ P c)) (re_split sep in_run s).
Proof.
  intros Hs. revert in_run.
  induction Hs as [| c r Hc Hr IH]; intros in_run; cbn [re_split].
  - constructor; constructor.
  - destruct (sep c) eqn:E.
    + destruct in_run; [apply IH |]. constructor; [constructor | apply IH].
    + specialize (IH false). destruct (re_split sep false r) as [| p ps].
      * constructor; [| constructor]. constructor; [split; assumption | constructor].
      * inversion IH as [| ? ? Hp Hps]; subst.
        constructor; [| exact Hps]. constructor; [split; assumption | exact Hp].
Qed.

Lemma strip_trimmed (s : str) :
  starts_with_space (strip s) = false /\ ends_with_space (strip s) = false.
Proof.
  unfold strip, lstrip. split; [apply rstrip_starts, drop_while_starts | apply rstrip_ends].
Qed.

Lemma extract_sentences_Forall (P : ascii -> Prop) (text : str) :
  Forall P text ->
  Forall (fun s => (10 < length s)%nat
                   /\ Forall (fun c => is_terminator c = false /\ P c) s
                   /\ starts_with_space s = false
                   /\ ends_with_space s = false)
         (extract_sentences text).
Proof.
  intros Htext.
  unfold extract_sentences. destruct (is_empty text); [constructor |].
  rewrite (filter_bool (fun s => negb (is_empty (strip s))
                                 && (10 <? length (strip s))%nat)).
  pose proof (re_split_Forall P is_terminator false text Htext) as Hpieces.
  apply (filter_Forall _ (fun s => negb (is_empty (strip s))
                                   && (10 <? length (strip s))%nat)) in Hpieces.
  apply List.Forall_forall. intros s Hs.
  apply in_map_iff in Hs. destruct Hs as [piece [<- Hin]].
  apply (proj1 (List.Forall_forall _ _) Hpieces) in Hin.
  destruct Hin as [Hkeep Hchars].
  apply andb_prop in Hkeep. destruct Hkeep as [_ Hlen]. apply Nat.ltb_lt in Hlen.
  split; [exact Hlen |]. split; [apply strip_Forall, Hchars |].
  apply strip_trimmed.
Qed.

(** X1.  Every sentence [extract_sentences] returns has more than ten
    characters, holds none of the terminators [.], [!], [?], has no
    whitespace at either end, and is made of characters of the text. *)
Theorem extract_sentences_shape (text : str) :
  Forall (fun s => (10 < length s)%nat
                   /\ Forall (fun c => is_terminator c = false /\ In c text) s
                   /\ starts_with_space s = false
                   /\ ends_with_space s = false)
         (extract_sentences text).
Proof.
  apply (extract_sentences_Forall (fun c => In c text)).
  apply List.Forall_forall. intros c Hc. exact Hc.
Qed.

Lemma find_words_Forall (P : ascii -> Prop) (cur s : str) :
  Forall (fun c => is_word c = true /\ P c) cur ->
  Forall P s ->
  Forall (Forall (fun c => is_word c = true /\ P c)) (find_words cur s).
Proof.
  intros Hcur Hs. revert cur Hcur.
  induction Hs as [| c r Hc Hr IH]; intros cur Hcur; cbn [find_words].
  - destruct cur as [| d cur']; [constructor |].
    constructor; [| constructor]. apply List.Forall_rev, Hcur.
  - destruct (is_word c) eqn:E.
    + apply IH. constructor; [split; assumption | exact Hcur].
    + destruct cur as [| d cur']; [apply IH; constructor |].
      constructor; [apply List.Forall_rev, Hcur | apply IH; constructor].
Qed.

Lemma lower_Forall (s : str) : Forall (fun c => lower_char c = c) (lower s).
Proof.
  unfold lower. apply List.Forall_forall. intros c Hc.
  apply in_map_iff in Hc. destruct Hc as [d [<- _]]. apply lower_char_idempotent.
Qed.

Lemma tokenize_Forall (text : str) (remove_stopwords : bool) :
  Forall (fun t => (2 < length t)%nat
                   /\ Forall (fun c => is_word c = true /\ lower_char c = c) t
                   /\ (remove_stopwords = true -> in_list t stop_words = false))
         (tokenize text remove_stopwords).
Proof.
  unfold tokenize. destruct (is_empty text); [constructor |].
  pose proof (find_words_Forall (fun c => lower_char c = c) [] (lower text)
                (List.Forall_nil _) (lower_Forall text)) as Hwords.
  rewrite (filter_bool (fun t : str => (2 <? length t)%nat)).
  destruct remove_stopwords.
  - rewrite (filter_bool (fun t => negb (in_list t stop_words))).
    apply (filter_Forall _ (fun t => negb (in_list t stop_words))) in Hwords.
    apply (filter_Forall _ (fun t : str => (2 <? length t)%nat)) in Hwords.
    apply (List.Forall_impl (P := fun t : str =>
             (2 <? length t)%nat = true
             /\ negb (in_list t stop_words) = true
             /\ Forall (fun c => is_word c = true /\ lower_char c = c) t));
      [| exact Hwords].
    intros t [Hlen [Hstop Hchars]]. apply Nat.ltb_lt in Hlen.
    apply negb_true_iff in Hstop.
    split; [exact Hlen |]. split; [exact Hchars | intros _; exact Hstop].
  - apply (filter_Forall _ (fun t : str => (2 <? length t)%nat)) in Hwords.
    apply (List.Forall_impl (P := fun t : str =>
             (2 <? length t)%nat = true
             /\ Forall (fun c => is_word c = true /\ lower_char c = c) t));
      [| exact Hwords].
    intros t [Hlen Hchars]. apply Nat.ltb_lt in Hlen.
    split; [exact Hlen |]. split; [exact Hchars | discriminate].
Qed.

(** X2.  Every token [tokenize] returns has more than two characters, all
    of them word characters in lower case; with [remove_stopwords] no token
    is a stop word. *)
Theorem tokenize_shape (text : str) (remove_stopwords : bool) :
  Forall (fun t => (2 < length t)%nat
                   /\ Forall (fun c => is_word c = true /\ lower_char c = c) t
                   /\ (remove_stopwords = true -> in_list t stop_words = false))
         (tokenize text remove_stopwords).
Proof. apply tokenize_Forall. Qed.

(** The keys of a counter: a token that is counted keeps its place, a new
    one goes to the end. *)
Lemma count_up_keys (x : str) (cs : list (str * nat)) :
  map fst (count_up x cs)
  = if in_list x (map fst cs) then map fst cs else map fst cs ++ [x].
Proof.
  induction cs as [| [y n] r IH]; [reflexivity |].
  cbn [count_up map fst in_list existsb]. fold (in_list x (map fst r)).
  destruct (str_eqb x y) eqn:E; [reflexivity |].
  cbn [map fst orb]. rewrite IH.
  destruct (in_list x (map fst r)); reflexivity.
Qed.

Lemma str_eqb_eq (a b : str) : str_eqb a b = true <-> a = b.
Proof.
  unfold str_eqb. destruct (List.list_eq_dec ascii_dec a b); split; congruence.
Qed.

Lemma in_list_In (x : str) (l : list str) : in_list x l = true <-> In x l.
Proof.
  unfold in_list. rewrite existsb_exists. split.
  - intros [y [Hy E]]. apply str_eqb_eq in E. subst y. exact Hy.
  - intros Hx. exists x. split; [exact Hx | apply str_eqb_eq; reflexivity].
Qed.

Lemma counter_keys (tokens : list str) (cs : list (str * nat)) :
  List.NoDup (map fst cs) ->
  List.NoDup (map fst (fold_left (fun cs t => count_up t cs) tokens cs))
  /\ forall k, In k (map fst (fold_left (fun cs t => count_up t cs) tokens cs)) ->
               In k (map fst cs) \/ In k tokens.
Proof.
  revert cs. induction tokens as [| t r IH]; intros cs Hcs; cbn [fold_left].
  - split; [exact Hcs | intros k Hk; left; exact Hk].
  - assert (Hstep : List.NoDup (map fst (count_up t cs))).
    { rewrite count_up_keys. destruct (in_list t (map fst cs)) eqn:E; [exact Hcs |].
      apply List.NoDup_app; [exact Hcs | constructor; [intros [] | constructor] |].
      intros k Hk [<- | []]. apply in_list_In in Hk. congruence. }
    destruct (IH (count_up t cs) Hstep) as [Hnd Hin]. split; [exact Hnd |].
    intros k Hk. destruct (Hin k Hk) as [Hc | Hr]; [| right; right; exact Hr].
    rewrite count_up_keys in Hc. destruct (in_list t (map fst cs)); [left; exact Hc |].
    apply in_app_or in Hc. destruct Hc as [Hc | [<- | []]];
      [left; exact Hc | right; left; reflexivity].
Qed.

Lemma NoDup_firstn {A : Type} (n : nat) (l : list A) :
  List.NoDup l -> List.NoDup (firstn n l).
Proof.
  revert l. induction n as [| n IH]; intros l Hl; [constructor |].
  destruct l as [| x r]; [constructor |].
  inversion Hl as [| ? ? Hx Hr]; subst. cbn [firstn].
  constructor; [| apply IH, Hr]. intros Hin. apply Hx. apply (In_firstn n r x Hin).
Qed.

Section Keywords.
Context `{HtmlParser}.

(** X3.  [extract_keywords] returns at most [max_keywords] keywords, no
    keyword twice; every keyword has more than two characters, all of them
    word characters in lower case, and is not a stop word. *)
Theorem extract_keywords_shape (text : str) (max_keywords : nat) :
  (length (extract_keywords text max_keywords) <= max_keywords)%nat
  /\ List.NoDup (extract_keywords text max_keywords)
  /\ Forall (fun k => (2 < length k)%nat
                      /\ Forall (fun c => is_word c = true /\ lower_char c = c) k
                      /\ in_list k stop_words = false)
            (extract_keywords text max_keywords).
Proof.
  unfold extract_keywords.
  destruct (is_empty text); [split; [apply Nat.le_0_l | split; constructor] |].
  unfold most_common, counter.
  set (tokens := tokenize (clean_text text) true).
  set (cs := fold_left (fun cs t => count_up t cs) tokens []).
  set (sorted := sort_desc (fun p : str * nat => inject_Z (Z.of_nat (snd p))) cs).
  destruct (counter_keys tokens [] (List.NoDup_nil _)) as [Hnd Hin]. fold cs in Hnd, Hin.
  assert (Hperm : Permutation (map fst cs) (map fst sorted)).
  { apply Permutation_map. apply sort_desc_perm. }
  split; [rewrite List.length_map; apply List.firstn_le_length |].
  rewrite <- List.firstn_map. split.
  - apply NoDup_firstn. apply (Permutation_NoDup Hperm Hnd).
  - apply List.Forall_forall. intros k Hk.
    apply In_firstn in Hk. apply (Permutation_in _ (Permutation_sym Hperm)) in Hk.
    destruct (Hin k Hk) as [[] | Htok].
    pose proof (tokenize_Forall (clean_text text) true) as Hshape.
    apply (proj1 (List.Forall_forall _ _) Hshape) in Htok.
    destruct Htok as [Hlen [Hchars Hstop]].
    split; [exact Hlen |]. split; [exact Hchars | apply Hstop; reflexivity].
Qed.

(** X4.  The text [clean_text] returns is in normal form: word characters
    and the punctuation [.!?,;:] only, words set apart by single spaces, no
    space at either end, and no upper-case letter. *)
Theorem clean_text_normal_form (text : str) :
  is_clean_text (clean_text text) = true
  /\ lower (clean_text text) = clean_text text.
Proof.
  destruct (clean_text_shape text) as [Hplain [Hlower [Hsingle [Hstart Hend]]]].
  split; [| apply lower_fixed, Hlower].
  unfold is_clean_text.
  rewrite (forallb_forall_plain _ Hplain), Hsingle, Hstart, Hend. reflexivity.
Qed.
End Keywords.

Lemma collapse_spaces_kept (keep : ascii -> bool) (Q : ascii -> Prop)
      (in_run : bool) (s : str) :
  (forall c, keep c = true -> is_space c = false -> Q c) ->
  Q " "%char ->
  Forall (fun c => keep c = true) s ->
  Forall Q (collapse_spaces in_run s).
Proof.
  intros Hkeep Hsp Hs. revert in_run.
  induction Hs as [| c r Hc Hr IH]; intros in_run; cbn [collapse_spaces]; [constructor |].
  destruct (is_space c) eqn:Es.
  - destruct in_run; [apply IH | constructor; [exact Hsp | apply IH]].
  - constructor; [apply Hkeep; assumption | apply IH].
Qed.

Lemma blank_unless_kept (keep : ascii -> bool) (s : str) :
  keep " "%char = true -> Forall (fun c => keep c = true) (blank_unless keep s).
Proof.
  intros Hsp. unfold blank_unless. apply List.Forall_forall. intros c Hc.
  apply in_map_iff in Hc. destruct Hc as [d [<- _]].
  destruct (keep d) eqn:E; [exact E | exact Hsp].
Qed.

Lemma join_spaces_Forall (P : ascii -> Prop) (l : list str) :
  P " "%char -> Forall (Forall P) l -> Forall P (join_spaces l).
Proof.
  intros Hsp Hl. destruct Hl as [| x r Hx Hr]; [constructor |].
  cbn [join_spaces]. apply List.Forall_app. split; [exact Hx |].
  induction Hr as [| y r' Hy Hr' IH]; [constructor |].
  cbn [flat_map]. constructor; [exact Hsp |].
  apply List.Forall_app. split; [exact Hy | exact IH].
Qed.

Lemma firstn_Forall {A : Type} (P : A -> Prop) (n : nat) (l : list A) :
  Forall P l -> Forall P (firstn n l).
Proof.
  intros Hl. apply List.Forall_forall. intros x Hx.
  apply (proj1 (List.Forall_forall _ _) Hl). apply (In_firstn n l x Hx).
Qed.

Lemma embedding_char_of_kept (c : ascii) :
  keep_embedding c = true -> is_space c = false -> is_embedding_char c = true.
Proof.
  unfold keep_embedding, keep_clean, is_embedding_char. intros Hc Hs.
  rewrite Hs, orb_false_r in Hc.
  apply orb_prop in Hc. destruct Hc as [Hc | ->]; [| rewrite !orb_true_r; reflexivity].
  apply orb_prop in Hc. destruct Hc as [Hc | ->]; [| rewrite !orb_true_r; reflexivity].
  rewrite Hc. reflexivity.
Qed.

Section Embedding.
Context `{HtmlParser}.

(** X5.  The text [preprocess_for_embedding] returns is made of word
    characters, the punctuation [.!?,;:], hyphens, apostrophes and spaces,
    and has no whitespace at either end, so that stripping it again changes
    nothing. *)
Theorem preprocess_for_embedding_shape (text : str) :
  Forall (fun c => is_embedding_char c = true) (preprocess_for_embedding text)
  /\ starts_with_space (preprocess_for_embedding text) = false
  /\ ends_with_space (preprocess_for_embedding text) = false
  /\ strip (preprocess_for_embedding text) = preprocess_for_embedding text.
Proof.
  assert (Hmain : Forall (fun c => is_embedding_char c = true)
                         (preprocess_for_embedding text)
                  /\ starts_with_space (preprocess_for_embedding text) = false
                  /\ ends_with_space (preprocess_for_embedding text) = false).
  { unfold preprocess_for_embedding.
    destruct (is_empty text); [repeat split; constructor |].
    set (u := remove_matches match_email 0 (remove_matches match_url 0 (clean_html text))).
    set (w := collapse_spaces false (blank_unless keep_embedding u)).
    assert (Hw : Forall (fun c => is_embedding_char c = true) w).
    { unfold w. apply (collapse_spaces_kept keep_embedding).
      - exact embedding_char_of_kept.
      - reflexivity.
      - apply blank_unless_kept. reflexivity. }
    split; [| apply strip_trimmed].
    apply strip_Forall.
    destruct (1000 <? length w)%nat; [| exact Hw].
    apply join_spaces_Forall; [reflexivity |]. apply firstn_Forall.
    pose proof (extract_sentences_Forall _ w Hw) as Hs.
    apply (List.Forall_impl (P := fun s : str =>
             (10 < length s)%nat
             /\ Forall (fun c => is_terminator c = false /\ is_embedding_char c = true) s
             /\ starts_with_space s = false /\ ends_with_space s = false));
      [| exact Hs].
    intros s [_ [Hc _]].
    apply (List.Forall_impl (P := fun c => is_terminator c = false
                                         /\ is_embedding_char c = true));
      [| exact Hc].
    intros c [_ Hc']. exact Hc'. }
  destruct Hmain as [Hchars [Hstart Hend]].
  repeat split; try assumption. apply strip_fixed; assumption.
Qed.
End Embedding.
End TextExtras.

(** ** More on the heuristic classifier *)
Module ClassificationExtras.
Import TextProcessor ClassificationService Spec ClassificationFacts ExtraSpec.
Local Open Scope Q_scope.

Lemma snippet_step_range (quality_score : Q) (snippet : str) :
  quality_score <= snippet_step quality_score snippet <= quality_score + 20.
Proof.
  unfold snippet_step.
  destruct (100 <? length snippet)%nat;
    destruct (any_in source_indicators (lower snippet));
    destruct (any_in recent_years snippet);
    destruct (any_in statistic_markers snippet); split; lra.
Qed.

Lemma snippet_loop_range (snippets : list str) (quality_score : Q) :
  quality_score <= fold_left snippet_step snippets quality_score
  <= quality_score + 20 * inject_Z (Z.of_nat (length snippets)).
Proof.
  revert quality_score. induction snippets as [| s r IH]; intros q.
  - cbn [fold_left length]. change (inject_Z (Z.of_nat 0)) with 0. split; lra.
  - cbn [fold_left]. destruct (IH (snippet_step q s)) as [Hlo Hhi].
    destruct (snippet_step_range q s) as [Hq1 Hq2].
    replace (inject_Z (Z.of_nat (length (s :: r))))
      with (inject_Z (Z.of_nat (length r) + 1)).
    2:{ f_equal. cbn [length]. lia. }
    rewrite inject_Z_plus. change (inject_Z 1) with 1. split; lra.
Qed.

(** X6.  The evidence score is -20 without evidence; with evidence it lies
    between 0 and the cap 25, and is at most 20 for each snippet. *)
Theorem evidence_quality_range (evidence_snippets : option (list str)) :
  if has_evidence evidence_snippets
  then 0 <= _analyze_evidence_quality evidence_snippets <= 25
       /\ exists snippets,
           evidence_snippets = Some snippets
           /\ _analyze_evidence_quality evidence_snippets
              <= 20 * inject_Z (Z.of_nat (length snippets))
  else _analyze_evidence_quality evidence_snippets = -20.
Proof.
  destruct evidence_snippets as [[| s r] |]; cbn [has_evidence]; try reflexivity.
  unfold _analyze_evidence_quality.
  destruct (snippet_loop_range (s :: r) 0) as [Hlo Hhi].
  destruct (py_min_cases (fold_left snippet_step (s :: r) 0) 25) as [[-> Hle] | [-> Hlt]].
  - split; [split; assumption |]. exists (s :: r). split; [reflexivity | lra].
  - split; [split; [discriminate | apply Qle_refl] |].
    exists (s :: r). split; [reflexivity | lra].
Qed.

Lemma evidence_quality_bounds (evidence_snippets : option (list str)) :
  has_evidence evidence_snippets = true ->
  0 <= _analyze_evidence_quality evidence_snippets <= 25.
Proof.
  destruct evidence_snippets as [[| s r] |]; cbn [has_evidence]; try discriminate.
  intros _. unfold _analyze_evidence_quality.
  destruct (snippet_loop_range (s :: r) 0) as [Hlo _].
  destruct (py_min_cases (fold_left snippet_step (s :: r) 0) 25) as [[-> Hle] | [-> Hlt]].
  - split; assumption.
  - split; [discriminate | apply Qle_refl].
Qed.

Lemma fire_fst (cond : bool) (delta : Q) (phrase : string) (st : Q * list text) :
  fst (fire cond delta phrase st) = if cond then fst st + delta else fst st.
Proof. destruct cond; reflexivity. Qed.

Lemma fire_snd_nonempty (cond : bool) (delta : Q) (phrase : string)
      (st : Q * list text) :
  snd st <> [] -> snd (fire cond delta phrase st) <> [].
Proof.
  destruct cond; cbn [fire snd]; [| exact (fun Hs => Hs)].
  intros _ Hnil. apply app_eq_nil in Hnil. destruct Hnil as [_ Hnil]. discriminate Hnil.
Qed.

Section Heuristics.
Context `{HtmlParser}.

(** X7.  The heuristic score before clamping lies between -26 and 108;
    with evidence it is at least -6 and without evidence at most 63.  The
    reasoning always has at least one part, the one of the evidence step, so
    the phrase for an analysis without findings is never used. *)
Theorem heuristic_score_range (claim : str) (evidence_snippets : option (list str)) :
  -26 <= fst (heuristic_score claim evidence_snippets) <= 108
  /\ (if has_evidence evidence_snippets
      then -6 <= fst (heuristic_score claim evidence_snippets)
      else fst (heuristic_score claim evidence_snippets) <= 63)
  /\ snd (heuristic_score claim evidence_snippets) <> []
  /\ _analyze_claim_heuristics claim evidence_snippets !! "reasoning"
     = Some (VText (join_parts (snd (heuristic_score claim evidence_snippets)))).
Proof.
  assert (Hparts : snd (heuristic_score claim evidence_snippets) <> []).
  { unfold heuristic_score. cbv zeta.
    destruct (has_evidence evidence_snippets); cbn [snd];
      intros Hnil; apply app_eq_nil in Hnil; destruct Hnil as [_ Hnil];
      discriminate Hnil. }
  assert (Hrange : -26 <= fst (heuristic_score claim evidence_snippets) <= 108
                   /\ (if has_evidence evidence_snippets
                       then -6 <= fst (heuristic_score claim evidence_snippets)
                       else fst (heuristic_score claim evidence_snippets) <= 63)).
  { unfold heuristic_score. cbv zeta.
    pose proof (evidence_quality_bounds evidence_snippets) as Hev.
    destruct (has_evidence evidence_snippets); cbn [fst];
      [specialize (Hev eq_refl) | clear Hev];
      rewrite !fire_fst; cbn [fst];
      repeat match goal with
             | |- context [if ?c then _ else _] => destruct c
             end; repeat split; lra. }
  destruct Hrange as [Hr1 Hr2].
  split; [exact Hr1 |]. split; [exact Hr2 |]. split; [exact Hparts |].
  unfold _analyze_claim_heuristics.
  destruct (heuristic_score claim evidence_snippets) as [score parts].
  cbn [snd] in Hparts |- *. destruct parts; [contradiction | reflexivity].
Qed.
End Heuristics.

Import ContextAnalysis.

Lemma max_by_count_In (best : option str) (candidates xs : list (option str)) :
  In (max_by_count best candidates xs) (best :: candidates).
Proof.
  revert best. induction candidates as [| c rest IH]; intros best; cbn [max_by_count].
  - left. reflexivity.
  - destruct (count_of best xs <? count_of c xs)%nat.
    + right. apply IH.
    + destruct (IH best) as [Hb | Hr]; [left; exact Hb | right; right; exact Hr].
Qed.

Lemma class_eqb_refl (a : option str) : class_eqb a a = true.
Proof.
  destruct a as [x |]; [| reflexivity]. cbn [class_eqb]. unfold str_eqb.
  destruct (List.list_eq_dec ascii_dec x x); [reflexivity | contradiction].
Qed.

Section Context.
Context `{HtmlParser}.

Lemma classify_claim_bounds
      (self : service) (claim_text : str) (evidence_snippets : option (list str)) :
  exists l score confidence reasoning,
    classify_claim self claim_text evidence_snippets
    = result_dict l score confidence reasoning
    /\ 0 <= score <= 100 /\ confidence <= 95.
Proof.
  unfold classify_claim.
  destruct (classify_claim_cases self claim_text evidence_snippets)
    as [[_ Hb] | [[_ [_ Hb]] | [_ [model [sent [reasoning [_ [_ Hb]]]]]]]];
    rewrite Hb; cbn [try_except]; eexists _, _, _, _; (split; [reflexivity |]).
  - split; [split |]; discriminate.
  - split; [split |]; discriminate.
  - split; [apply clamp_bounds |].
    destruct (py_min_cases (s_score sent * 100) 95) as [[-> Hle] | [-> _]];
      [exact Hle | apply Qle_refl].
Qed.

(** X8.  [analyze_claim_with_context] returns the classification and the
    reliability score of [classify_claim] unchanged; the confidence is never
    lowered and never above 95.  Without similar claims the whole result is
    the one of [classify_claim]; when every similar claim carries the
    classification of the claim, the confidence is raised by 10, up to 95. *)
Theorem context_keeps_verdict
        (set_order : list (option str) -> list (option str))
        (Hsound : set_order_sound set_order)
        (self : service) (claim : str) (similar_claims : list (gmap string str)) :
  exists l score confidence reasoning confidence' reasoning',
    classify_claim self claim None = result_dict l score confidence reasoning
    /\ analyze_claim_with_context set_order self claim similar_claims
       = Ok (result_dict l score confidence' reasoning')
    /\ confidence <= confidence' <= 95
    /\ (similar_claims = [] -> confidence' = confidence /\ reasoning' = reasoning)
    /\ (similar_claims <> [] ->
        (forall c, In c similar_claims ->
                   c !! "classification" = Some (label_str l)) ->
        confidence' = py_min (confidence + 10) 95).
Proof.
  destruct (classify_claim_bounds self claim None)
    as [l [score [confidence [reasoning [Hbase [_ Hconf]]]]]].
  unfold analyze_claim_with_context. rewrite Hbase.
  destruct similar_claims as [| c0 cs].
  { exists l, score, confidence, reasoning, confidence, reasoning.
    split; [reflexivity |]. split; [reflexivity |].
    split; [split; [apply Qle_refl | exact Hconf] |].
    split; [intros _; split; reflexivity | intros Hne; contradiction]. }
  set (xs := map (fun c : gmap string str => c !! "classification") (c0 :: cs)).
  destruct (set_order xs) as [| first rest] eqn:Eorder.
  { exfalso. assert (Hin : In (c0 !! "classification") (set_order xs)).
    { apply Hsound. left. reflexivity. }
    rewrite Eorder in Hin. destruct Hin. }
  change (getitem (result_dict l score confidence reasoning) "classification")
    with (Ok (VLabel l)).
  cbn [bind as_label].
  destruct (class_eqb (max_by_count first rest xs) (Some (label_str l))) eqn:Eclass.
  - change (getitem (result_dict l score confidence reasoning) "confidence")
      with (Ok (VFloat confidence)).
    cbn [bind as_float].
    exists l, score, confidence, reasoning, (py_min (confidence + 10) 95),
      (reasoning ++ [Txt "; Consistent with "; Txt (decimal (length (c0 :: cs)));
                     Txt " similar claims"]).
    split; [reflexivity |]. split; [reflexivity |].
    split.
    + destruct (py_min_cases (confidence + 10) 95) as [[-> Hle] | [-> Hlt]];
        split; lra.
    + split; [intros Hnil; discriminate Hnil | intros _ _; reflexivity].
  - exists l, score, confidence, reasoning, confidence, reasoning.
    split; [reflexivity |]. split; [reflexivity |].
    split; [split; [apply Qle_refl | exact Hconf] |].
    split; [intros Hnil; discriminate Hnil |].
    intros _ Hall. exfalso.
    assert (Hmax : In (max_by_count first rest xs) xs).
    { apply Hsound. rewrite Eorder. apply max_by_count_In. }
    unfold xs in Hmax, Eclass. apply in_map_iff in Hmax.
    destruct Hmax as [c [Hc Hin]].
    rewrite (Hall c Hin) in Hc. rewrite <- Hc, class_eqb_refl in Eclass.
    discriminate Eclass.
Qed.
End Context.
End ClassificationExtras.


(** ** More on the evidence retriever *)
Module RetrievalExtras.
Import TextProcessor Database DatabaseService RetrievalService RetrievalSpec.
Import RetrievalFacts TextExtras ExtraRetrievalSpec.
Local Open Scope Q_scope.

Lemma od_mem_In (k : Z) (d : odict) : od_mem k d = true <-> In k (map fst d).
Proof.
  induction d as [| [k' v] r IH]; cbn [od_mem map fst In].
  - split; [discriminate | intros []].
  - rewrite orb_true_iff, IH, Z.eqb_eq. split; intros [Hk | Hk]; auto.
Qed.

Lemma od_set_keys (k : Z) (v : unified) (d : odict) :
  map fst (od_set k v d) = if od_mem k d then map fst d else map fst d ++ [k].
Proof.
  induction d as [| [k' v'] r IH]; [reflexivity |].
  cbn [od_set od_mem]. destruct (k =? k')%Z; [reflexivity |].
  cbn [map fst orb]. rewrite IH. destruct (od_mem k r); reflexivity.
Qed.

Lemma od_update_keys (k : Z) (f : unified -> unified) (d : odict) :
  map fst (od_update k f d) = map fst d.
Proof.
  induction d as [| [k' v'] r IH]; [reflexivity |].
  cbn [od_update]. destruct (k =? k')%Z; [reflexivity |].
  cbn [map fst]. rewrite IH. reflexivity.
Qed.

Lemma add_vector_keys (d : odict) (result : hit) :
  map fst (add_vector_result d result)
  = if od_mem (hit_id result) d then map fst d else map fst d ++ [hit_id result].
Proof. unfold add_vector_result. apply od_set_keys. Qed.

Lemma add_keyword_keys (d : odict) (result : keyword_match) :
  map fst (add_keyword_result d result)
  = if od_mem (km_id result) d then map fst d else map fst d ++ [km_id result].
Proof.
  unfold add_keyword_result. destruct (od_mem (km_id result) d) eqn:E.
  - apply od_update_keys.
  - rewrite od_set_keys, E. reflexivity.
Qed.

(** The keys of a dictionary filled by a loop: no key twice, and the keys
    are the old ones and the ones of the loop. *)
Lemma loop_keys {X : Type} (step : odict -> X -> odict) (key : X -> Z)
      (Hstep : forall d x,
          map fst (step d x)
          = if od_mem (key x) d then map fst d else map fst d ++ [key x])
      (xs : list X) (d : odict) :
  List.NoDup (map fst d) ->
  List.NoDup (map fst (fold_left step xs d))
  /\ forall k, In k (map fst (fold_left step xs d))
               <-> In k (map fst d) \/ In k (map key xs).
Proof.
  revert d. induction xs as [| x r IH]; intros d Hd; cbn [fold_left map].
  - split; [exact Hd |]. intros k. split; [left; assumption | intros [Hk | []]; exact Hk].
  - assert (Hnd : List.NoDup (map fst (step d x))).
    { rewrite Hstep. destruct (od_mem (key x) d) eqn:E; [exact Hd |].
      apply List.NoDup_app; [exact Hd | constructor; [intros [] | constructor] |].
      intros k Hk [<- | []]. apply od_mem_In in Hk. congruence. }
    destruct (IH (step d x) Hnd) as [Hnd' Hin]. split; [exact Hnd' |].
    intros k. rewrite Hin, Hstep. cbn [In].
    destruct (od_mem (key x) d) eqn:E.
    + apply od_mem_In in E. split; [intros [Hk | Hk]; auto | ].
      intros [Hk | [<- | Hk]]; auto.
    + rewrite in_app_iff. cbn [In]. split.
      * intros [[Hk | [<- | []]] | Hk]; auto.
      * intros [Hk | [<- | Hk]]; auto.
Qed.

Lemma unified_keys (vector_results : list hit) (keyword_results : list keyword_match) :
  let unified_results :=
    fold_left add_keyword_result keyword_results
      (fold_left add_vector_result vector_results []) in
  List.NoDup (map fst unified_results)
  /\ forall k, In k (map fst unified_results)
               <-> In k (map hit_id vector_results ++ map km_id keyword_results).
Proof.
  cbv zeta.
  destruct (loop_keys add_vector_result hit_id add_vector_keys vector_results []
              (List.NoDup_nil _)) as [Hv1 Hv2].
  destruct (loop_keys add_keyword_result km_id add_keyword_keys keyword_results _ Hv1)
    as [Hk1 Hk2].
  split; [exact Hk1 |]. intros k. rewrite Hk2, Hv2, in_app_iff. cbn [map In]. tauto.
Qed.

Lemma format_result_id (d : odict) : map e_source_id (map format_result d) = map fst d.
Proof.
  induction d as [| [k u] r IH]; [reflexivity |].
  cbn [map]. rewrite IH. f_equal.
  unfold format_result. destruct (u_source u); reflexivity.
Qed.

Lemma rerank_ids (claim : str) (vector_results : list hit)
      (keyword_results : list keyword_match) (max_results : nat) :
  exists all_results,
    _combine_and_rerank claim vector_results keyword_results max_results
    = firstn max_results all_results
    /\ descending hybrid_score all_results
    /\ List.NoDup (map e_source_id all_results)
    /\ forall k, In k (map e_source_id all_results)
                 <-> In k (map hit_id vector_results ++ map km_id keyword_results).
Proof.
  unfold _combine_and_rerank.
  set (d := fold_left add_keyword_result keyword_results
              (fold_left add_vector_result vector_results [])).
  destruct (unified_keys vector_results keyword_results) as [Hnd Hin]. fold d in Hnd, Hin.
  exists (sort_desc hybrid_score (map format_result d)).
  assert (Hperm : Permutation (map fst d)
                    (map e_source_id (sort_desc hybrid_score (map format_result d)))).
  { rewrite <- format_result_id. apply Permutation_map, sort_desc_perm. }
  split; [reflexivity |]. split; [apply sort_desc_descending |].
  split; [apply (Permutation_NoDup Hperm Hnd) |].
  intros k. rewrite <- Hin. split; apply Permutation_in;
    [apply Permutation_sym |]; exact Hperm.
Qed.

(** X9.  The fused list has as many entries as there are distinct source
    identifiers in the two channels, up to [max_results]; no source appears
    twice; the entries stand from the largest hybrid score down; every entry
    comes from one of the channels, and every source of the channels is there
    when [max_results] leaves room for all. *)
Theorem rerank_structure
        (claim : str) (vector_results : list hit)
        (keyword_results : list keyword_match) (max_results : nat) :
  let ids := map hit_id vector_results ++ map km_id keyword_results in
  let out := _combine_and_rerank claim vector_results keyword_results max_results in
  length out = Nat.min max_results (length (nodup Z.eq_dec ids))
  /\ List.NoDup (map e_source_id out)
  /\ descending hybrid_score out
  /\ Forall (fun e => In (e_source_id e) ids) out
  /\ ((length (nodup Z.eq_dec ids) <= max_results)%nat ->
      forall k, In k ids -> In k (map e_source_id out)).
Proof.
  intros ids out. subst out.
  destruct (rerank_ids claim vector_results keyword_results max_results)
    as [all [-> [Hdesc [Hnd Hin]]]]. fold ids in Hin.
  assert (Hlen : length all = length (nodup Z.eq_dec ids)).
  { rewrite <- (List.length_map e_source_id all).
    apply Permutation_length. apply Stdlib.Sorting.Permutation.NoDup_Permutation; [exact Hnd | apply List.NoDup_nodup |].
    intros k. rewrite Hin. symmetry. apply List.nodup_In. }
  split; [rewrite List.length_firstn, Hlen; reflexivity |].
  split; [rewrite <- List.firstn_map; apply NoDup_firstn, Hnd |].
  split; [apply descending_firstn, Hdesc |].
  split.
  - apply List.Forall_forall. intros e He. apply In_firstn in He.
    apply Hin. apply in_map. exact He.
  - intros Hroom k Hk. rewrite List.firstn_all2; [apply Hin, Hk | lia].
Qed.

Lemma format_result_hybrid_bounds (entry : Z * unified) :
  0 <= u_vector_score (snd entry) <= 1 ->
  0 <= u_keyword_score (snd entry) <= 1 ->
  0 <= hybrid_score (format_result entry) <= 1.
Proof.
  intros Hv Hk. rewrite format_result_hybrid.
  destruct entry as [k u]. unfold format_result. cbn [snd] in Hv, Hk.
  destruct (u_source u); cbn [vector_score keyword_score]; split; lra.
Qed.

(** X10.  The fusion is monotonic: raising the vector score or the keyword
    score of an entry never lowers its hybrid score.  With both scores in
    [0,1] the hybrid score is in [0,1]. *)
Theorem hybrid_score_monotone (a b : Z * unified)
        (Hvector : u_vector_score (snd a) <= u_vector_score (snd b))
        (Hkeyword : u_keyword_score (snd a) <= u_keyword_score (snd b)) :
  hybrid_score (format_result a) <= hybrid_score (format_result b)
  /\ (0 <= u_vector_score (snd a) <= 1 -> 0 <= u_keyword_score (snd a) <= 1 ->
      0 <= hybrid_score (format_result a) <= 1).
Proof.
  split; [| apply format_result_hybrid_bounds].
  rewrite !format_result_hybrid.
  destruct a as [ka ua], b as [kb ub]. unfold format_result.
  cbn [snd] in Hvector, Hkeyword.
  destruct (u_source ua), (u_source ub); cbn [vector_score keyword_score]; lra.
Qed.

Lemma od_set_Forall (P : Z * unified -> Prop) (k : Z) (v : unified) (d : odict) :
  Forall P d -> P (k, v) -> Forall P (od_set k v d).
Proof.
  intros Hd Hv. induction Hd as [| [k' v'] r Hx Hr IH]; cbn [od_set].
  - constructor; [exact Hv | constructor].
  - destruct (k =? k')%Z eqn:E.
    + apply Z.eqb_eq in E. subst k'. constructor; assumption.
    + constructor; assumption.
Qed.

Lemma od_update_Forall (P : Z * unified -> Prop) (k : Z) (f : unified -> unified)
      (d : odict) :
  Forall P d -> (forall u, P (k, u) -> P (k, f u)) -> Forall P (od_update k f d).
Proof.
  intros Hd Hf. induction Hd as [| [k' v'] r Hx Hr IH]; cbn [od_update].
  - constructor.
  - destruct (k =? k')%Z eqn:E.
    + apply Z.eqb_eq in E. subst k'. constructor; [apply Hf, Hx | exact Hr].
    + constructor; assumption.
Qed.


Lemma fold_left_inv {X : Type} (I : odict -> Prop) (step : odict -> X -> odict)
      (xs : list X) (d : odict) :
  (forall x, In x xs -> forall d, I d -> I (step d x)) ->
  I d -> I (fold_left step xs d).
Proof.
  revert d. induction xs as [| x r IH]; intros d Hstep Hd; [exact Hd |].
  cbn [fold_left]. apply IH.
  - intros y Hy. apply Hstep. right. exact Hy.
  - apply Hstep; [left; reflexivity | exact Hd].
Qed.

Lemma provenance_format (V K : list Z) (k : Z) (u : unified) :
  provenance V K (format_result (k, u))
  <-> match u_match_type u with
      | Vector => u_keyword_score u = 0 /\ In k V
      | Keyword => u_vector_score u = 0 /\ In k K /\ ~ In k V
      | Hybrid => In k K
      end.
Proof.
  unfold provenance, format_result. destruct (u_source u); reflexivity.
Qed.

Lemma unified_provenance (vector_results : list hit)
      (keyword_results : list keyword_match) :
  Forall (fun entry => provenance (map hit_id vector_results)
                                  (map km_id keyword_results) (format_result entry))
         (fold_left add_keyword_result keyword_results
            (fold_left add_vector_result vector_results [])).
Proof.
  set (V := map hit_id vector_results). set (K := map km_id keyword_results).
  set (P := fun entry : Z * unified => provenance V K (format_result entry)).
  assert (Hvec : Forall P (fold_left add_vector_result vector_results [])).
  { apply (fold_left_inv (Forall P)); [| constructor].
    intros x Hx d Hd. unfold add_vector_result. apply od_set_Forall; [exact Hd |].
    unfold P. apply provenance_format. cbn.
    split; [reflexivity | apply in_map, Hx]. }
  destruct (loop_keys add_vector_result hit_id add_vector_keys vector_results []
              (List.NoDup_nil _)) as [_ Hkeys].
  assert (Hboth : Forall P (fold_left add_keyword_result keyword_results
                              (fold_left add_vector_result vector_results []))
                  /\ forall k, In k V ->
                               In k (map fst (fold_left add_keyword_result keyword_results
                                                (fold_left add_vector_result
                                                   vector_results [])))).
  { apply (fold_left_inv (fun d => Forall P d /\ forall k, In k V -> In k (map fst d))).
    - intros x Hx d [Hd Hsup]. split.
      + unfold add_keyword_result. destruct (od_mem (km_id x) d) eqn:E.
        * apply od_update_Forall; [exact Hd |]. intros u _.
          unfold P. apply provenance_format. cbn. apply in_map, Hx.
        * apply od_set_Forall; [exact Hd |].
          unfold P. apply provenance_format. cbn.
          split; [reflexivity |]. split; [apply in_map, Hx |].
          intros HV. apply Hsup in HV. apply od_mem_In in HV. congruence.
      + intros k Hk. rewrite add_keyword_keys.
        destruct (od_mem (km_id x) d); [apply Hsup, Hk |].
        apply in_or_app. left. apply Hsup, Hk.
    - split; [exact Hvec |]. intros k Hk. apply Hkeys. right. exact Hk. }
  apply Hboth.
Qed.

(** X11.  The match type of an entry of the fused list tells where it comes
    from: a vector entry has keyword score 0 and comes from the vector
    channel; a keyword entry has vector score 0, comes from the keyword
    channel and is unknown to the vector channel; a hybrid entry was found
    by the keyword channel. *)
Theorem rerank_provenance
        (claim : str) (vector_results : list hit)
        (keyword_results : list keyword_match) (max_results : nat) :
  Forall (provenance (map hit_id vector_results) (map km_id keyword_results))
         (_combine_and_rerank claim vector_results keyword_results max_results).
Proof.
  unfold _combine_and_rerank. apply List.Forall_forall. intros e He.
  apply In_firstn in He. apply sort_desc_In in He.
  apply in_map_iff in He. destruct He as [entry [<- Hentry]].
  apply (proj1 (List.Forall_forall _ _)
               (unified_provenance vector_results keyword_results) entry Hentry).
Qed.

Lemma count_matches_le (keywords : list str) (text : str) :
  (count_matches keywords text <= length keywords)%nat.
Proof.
  unfold count_matches.
  rewrite (filter_bool (fun keyword => contains (lower keyword) text)).
  apply List.filter_length_le.
Qed.

Lemma ratio_in_unit (a b : nat) :
  (0 < a)%nat -> (a <= b)%nat ->
  0 < inject_Z (Z.of_nat a) / inject_Z (Z.of_nat b) <= 1.
Proof.
  intros Ha Hab.
  assert (HA : 0 < inject_Z (Z.of_nat a)).
  { change 0 with (inject_Z 0). rewrite <- Zlt_Qlt. lia. }
  assert (HAB : inject_Z (Z.of_nat a) <= inject_Z (Z.of_nat b)).
  { rewrite <- Zle_Qle. lia. }
  assert (HB : 0 < inject_Z (Z.of_nat b)) by lra.
  split.
  - apply Qlt_shift_div_l; [exact HB | lra].
  - apply Qle_shift_div_r; [exact HB | lra].
Qed.


Lemma keyword_search_failure `{HtmlParser} (claim : str) (db : Session) (limit : nat)
      (e : exn) :
  query_fact_sources db = Raise e -> _keyword_search claim db limit = [].
Proof.
  intros Hq. unfold _keyword_search.
  destruct (extract_keywords claim 5); [reflexivity |].
  rewrite Hq. reflexivity.
Qed.

Lemma retrieve_evidence_length `{HtmlParser}
      (embedding_service : EmbeddingService.service)
      (db_service : DatabaseService.service)
      (claim : str) (db : Session) (max_results : nat) :
  (length (retrieve_evidence embedding_service db_service claim db max_results)
   <= max_results)%nat.
Proof.
  unfold retrieve_evidence.
  destruct (EmbeddingService.generate_embedding embedding_service claim)
    as [claim_embedding | e0]; cbn [bind try_except]; [| apply Nat.le_0_l].
  destruct (search_similar_embeddings db_service claim_embedding (max_results * 2))
    as [hits | e0]; cbn [bind try_except]; [| apply Nat.le_0_l].
  unfold _combine_and_rerank. apply List.firstn_le_length.
Qed.

Section Search.
Context `{HtmlParser}.

(** X12.  [_keyword_search] returns at most [limit] matches, from the
    largest score down; every match is a row of the table, carries the
    identifier of that row, and has a score above 0 and at most 1.  Without
    keywords, or when the query of the table raises, the result is empty. *)
Theorem keyword_search_facts (claim : str) (db : Session) (limit : nat) :
  (length (_keyword_search claim db limit) <= limit)%nat
  /\ descending km_score (_keyword_search claim db limit)
  /\ Forall (fun m => 0 < km_score m <= 1
                      /\ km_id m = Database.id (km_source m)
                      /\ exists sources,
                          query_fact_sources db = Ok sources
                          /\ In (km_source m) sources)
            (_keyword_search claim db limit)
  /\ (extract_keywords claim 5 = [] \/ (exists e, query_fact_sources db = Raise e) ->
      _keyword_search claim db limit = []).
Proof.
  unfold _keyword_search.
  destruct (extract_keywords claim 5) as [| kw kws] eqn:Ekw.
  { cbn [try_except]. split; [apply Nat.le_0_l |]. split; [constructor |].
    split; [constructor | reflexivity]. }
  set (keywords := kw :: kws).
  destruct (query_fact_sources db) as [sources | e] eqn:Eq; cbn [bind try_except].
  2:{ split; [apply Nat.le_0_l |]. split; [constructor |].
      split; [constructor | reflexivity]. }
  split; [apply List.firstn_le_length |].
  split; [apply descending_firstn, sort_desc_descending |].
  split.
  - apply List.Forall_forall. intros m Hm.
    apply In_firstn in Hm. apply sort_desc_In in Hm.
    apply in_flat_map in Hm. destruct Hm as [source [Hsource Hm]].
    destruct (0 <? count_matches keywords
                     (lower (title source ++ lit " " ++ content source)))%nat eqn:E;
      [| destruct Hm].
    destruct Hm as [<- | []]. cbn [km_score km_id km_source].
    apply Nat.ltb_lt in E.
    split; [apply ratio_in_unit; [exact E | apply count_matches_le] |].
    split; [reflexivity |]. exists sources. split; [reflexivity | exact Hsource].
  - intros [Hnone | [e He]]; [discriminate Hnone | discriminate He].
Qed.

(** X13.  [retrieve_evidence] returns at most [max_results] entries, no
    source twice, from the largest hybrid score down.  A failure of the
    keyword channel is absorbed: when the query of the table raises, the
    result is the ranking of the vector hits alone. *)
Theorem retrieve_evidence_facts
        (embedding_service : EmbeddingService.service)
        (db_service : DatabaseService.service)
        (claim : str) (db : Session) (max_results : nat) :
  (length (retrieve_evidence embedding_service db_service claim db max_results)
   <= max_results)%nat
  /\ List.NoDup (map e_source_id
                    (retrieve_evidence embedding_service db_service claim db max_results))
  /\ descending hybrid_score
       (retrieve_evidence embedding_service db_service claim db max_results)
  /\ forall claim_embedding hits e,
      EmbeddingService.generate_embedding embedding_service claim = Ok claim_embedding ->
      search_similar_embeddings db_service claim_embedding (max_results * 2) = Ok hits ->
      query_fact_sources db = Raise e ->
      retrieve_evidence embedding_service db_service claim db max_results
      = _combine_and_rerank claim hits [] max_results.
Proof.
  unfold retrieve_evidence.
  destruct (EmbeddingService.generate_embedding embedding_service claim)
    as [claim_embedding | e0]; cbn [bind try_except].
  2:{ split; [apply Nat.le_0_l |]. split; [constructor |]. split; [constructor |].
      intros ? ? ? Hemb. discriminate Hemb. }
  destruct (search_similar_embeddings db_service claim_embedding (max_results * 2))
    as [hits | e0] eqn:Es; cbn [bind try_except].
  2:{ split; [apply Nat.le_0_l |]. split; [constructor |]. split; [constructor |].
      intros ? ? ? Hemb Hsearch. injection Hemb as <-.
      rewrite Es in Hsearch. discriminate Hsearch. }
  destruct (rerank_ids claim hits (_keyword_search claim db (max_results * 2)) max_results)
    as [all [Hall [Hdesc [Hnd _]]]].
  split; [rewrite Hall; apply List.firstn_le_length |].
  split; [rewrite Hall, <- List.firstn_map; apply NoDup_firstn, Hnd |].
  split; [rewrite Hall; apply descending_firstn, Hdesc |].
  intros emb' hits' e Hemb Hsearch Hquery.
  injection Hemb as <-. rewrite Es in Hsearch. injection Hsearch as <-.
  rewrite (keyword_search_failure claim db (max_results * 2) e Hquery). reflexivity.
Qed.
End Search.

Lemma snippets_length_le `{HtmlParser} (claim : str) (retrieved_sources : list evidence)
      (max_snippet_length : nat) :
  (length (extract_evidence_snippets claim retrieved_sources max_snippet_length)
   <= length retrieved_sources)%nat.
Proof.
  unfold extract_evidence_snippets.
  induction retrieved_sources as [| c cs IH]; cbn [fold_left]; [apply Nat.le_refl |].
  rewrite snippets_loop, length_app. cbn [length].
  destruct (add_snippet_cases (extract_keywords claim 3) max_snippet_length [] c)
    as [[-> _] | [s [snippet [-> _]]]]; cbn [length app]; lia.
Qed.

Section Snippets.
Context `{HtmlParser}.

Lemma add_snippet_lengths (claim_keywords : list str) (max_len : nat) (c : evidence) :
  Forall (fun s => (10 < length s <= max_len)%nat
                   \/ (length s = max_len + 3 /\ skipn max_len s = lit "..."))%nat
         (add_snippet claim_keywords max_len [] c).
Proof.
  destruct (add_snippet_cases claim_keywords max_len [] c)
    as [[-> _] | [s [snippet [-> [Hbest Htrunc]]]]]; [constructor |].
  cbn [app]. constructor; [| constructor].
  destruct Hbest as [pre [post [Hsent _]]].
  assert (Hin : In s (extract_sentences (e_content c))).
  { rewrite Hsent. apply in_or_app. right. left. reflexivity. }
  pose proof (extract_sentences_Forall (fun _ => True) (e_content c)) as Hall.
  assert (Hlen : (10 < length s)%nat).
  { apply (proj1 (List.Forall_forall _ _)
                 (Hall (proj2 (List.Forall_forall _ _) (fun _ _ => I)))) in Hin.
    apply Hin. }
  destruct Htrunc as [[Hshort ->] | [Hlong ->]].
  - left. lia.
  - right. split.
    + rewrite length_app, length_firstn. cbn [lit length]. cbn. lia.
    + rewrite skipn_app, length_firstn.
      replace (max_len - Nat.min max_len (length s))%nat with 0%nat by lia.
      rewrite skipn_all2 by (rewrite length_firstn; lia). reflexivity.
Qed.

(** X14.  A snippet is either a whole sentence of more than ten and at most
    [max_snippet_length] characters, or the first [max_snippet_length]
    characters of a longer one followed by [...]: it can be three characters
    longer than [max_snippet_length], and is never empty. *)
Theorem snippet_lengths (claim : str) (retrieved_sources : list evidence)
        (max_snippet_length : nat) :
  Forall (fun s => (10 < length s <= max_snippet_length)%nat
                   \/ (length s = max_snippet_length + 3
                       /\ skipn max_snippet_length s = lit "..."))%nat
         (extract_evidence_snippets claim retrieved_sources max_snippet_length).
Proof.
  unfold extract_evidence_snippets.
  induction retrieved_sources as [| c cs IH]; cbn [fold_left]; [constructor |].
  rewrite snippets_loop. apply List.Forall_app. split; [| exact IH].
  apply add_snippet_lengths.
Qed.
End Snippets.
End RetrievalExtras.

(** ** The ratings of the sources *)
Module ReliabilityExtras.
Import TextProcessor SourceReliability TextFacts TextExtras.
Local Open Scope Q_scope.

Lemma first_known_In (source_lower : str) (ratings : list (str * Q)) (r : Q) :
  first_known source_lower ratings = Some r -> In r (map snd ratings).
Proof.
  induction ratings as [| [k q] rest IH]; cbn [first_known map snd]; [discriminate |].
  destruct (contains k source_lower).
  - intros [= <-]. left. reflexivity.
  - intros Hr. right. apply IH, Hr.
Qed.

Lemma first_known_none (source_lower : str) (ratings : list (str * Q)) :
  first_known source_lower ratings = None
  <-> Forall (fun kr => contains (fst kr) source_lower = false) ratings.
Proof.
  induction ratings as [| [k q] rest IH]; cbn [first_known].
  - split; [constructor | reflexivity].
  - destruct (contains k source_lower) eqn:E.
    + split; [discriminate |]. intros Hall. inversion Hall as [| ? ? Hk _]; subst.
      cbn [fst] in Hk. congruence.
    + rewrite IH. split.
      * intros Hrest. constructor; [exact E | exact Hrest].
      * intros Hall. inversion Hall; subst. assumption.
Qed.

Lemma first_known_split (source_lower : str) (pre post : list (str * Q))
      (k : str) (r : Q) :
  Forall (fun kr => contains (fst kr) source_lower = false) pre ->
  contains k source_lower = true ->
  first_known source_lower (pre ++ (k, r) :: post) = Some r.
Proof.
  induction 1 as [| [k' q'] pre' Hk' _ IH]; intros Hk; cbn [app first_known].
  - rewrite Hk. reflexivity.
  - cbn [fst] in Hk'. rewrite Hk'. apply IH, Hk.
Qed.

(** X15.  [get_source_reliability] never raises: it returns one of the nine
    ratings of the table, between 0.5 and 0.95.  The letter case of the name
    does not matter, and a name that contains none of the known names gets
    0.5. *)
Theorem source_reliability_total (source_name : str) :
  exists r,
    get_source_reliability source_name = Ok r
    /\ In r (map snd reliability_ratings)
    /\ 50 # 100 <= r <= 95 # 100
    /\ get_source_reliability (lower source_name) = Ok r
    /\ (Forall (fun kr => contains (fst kr) (lower source_name) = false)
               reliability_ratings -> r = 50 # 100).
Proof.
  assert (Hrange : forall r, In r (map snd reliability_ratings) ->
                             50 # 100 <= r <= 95 # 100).
  { intros r Hr. cbn in Hr.
    repeat (destruct Hr as [<- | Hr]; [split; discriminate |]). destruct Hr. }
  assert (Hlower : lower (lower source_name) = lower source_name).
  { apply lower_fixed, lower_Forall. }
  unfold get_source_reliability. rewrite Hlower.
  destruct (first_known (lower source_name) reliability_ratings) as [r |] eqn:E.
  - exists r. pose proof (first_known_In _ _ _ E) as Hin.
    split; [reflexivity |]. split; [exact Hin |]. split; [apply Hrange, Hin |].
    split; [reflexivity |].
    intros Hnone. apply first_known_none in Hnone. congruence.
  - exists (50 # 100). split; [reflexivity |].
    split; [cbn; tauto |]. split; [split; discriminate |].
    split; [reflexivity |]. intros _. reflexivity.
Qed.

(** X16.  The first known name of the table that occurs in the lower-cased
    name decides, as a substring: the names of the table are tried in the
    order they are written. *)
Theorem source_reliability_first_match
        (source_name : str) (pre post : list (str * Q)) (known_source : str) (rating : Q)
        (Htable : reliability_ratings = pre ++ (known_source, rating) :: post)
        (Hearlier : Forall (fun kr => contains (fst kr) (lower source_name) = false) pre)
        (Hmatch : contains known_source (lower source_name) = true) :
  get_source_reliability source_name = Ok rating.
Proof.
  unfold get_source_reliability. rewrite Htable.
  rewrite (first_known_split _ pre post known_source rating Hearlier Hmatch).
  reflexivity.
Qed.
End ReliabilityExtras.

Module AnalysisExtras.
Import TextProcessor ClassificationService RetrievalService AnalysisService.
Import ClassificationFacts RetrievalFacts AnalysisFacts.
Import ClassificationExtras RetrievalExtras BatchSummary ExtraAnalysisSpec.
Local Open Scope Q_scope.

Section Analysis.
Context `{HtmlParser}.
Variable World : Type.
Variable embedding_service : EmbeddingService.service.
Variable classification_service : ClassificationService.service.
Variable tick : World -> World * Z.
Variable store_claim : World -> str -> option str -> World * res claim_record.
Variable store_embedding :
  World -> Z -> EmbeddingService.embedding -> gmap string aval -> World * res unit.
Variable db_service : World -> DatabaseService.service.
Variable session : World -> Database.Session.
Variable update_claim_results :
  World -> Z -> pyval -> pyval -> list str -> World * res unit.
Variable _log_processing : World -> Z -> string -> string -> details -> Z -> World.

Abbreviation analyze :=
  (analyze_claim World embedding_service classification_service tick store_claim
                 store_embedding db_service session update_claim_results
                 _log_processing).
Abbreviation step :=
  (batch_step World embedding_service classification_service tick store_claim
              store_embedding db_service session update_claim_results
              _log_processing).
Abbreviation batch :=
  (analyze_claims_batch World embedding_service classification_service tick
                        store_claim store_embedding db_service session
                        update_claim_results _log_processing).
Abbreviation failure := (on_failure World tick _log_processing).

Lemma failed_result_response (claim_id : option Z) (claim_text : str)
      (error_msg : text) (source_url : option str) (processing_time : Z) :
  response claim_text source_url
    (failed_result claim_id claim_text error_msg source_url processing_time).
Proof.
  unfold response, failed_result.
  split; [rewrite !dom_insert_L, dom_empty_L; reflexivity |].
  split; [reflexivity |]. split; [reflexivity |].
  exists L_Unverified, 0, 0, [], [].
  repeat (split; [reflexivity |]).
  split; [split; discriminate |]. split; [discriminate |]. cbn. lia.
Qed.

Lemma on_failure_response (start_time : Z) (claim_id : option Z) (claim_text : str)
      (source_url : option str) (e : exn) (w : World) :
  response claim_text source_url
    (snd (failure start_time claim_id claim_text source_url e w)).
Proof.
  unfold on_failure. destruct (tick w) as [w1 now]. cbn [snd].
  apply failed_result_response.
Qed.

Lemma analyze_claim_response_holds
      (claim_text : str) (source_url : option str) (w : World) :
  response claim_text source_url (snd (analyze claim_text source_url w)).
Proof.
  unfold analyze_claim.
  destruct (tick w) as [w0 start_time].
  destruct (is_empty claim_text || is_empty (strip claim_text));
    [apply on_failure_response |].
  destruct (store_claim w0 claim_text source_url) as [w1 [record | e]];
    [| apply on_failure_response].
  destruct (EmbeddingService.generate_embedding embedding_service claim_text)
    as [claim_embedding | e]; [| apply on_failure_response].
  destruct (store_embedding w1 _ _ _) as [w2 stored].
  set (sources := retrieve_evidence embedding_service (db_service w2)
                    claim_text (session w2) 5).
  set (snippets := extract_evidence_snippets claim_text sources 200).
  destruct (classify_claim_bounds classification_service claim_text (Some snippets))
    as [l [score [confidence [reasoning [-> [Hscore Hconf]]]]]].
  change (getitem (result_dict l score confidence reasoning) "classification")
    with (Ok (VLabel l)).
  change (getitem (result_dict l score confidence reasoning) "reliability_score")
    with (Ok (VFloat score)).
  change (getitem (result_dict l score confidence reasoning) "confidence")
    with (Ok (VFloat confidence)).
  change (getitem (result_dict l score confidence reasoning) "reasoning")
    with (Ok (VText reasoning)).
  cbn [bind].
  destruct (update_claim_results w2 _ _ _ _) as [w3 updated].
  destruct (tick w3) as [w4 now]. cbn [snd].
  unfold response, success_result.
  split; [rewrite !dom_insert_L, dom_empty_L; reflexivity |].
  split; [reflexivity |]. split; [reflexivity |].
  exists l, score, confidence, snippets, (map summary_of sources).
  repeat (split; [reflexivity |]).
  split; [exact Hscore |]. split; [exact Hconf |].
  rewrite List.length_map. split.
  - apply snippets_length_le.
  - apply retrieve_evidence_length.
Qed.

(** X17.  [analyze_claim] returns, for every claim and whatever fails on
    the way, a dictionary with the same ten keys; it names the claim and the
    URL it was given, its classification is one of the four labels, its
    reliability lies between 0 and 100, its confidence is at most 95, and it
    holds at most five evidence sources and no more snippets than
    sources. *)
Theorem analyze_claim_response (claim_text : str) (source_url : option str) (w : World) :
  response claim_text source_url (snd (analyze claim_text source_url w)).
Proof. apply analyze_claim_response_holds. Qed.

Lemma skipped_result_keys (claim_text : str) (reasoning : text)
      (source_url : option str) :
  dom (skipped_result claim_text reasoning source_url) = skipped_keys.
Proof.
  unfold skipped_result. rewrite !dom_insert_L, dom_empty_L. reflexivity.
Qed.

Lemma batch_step_keys (claim_data : gmap string str) (w : World) :
  dom (snd (step claim_data w))
  = if is_empty (strip (claim_text_of claim_data)) then skipped_keys else response_keys.
Proof.
  unfold batch_step.
  change (match claim_data !! "text" with Some t => t | None => [] end)
    with (claim_text_of claim_data).
  destruct (is_empty (strip (claim_text_of claim_data))).
  - cbn [snd]. apply skipped_result_keys.
  - apply analyze_claim_response_holds.
Qed.

Lemma batch_step_verdict (claim_data : gmap string str) (w : World) :
  has_verdict (snd (step claim_data w)).
Proof.
  unfold batch_step.
  set (claim_text := match claim_data !! "text" with Some t => t | None => [] end).
  destruct (is_empty (strip claim_text)).
  - cbn [snd]. exists L_Unverified, 0.
    split; [reflexivity |]. split; [reflexivity |]. split; discriminate.
  - destruct (analyze_claim_response_holds claim_text (claim_data !! "source_url") w)
      as [_ [_ [_ [l [q [k [ev [ss [Hl [Hq [_ [_ [_ [Hrange _]]]]]]]]]]]]]].
    exists l, q. split; [exact Hl |]. split; [exact Hq | exact Hrange].
Qed.

Lemma batch_verdicts (claims : list (gmap string str)) (w : World) :
  Forall has_verdict (snd (batch claims w)).
Proof.
  revert w. induction claims as [| c cs IH]; intros w; [constructor |].
  rewrite batch_cons. cbn [snd].
  constructor; [apply batch_step_verdict | apply IH].
Qed.

(** X18.  In the results of a batch, a claim with a blank text has six keys
    only (no [claim_id], [confidence], [processing_time_ms] or
    [evidence_sources]), and every other claim has the ten keys of
    [analyze_claim]. *)
Theorem batch_result_keys (claims : list (gmap string str)) (w : World) :
  Forall2 (fun claim_data result =>
             dom result = if is_empty (strip (claim_text_of claim_data))
                          then skipped_keys else response_keys)
          claims (snd (batch claims w)).
Proof.
  revert w. induction claims as [| c cs IH]; intros w; [constructor |].
  rewrite batch_cons. cbn [snd].
  constructor; [apply batch_step_keys | apply IH].
Qed.

Lemma for_each_classification (results : list (gmap string aval)) :
  Forall has_verdict results ->
  exists classifications,
    for_each (fun r => result_get r "classification") results = Ok classifications
    /\ length classifications = length results
    /\ Forall (fun v => exists l, v = APy (VLabel l)) classifications.
Proof.
  induction 1 as [| r rs [l [q [Hl _]]] _ [cs [Hcs [Hlen Hall]]]]; cbn [for_each].
  - exists []. split; [reflexivity |]. split; [reflexivity | constructor].
  - unfold result_get at 1. rewrite Hl. cbn [bind]. rewrite Hcs. cbn [bind].
    exists (APy (VLabel l) :: cs). split; [reflexivity |].
    split; [cbn [length]; rewrite Hlen; reflexivity |].
    constructor; [exists l; reflexivity | exact Hall].
Qed.

Lemma for_each_reliability (results : list (gmap string aval)) :
  Forall has_verdict results ->
  exists reliabilities,
    for_each (fun r => bind (result_get r "reliability") as_number) results
    = Ok reliabilities
    /\ length reliabilities = length results
    /\ Forall (fun q => 0 <= q <= 100) reliabilities.
Proof.
  induction 1 as [| r rs [l [q [_ [Hq Hrange]]]] _ [qs [Hqs [Hlen Hall]]]];
    cbn [for_each].
  - exists []. split; [reflexivity |]. split; [reflexivity | constructor].
  - unfold result_get at 1. rewrite Hq. cbn [bind as_number]. rewrite Hqs. cbn [bind].
    exists (q :: qs). split; [reflexivity |].
    split; [cbn [length]; rewrite Hlen; reflexivity |].
    constructor; [exact Hrange | exact Hall].
Qed.

Lemma sum_bounds (qs : list Q) (acc : Q) :
  Forall (fun q => 0 <= q <= 100) qs ->
  acc <= fold_left Qplus qs acc
  /\ fold_left Qplus qs acc <= acc + 100 * inject_Z (Z.of_nat (length qs)).
Proof.
  intros Hall. revert acc.
  induction Hall as [| q r [Hq0 Hq1] _ IH]; intros acc; cbn [fold_left length].
  - change (inject_Z (Z.of_nat 0)) with 0. split; lra.
  - destruct (IH (acc + q)) as [Hlo Hhi].
    rewrite Nat2Z.inj_succ. unfold Z.succ. rewrite inject_Z_plus.
    change (inject_Z 1) with 1. split; lra.
Qed.

Lemma average_bounds {A : Type} (results : list A) (qs : list Q) :
  length qs = length results ->
  Forall (fun q => 0 <= q <= 100) qs ->
  0 <= match results with
       | [] => 0
       | _ => fold_left Qplus qs 0 / inject_Z (Z.of_nat (length results))
       end <= 100.
Proof.
  intros Hlen Hrange. destruct results as [| r rs]; [split; discriminate |].
  destruct (sum_bounds qs 0 Hrange) as [Hlo Hhi]. rewrite Hlen in Hhi.
  set (n := length (r :: rs)) in *.
  assert (Hn : 0 < inject_Z (Z.of_nat n)).
  { change 0 with (inject_Z 0). rewrite <- Zlt_Qlt. unfold n. cbn [length]. lia. }
  split.
  - apply Qle_shift_div_l; [exact Hn | lra].
  - apply Qle_shift_div_r; [exact Hn | lra].
Qed.

Lemma count_label_cons (l l' : label) (classifications : list aval) :
  count_label l (APy (VLabel l') :: classifications)
  = ((if label_eqb l l' then 1 else 0) + count_label l classifications)%nat.
Proof. unfold count_label. cbn [List.filter]. destruct (label_eqb l l'); reflexivity. Qed.

Lemma count_labels (classifications : list aval) :
  Forall (fun v => exists l, v = APy (VLabel l)) classifications ->
  (count_label L_True classifications + count_label L_False classifications
   + count_label L_Misleading classifications
   + count_label L_Unverified classifications)%nat
  = length classifications.
Proof.
  induction 1 as [| v r [l ->] _ IH]; [reflexivity |].
  rewrite !count_label_cons. destruct l; cbn [label_eqb length]; lia.
Qed.

(** X19.  The summary of a batch is computed for every batch: each result
    carries the two keys it reads.  It counts as many results as there were
    claims, the four counts of the labels add up to that number, and the
    average it rounds lies between 0 and 100. *)
Theorem batch_summary_counts (round2 : Q -> Q)
        (claims : list (gmap string str)) (w : World) :
  exists s average,
    batch_summary round2 (snd (batch claims w)) = Ok s
    /\ total_analyzed s = length claims
    /\ (count_true s + count_false s + count_misleading s + count_unverified s)%nat
       = length claims
    /\ average_reliability s = round2 average
    /\ 0 <= average <= 100.
Proof.
  pose proof (batch_verdicts claims w) as Hall.
  assert (Hlen : length (snd (batch claims w)) = length claims).
  { clear Hall. revert w. induction claims as [| c cs IH]; intros w; [reflexivity |].
    rewrite batch_cons. cbn [snd length]. rewrite IH. reflexivity. }
  set (results := snd (batch claims w)) in *.
  destruct (for_each_classification results Hall) as [cs [Hcs [Hcl Hlabels]]].
  destruct (for_each_reliability results Hall) as [qs [Hqs [Hql Hrange]]].
  unfold batch_summary. rewrite Hcs. cbn [bind]. rewrite Hqs. cbn [bind].
  eexists _, _. split; [reflexivity |].
  cbn [total_analyzed count_true count_false count_misleading count_unverified
       average_reliability].
  split; [exact Hlen |].
  split; [rewrite (count_labels cs Hlabels); congruence |].
  split; [reflexivity |].
  apply average_bounds; [exact Hql | exact Hrange].
Qed.

End Analysis.
End AnalysisExtras.

(** ** Embeddings in batches *)
Module EmbeddingExtras.
Import TextProcessor EmbeddingService EmbeddingBatch ExtraAnalysisSpec.

Section Batch.
Context `{HtmlParser}.

Abbreviation nonblank := (fun p : nat * str => negb (is_empty (strip (snd p)))).

Lemma insert_at_end {A : Type} (prefix : list A) (x y : A) (l : list A) :
  <[length prefix := x]> (prefix ++ y :: l) = prefix ++ x :: l.
Proof.
  induction prefix as [| p ps IH]; [reflexivity |].
  cbn [length app]. cbn. f_equal. exact IH.
Qed.

Lemma align_none (texts : list str) :
  align texts [] = map (fun _ => []) texts.
Proof.
  induction texts as [| t r IH]; [reflexivity |].
  cbn [align map]. rewrite IH. destruct (valid_text t); reflexivity.
Qed.

Lemma align_length (texts : list str) (embeddings : list embedding) :
  length (align texts embeddings) = length texts.
Proof.
  revert embeddings. induction texts as [| t r IH]; intros es; [reflexivity |].
  cbn [align]. destruct (valid_text t); [destruct es |]; cbn [length]; rewrite IH;
    reflexivity.
Qed.

Lemma align_blank (texts : list str) (embeddings : list embedding) (i : nat) (text : str) :
  nth_error texts i = Some text -> valid_text text = false ->
  nth_error (align texts embeddings) i = Some [].
Proof.
  revert embeddings i. induction texts as [| t r IH]; intros es i Ht Hblank.
  - destruct i; discriminate Ht.
  - destruct i as [| i].
    + injection Ht as ->. cbn [align]. rewrite Hblank. reflexivity.
    + cbn [nth_error] in Ht. cbn [align].
      destruct (valid_text t); [destruct es |]; cbn [nth_error]; apply IH; assumption.
Qed.

Lemma valid_processed (i : nat) (texts : list str) :
  map snd (List.filter nonblank (enumerate_from i (map preprocess_for_embedding texts)))
  = map preprocess_for_embedding (List.filter valid_text texts).
Proof.
  revert i. induction texts as [| t r IH]; intros i; [reflexivity |].
  cbn [map enumerate_from List.filter snd]. unfold valid_text at 1.
  destruct (negb (is_empty (strip (preprocess_for_embedding t))));
    cbn [map snd]; rewrite IH; reflexivity.
Qed.

Lemma map_back_align (prefix : list embedding) (texts : list str)
      (embeddings : list embedding) :
  map_back (prefix ++ map (fun _ => []) texts)
           (combine (map fst (List.filter nonblank
                                (enumerate_from (length prefix)
                                   (map preprocess_for_embedding texts))))
                    embeddings)
  = prefix ++ align texts embeddings.
Proof.
  revert prefix embeddings.
  induction texts as [| t r IH]; intros prefix es; [reflexivity |].
  cbn [map enumerate_from List.filter snd align]. unfold valid_text at 1.
  destruct (negb (is_empty (strip (preprocess_for_embedding t)))).
  - cbn [map fst]. destruct es as [| e es].
    + cbn [combine]. unfold map_back. cbn [fold_left]. rewrite align_none. reflexivity.
    + cbn [combine]. unfold map_back. cbn [fold_left fst snd].
      rewrite insert_at_end.
      specialize (IH (prefix ++ [e]) es).
      rewrite length_app in IH. cbn [length] in IH. rewrite Nat.add_1_r in IH.
      rewrite <- !app_assoc in IH. exact IH.
  - specialize (IH (prefix ++ [[]]) es).
    rewrite length_app in IH. cbn [length] in IH. rewrite Nat.add_1_r in IH.
    rewrite <- !app_assoc in IH. exact IH.
Qed.

(** X20.  When [generate_embeddings_batch] returns, it returns one entry
    for each text, in the order of the texts: the texts that are not blank
    once prepared are handed to the model in one call, in their order, and
    get its embeddings in that order; a blank text gets the empty list, and
    so does a text for which the model has returned no embedding. *)
Theorem batch_embeddings_aligned
        (self : EmbeddingBatch.service) (texts : list str) (result : list embedding)
        (Hok : generate_embeddings_batch self texts = Ok result) :
  length result = length texts
  /\ (forall i text, nth_error texts i = Some text -> valid_text text = false ->
                     nth_error result i = Some [])
  /\ exists encode embeddings,
      EmbeddingBatch.model self = Some encode
      /\ (List.filter valid_text texts = [] /\ embeddings = []
          \/ encode (map preprocess_for_embedding (List.filter valid_text texts))
             = Ok embeddings)
      /\ result = align texts embeddings.
Proof.
  assert (Hshape : exists encode embeddings,
             EmbeddingBatch.model self = Some encode
             /\ (List.filter valid_text texts = [] /\ embeddings = []
                 \/ encode (map preprocess_for_embedding (List.filter valid_text texts))
                    = Ok embeddings)
             /\ result = align texts embeddings).
  { unfold generate_embeddings_batch in Hok.
    destruct (EmbeddingBatch.model self) as [encode |]; [| discriminate Hok].
    exists encode.
    destruct texts as [| t0 ts] eqn:Etexts.
    { injection Hok as <-. exists []. split; [reflexivity |].
      split; [left; split; reflexivity | reflexivity]. }
    rewrite <- Etexts in *. clear Etexts.
    pose proof (valid_processed 0 texts) as Hvalid.
    destruct (List.filter nonblank (enumerate_from 0 (map preprocess_for_embedding texts)))
      as [| v vs] eqn:Ev.
    { injection Hok as <-. exists []. split; [reflexivity |].
      split; [| symmetry; apply align_none].
      left. split; [| reflexivity].
      cbn [map] in Hvalid. symmetry in Hvalid. apply map_eq_nil in Hvalid.
      exact Hvalid. }
    rewrite <- Ev in *. rewrite Hvalid in Hok.
    destruct (encode (map preprocess_for_embedding (List.filter valid_text texts)))
      as [embeddings | e] eqn:Eenc; cbn [bind] in Hok; [| discriminate Hok].
    exists embeddings. split; [reflexivity |]. split; [right; reflexivity |].
    destruct embeddings as [| e0 es] eqn:Eemb; [discriminate Hok |].
    rewrite <- Eemb in *. injection Hok as <-.
    apply (map_back_align [] texts embeddings). }
  destruct Hshape as [encode [embeddings [Hmodel [Hcall ->]]]].
  split; [apply align_length |].
  split; [intros i text; apply align_blank |].
  exists encode, embeddings. split; [exact Hmodel |]. split; [exact Hcall | reflexivity].
Qed.
End Batch.
End EmbeddingExtras.

(** ** Worked examples *)
Module Examples.
Import TextProcessor TextSpec ClassificationService Spec.
Import Database DatabaseService RetrievalService RetrievalSpec Fixtures.
Local Open Scope Q_scope.
#[local] Existing Instance plain_text_parser.

Example clean_text_demo :
  clean_text messy_text = lit "visit or now mail please !".
Proof. vm_compute. reflexivity. Qed.

Example remove_email_demo :
  remove_matches match_email 0 (lit "x @@b c@ @d a@b@ e") = lit "x  c@ @d  e".
Proof. vm_compute. reflexivity. Qed.

Example remove_url_demo :
  remove_matches match_url 0 (lit "see https://a.b/c?d=1#frag and http:// or hhttp://x y")
  = lit "see #frag and http:// or h y".
Proof. vm_compute. reflexivity. Qed.

Example re_split_demo :
  re_split is_terminator false (lit "a..b!") = [lit "a"; lit "b"; []]
  /\ re_split is_terminator false (lit ".a") = [[]; lit "a"]
  /\ re_split is_terminator false [] = [[]].
Proof. repeat split; vm_compute; reflexivity. Qed.

Example strip_demo : strip (lit "  a b  ") = lit "a b" /\ strip (lit "   ") = [].
Proof. split; vm_compute; reflexivity. Qed.

Example extract_keywords_demo :
  extract_keywords (lit "Vaccines are safe, very safe; vaccines work") 3
  = [lit "vaccines"; lit "safe"; lit "very"].
Proof. vm_compute. reflexivity. Qed.

Example snippet_demo :
  extract_evidence_snippets vaccine_claim
    (_combine_and_rerank [] [] [keyword_b] 5) 20
  = [lit "Vaccines are safe an..."].
Proof. vm_compute. reflexivity. Qed.

(** The cleaning of [messy_text] is a fixed point of the cleaning. *)
Lemma clean_text_idempotent_witness :
  parser_keeps_clean_text
  /\ clean_text (clean_text messy_text) = clean_text messy_text.
Proof.
  assert (Hparser : parser_keeps_clean_text) by (intros s _; reflexivity).
  split; [exact Hparser |].
  apply (TextFacts.clean_text_idempotent Hparser messy_text).
Defined.

(** The quiet claim under the positive model: a result within the bounds. *)
Lemma classify_total_and_bounded_witness :
  classifier_in_unit positive_service
  /\ exists l score confidence reasoning,
      classify_claim positive_service quiet_claim None
      = result_dict l score confidence reasoning
      /\ 0 <= score <= 100
      /\ 0 <= confidence <= 100.
Proof.
  assert (Hsignal : classifier_in_unit positive_service).
  { intros model processed sent Hm Hs.
    injection Hm as <-. injection Hs as <-. split; discriminate. }
  split; [exact Hsignal |].
  destruct (ClassificationFacts.classify_total_and_bounded
              positive_service quiet_claim None Hsignal)
    as [l [score [confidence [reasoning [Hr [Hs [Hc _]]]]]]].
  exists l, score, confidence, reasoning. repeat split; try assumption.
  - apply Hs.
  - apply Hs.
  - apply Hc.
  - apply Hc.
Defined.

(** The quiet claim without a model: the default result. *)
Lemma degraded_without_sentiment_witness :
  sentiment_unavailable absent_service (preprocess_for_embedding quiet_claim)
  /\ classify_claim absent_service quiet_claim None
     = result_dict L_Unverified 0 0
         [Txt "Classification error: "; Txt "'reliability_score'"].
Proof.
  assert (Hnone : sentiment_unavailable absent_service
                    (preprocess_for_embedding quiet_claim)) by (left; reflexivity).
  split; [exact Hnone |].
  apply (ClassificationFacts.degraded_without_sentiment
           absent_service quiet_claim None Hnone).
  vm_compute. reflexivity.
Defined.

(** The quiet claim without evidence under the positive model. *)
Lemma no_evidence_score_bound_witness :
  classifier_in_unit positive_service
  /\ has_evidence None = false
  /\ no_lexical_trigger (preprocess_for_embedding quiet_claim) = true
  /\ fst (heuristic_score (preprocess_for_embedding quiet_claim) None) == 30.
Proof.
  assert (Hsignal : classifier_in_unit positive_service).
  { intros model processed sent Hm Hs.
    injection Hm as <-. injection Hs as <-. split; discriminate. }
  assert (Hquiet : no_lexical_trigger (preprocess_for_embedding quiet_claim) = true)
    by (vm_compute; reflexivity).
  split; [exact Hsignal |]. split; [reflexivity |]. split; [exact Hquiet |].
  apply (ClassificationFacts.no_evidence_score_bound
           positive_service quiet_claim None Hsignal eq_refl Hquiet).
Defined.

(** The ranking example: B stands at position 0 and A at position 1. *)
Lemma fused_ranking_fixture_witness :
  nth_error ranked 1 = Some ranked_second
  /\ nth_error ranked 0 = Some ranked_first
  /\ vector_score ranked_second == 9 # 10 /\ keyword_score ranked_second == 0
  /\ vector_score ranked_first == 5 # 10 /\ keyword_score ranked_first == 1
  /\ hybrid_score ranked_second == 63 # 100
  /\ hybrid_score ranked_first == 65 # 100
  /\ (0 < 1)%nat.
Proof.
  assert (Ha : nth_error ranked 1 = Some ranked_second) by (vm_compute; reflexivity).
  assert (Hb : nth_error ranked 0 = Some ranked_first) by (vm_compute; reflexivity).
  assert (Hav : vector_score ranked_second == 9 # 10) by (vm_compute; reflexivity).
  assert (Hak : keyword_score ranked_second == 0) by (vm_compute; reflexivity).
  assert (Hbv : vector_score ranked_first == 5 # 10) by (vm_compute; reflexivity).
  assert (Hbk : keyword_score ranked_first == 1) by (vm_compute; reflexivity).
  repeat (split; [assumption |]).
  apply (RetrievalFacts.fused_ranking_fixture
           [] [hit_a; hit_b] [keyword_b] 5 1 0 ranked_second ranked_first
           Ha Hb Hav Hak Hbv Hbk).
Defined.

(** The retrieval without the embedding model, and over an empty table with
    a silent index and with an index that returns a point. *)
Lemma retrieve_evidence_degraded_witness :
  embedding_unavailable absent_model vaccine_claim
  /\ retrieve_evidence absent_model working_index vaccine_claim vaccine_session 5 = []
  /\ empty_table empty_session
  /\ index_silent working_index
  /\ retrieve_evidence constant_model working_index vaccine_claim empty_session 5 = []
  /\ retrieve_evidence constant_model one_point_index vaccine_claim empty_session 5
     = _combine_and_rerank vaccine_claim [stored_claim_hit] [] 5
  /\ retrieve_evidence constant_model one_point_index vaccine_claim empty_session 5 <> [].
Proof.
  assert (Hmodel : embedding_unavailable absent_model vaccine_claim)
    by (left; reflexivity).
  assert (Htable : empty_table empty_session) by reflexivity.
  assert (Hsilent : index_silent working_index).
  { intros search query limit Hs. injection Hs as <-. reflexivity. }
  split; [exact Hmodel |].
  split; [exact (proj1 (RetrievalFacts.retrieve_evidence_degraded
                          absent_model working_index vaccine_claim vaccine_session 5)
                       Hmodel) |].
  split; [exact Htable |]. split; [exact Hsilent |].
  split; [exact (proj1 (proj2 (RetrievalFacts.retrieve_evidence_degraded
                                 constant_model working_index vaccine_claim
                                 empty_session 5) Htable) Hsilent) |].
  destruct (proj2 (proj2 (RetrievalFacts.retrieve_evidence_degraded
                            constant_model one_point_index vaccine_claim
                            empty_session 5) Htable)
                  [1] [stored_claim_hit] eq_refl eq_refl) as [Heq Hne].
  split; [exact Heq |]. apply Hne; [discriminate | lia].
Defined.

(** Over an empty table the point of the index is returned. *)
Example empty_table_keeps_vector_hits :
  query_fact_sources empty_session = Ok []
  /\ map (fun e => (e_source_id e, Qred (hybrid_score e), match_type e))
         (retrieve_evidence constant_model one_point_index vaccine_claim
                            empty_session 5)
     = [(17%Z, 7 # 10, Vector)].
Proof. split; vm_compute; reflexivity. Qed.

(** The heuristic label True is kept although the fused score 68 lies in
    the band of Unverified. *)
Lemma fusion_keeps_true_in_unverified_band :
  exists reasoning reasoning',
    _analyze_claim_heuristics study_claim (Some study_evidence)
    = heuristic_dict L_True 73 reasoning
    /\ _combine_analysis_results (heuristic_dict L_True 73 reasoning)
         {| s_label := "LABEL_0"; s_score := 1 |}
       = Ok (result_dict L_True 68 95 reasoning')
    /\ in_band 68 L_Unverified
    /\ L_Unverified <> L_True.
Proof.
  destruct (ClassificationFacts.heuristics_unfold study_claim (Some study_evidence))
    as [reasoning Hh].
  assert (Hs : fst (heuristic_score study_claim (Some study_evidence)) = 73)
    by (vm_compute; reflexivity).
  rewrite Hs in Hh.
  destruct (ClassificationFacts.combine_unfold L_True 73 reasoning
              {| s_label := "LABEL_0"; s_score := 1 |}) as [reasoning' Hc].
  exists reasoning, reasoning'.
  split; [exact Hh |]. split; [exact Hc |].
  split; [apply band_unverified; [discriminate | reflexivity] | discriminate].
Qed.

(** Without the embedding model the retrieval is empty although the keyword
    channel finds a source. *)
Lemma keyword_results_lost_without_embedding :
  map km_id (_keyword_search vaccine_claim vaccine_session 10) = [2%Z]
  /\ retrieve_evidence absent_model working_index vaccine_claim vaccine_session 5 = [].
Proof. split; vm_compute; reflexivity. Qed.

(** In the fused output the source with 0.5 and 1.0 stands before the
    source with 0.9 and 0.0. *)
Lemma fixture_ranks_keyword_source_first :
  map (fun e => (e_source_id e, vector_score e, keyword_score e))
      (_combine_and_rerank [] [hit_a; hit_b] [keyword_b] 5)
  = [(2%Z, 5 # 10, 1); (1%Z, 9 # 10, 0)].
Proof. vm_compute. reflexivity. Qed.

(** A candidate with content and sentences, and no snippet. *)
Lemma no_snippet_for_unmatched_source :
  e_content weather_source <> []
  /\ extract_sentences (e_content weather_source)
     = [lit "The weather is nice today in Paris"; lit "It will rain tomorrow"]
  /\ extract_evidence_snippets vaccine_claim [weather_source] 200 = [].
Proof.
  split; [discriminate |]. split; vm_compute; reflexivity.
Qed.

(** A quiet claim without evidence, and a score above 30. *)
Lemma positive_signal_lifts_score_above_30 :
  no_lexical_trigger (preprocess_for_embedding quiet_claim) = true
  /\ classify_claim positive_service quiet_claim (Some [])
     !! "reliability_score" = Some (VFloat (318 # 10))
  /\ 30 < 318 # 10.
Proof.
  split; [vm_compute; reflexivity |]. split; [vm_compute; reflexivity | reflexivity].
Qed.
End Examples.

(** ** Worked examples of batches *)
Module BatchExamples.
Import TextProcessor ClassificationService RetrievalService AnalysisService.
Import Fixtures BatchFixtures.
Local Open Scope Q_scope.
#[local] Existing Instance plain_text_parser.


End BatchExamples.

(** ** More worked examples *)
Module MoreExamples.
Import TextProcessor ClassificationService RetrievalService SourceReliability.
Import ContextAnalysis EmbeddingBatch Spec ExtraSpec Fixtures MoreFixtures.
Import ExtraRetrievalSpec ExtraAnalysisSpec.
Local Open Scope Q_scope.
#[local] Existing Instance plain_text_parser.

Lemma set_members_sound : set_order_sound set_members.
Proof. intros xs x. apply List.nodup_In. Qed.

(** The quiet claim among two earlier Unverified claims. *)
Lemma context_keeps_verdict_witness :
  set_order_sound set_members
  /\ exists l score confidence reasoning confidence' reasoning',
      classify_claim absent_service quiet_claim None
      = result_dict l score confidence reasoning
      /\ analyze_claim_with_context set_members absent_service quiet_claim earlier_claims
         = Ok (result_dict l score confidence' reasoning')
      /\ confidence <= confidence' <= 95
      /\ (earlier_claims = [] -> confidence' = confidence /\ reasoning' = reasoning)
      /\ (earlier_claims <> [] ->
          (forall c, In c earlier_claims ->
                     c !! "classification" = Some (label_str l)) ->
          confidence' = py_min (confidence + 10) 95).
Proof.
  split; [exact set_members_sound |].
  apply (ClassificationExtras.context_keeps_verdict
           set_members set_members_sound absent_service quiet_claim earlier_claims).
Defined.

(** The stronger entry gets the higher hybrid score. *)
Lemma hybrid_score_monotone_witness :
  u_vector_score (snd weak_entry) <= u_vector_score (snd strong_entry)
  /\ u_keyword_score (snd weak_entry) <= u_keyword_score (snd strong_entry)
  /\ hybrid_score (format_result weak_entry) <= hybrid_score (format_result strong_entry)
  /\ (0 <= u_vector_score (snd weak_entry) <= 1 ->
      0 <= u_keyword_score (snd weak_entry) <= 1 ->
      0 <= hybrid_score (format_result weak_entry) <= 1).
Proof.
  assert (Hv : u_vector_score (snd weak_entry) <= u_vector_score (snd strong_entry))
    by (vm_compute; discriminate).
  assert (Hk : u_keyword_score (snd weak_entry) <= u_keyword_score (snd strong_entry))
    by (vm_compute; discriminate).
  split; [exact Hv |]. split; [exact Hk |].
  exact (RetrievalExtras.hybrid_score_monotone weak_entry strong_entry Hv Hk).
Defined.

(** A name that holds [ap news] inside two other words. *)
Lemma source_reliability_first_match_witness :
  contains (lit "ap news") (lower (lit "Cheap Newsletter")) = true
  /\ get_source_reliability (lit "Cheap Newsletter") = Ok (85 # 100).
Proof.
  split; [reflexivity |].
  apply (ReliabilityExtras.source_reliability_first_match
           (lit "Cheap Newsletter")
           [(lit "snopes", 95 # 100); (lit "politifact", 90 # 100);
            (lit "factcheck.org", 88 # 100); (lit "reuters", 85 # 100)]
           [(lit "bbc", 82 # 100); (lit "cnn", 75 # 100); (lit "fox news", 70 # 100);
            (lit "unknown", 50 # 100)]
           (lit "ap news") (85 # 100)).
  - reflexivity.
  - repeat constructor.
  - reflexivity.
Defined.

(** Three texts, the second one blank. *)
Lemma batch_embeddings_aligned_witness :
  generate_embeddings_batch length_model three_texts = Ok [[11]; []; [6]]
  /\ length [[11]; []; [6]] = length three_texts
  /\ (forall i text, nth_error three_texts i = Some text -> valid_text text = false ->
                     nth_error [[11]; []; [6]] i = Some [])
  /\ exists encode embeddings,
      EmbeddingBatch.model length_model = Some encode
      /\ (List.filter valid_text three_texts = [] /\ embeddings = []
          \/ encode (map preprocess_for_embedding (List.filter valid_text three_texts))
             = Ok embeddings)
      /\ [[11]; []; [6]] = align three_texts embeddings.
Proof.
  assert (Hok : generate_embeddings_batch length_model three_texts
                = Ok [[11]; []; [6]]) by (vm_compute; reflexivity).
  split; [exact Hok |].
  exact (EmbeddingExtras.batch_embeddings_aligned length_model three_texts _ Hok).
Defined.
End MoreExamples.
